(** * SSH_Helper_Electron: session output engine and scripting engine

    A shallow embedding of the parts of SSH_Helper_Electron that turn a raw
    interactive-shell byte stream into clean command output
    ([TerminalOutputProcessor], [PromptDetector], the [createResult] methods of
    [SshConnectionPool] and [SshExecutionService]) and of the scripting
    engine ([ScriptContext], [ExpressionEvaluator], [ScriptExecutor],
    [ExtractCommand]).

    JavaScript strings are sequences of UTF-16 code units; they are modelled
    as [list N], one [N] per code unit, so that [s.length], [s[i]],
    [s.substring] and friends are the list operations. *)

From Stdlib Require Import QArith Qabs Strings.String Strings.Ascii.
From stdpp Require Import base gmap strings list.

Local Open Scope N_scope.
Set Warnings "-register-all".


(* ================================================================== *)
(** ** JavaScript strings *)
(* ================================================================== *)

Definition jstr := list N.

(** Turn a Rocq string literal (ASCII) into code units. *)
Definition js (s : string) : jstr :=
  map (fun a => Ascii.N_of_ascii a) (String.list_ascii_of_string s).

(** A double-quoted word. *)
Definition dq (s : string) : jstr := [34] ++ js s ++ [34].

Definition CR : N := 13.
Definition LF : N := 10.
Definition TAB : N := 9.
Definition BACKSPACE : N := 8.
Definition BELL : N := 7.
Definition ESC : N := 27.
Definition SPACE : N := 32.

(** [WhiteSpace] and [LineTerminator] of ECMAScript: the code units removed by
    [String.prototype.trim] and matched by the regex class [\s]. *)
Definition is_ws (c : N) : bool :=
  (c =? 9) || (c =? 10) || (c =? 11) || (c =? 12) || (c =? 13) || (c =? 32)
  || (c =? 160) || (c =? 5760) || ((8192 <=? c) && (c <=? 8202))
  || (c =? 8232) || (c =? 8233) || (c =? 8239) || (c =? 8287)
  || (c =? 12288) || (c =? 65279).

Fixpoint trim_start (s : jstr) : jstr :=
  match s with
  | c :: t => if is_ws c then trim_start t else s
  | [] => []
  end.

Definition trim_end (s : jstr) : jstr := rev (trim_start (rev s)).

(** [s.trim()] *)
Definition trim (s : jstr) : jstr := trim_end (trim_start s).

(** [String.prototype.toLowerCase]: the string is read as code points
    (a high surrogate followed by a low surrogate is one code point, any
    other code unit stands for itself), each code point is replaced by its
    full lowercase mapping, and the result is written back as UTF-16.  This
    is the engine's ICU case conversion for the root locale; the tables
    below are the case data of Unicode 14.0 (UnicodeData, SpecialCasing and
    the derived properties Cased and Case_Ignorable). *)

(** Simple lowercase mappings, as runs [(first, last, step, image of first)]:
    every [c] in [first..last] with [c - first] a multiple of [step] maps to
    [image + (c - first)].  Sorted; U+0130 and U+03A3 are handled apart. *)
Definition lower_runs : list (N * N * N * N) := [
  (65, 90, 1, 97); (192, 214, 1, 224); (216, 222, 1, 248);
  (256, 302, 2, 257); (306, 310, 2, 307); (313, 327, 2, 314);
  (330, 374, 2, 331); (376, 376, 1, 255); (377, 381, 2, 378);
  (385, 385, 1, 595); (386, 388, 2, 387); (390, 390, 1, 596);
  (391, 391, 1, 392); (393, 394, 1, 598); (395, 395, 1, 396);
  (398, 398, 1, 477); (399, 399, 1, 601); (400, 400, 1, 603);
  (401, 401, 1, 402); (403, 403, 1, 608); (404, 404, 1, 611);
  (406, 406, 1, 617); (407, 407, 1, 616); (408, 408, 1, 409);
  (412, 412, 1, 623); (413, 413, 1, 626); (415, 415, 1, 629);
  (416, 420, 2, 417); (422, 422, 1, 640); (423, 423, 1, 424);
  (425, 425, 1, 643); (428, 428, 1, 429); (430, 430, 1, 648);
  (431, 431, 1, 432); (433, 434, 1, 650); (435, 437, 2, 436);
  (439, 439, 1, 658); (440, 440, 1, 441); (444, 444, 1, 445);
  (452, 452, 1, 454); (453, 453, 1, 454); (455, 455, 1, 457);
  (456, 456, 1, 457); (458, 458, 1, 460); (459, 475, 2, 460);
  (478, 494, 2, 479); (497, 497, 1, 499); (498, 500, 2, 499);
  (502, 502, 1, 405); (503, 503, 1, 447); (504, 542, 2, 505);
  (544, 544, 1, 414); (546, 562, 2, 547); (570, 570, 1, 11365);
  (571, 571, 1, 572); (573, 573, 1, 410); (574, 574, 1, 11366);
  (577, 577, 1, 578); (579, 579, 1, 384); (580, 580, 1, 649);
  (581, 581, 1, 652); (582, 590, 2, 583); (880, 882, 2, 881);
  (886, 886, 1, 887); (895, 895, 1, 1011); (902, 902, 1, 940);
  (904, 906, 1, 941); (908, 908, 1, 972); (910, 911, 1, 973);
  (913, 929, 1, 945); (932, 939, 1, 964); (975, 975, 1, 983);
  (984, 1006, 2, 985); (1012, 1012, 1, 952); (1015, 1015, 1, 1016);
  (1017, 1017, 1, 1010); (1018, 1018, 1, 1019); (1021, 1023, 1, 891);
  (1024, 1039, 1, 1104); (1040, 1071, 1, 1072); (1120, 1152, 2, 1121);
  (1162, 1214, 2, 1163); (1216, 1216, 1, 1231); (1217, 1229, 2, 1218);
  (1232, 1326, 2, 1233); (1329, 1366, 1, 1377); (4256, 4293, 1, 11520);
  (4295, 4295, 1, 11559); (4301, 4301, 1, 11565); (5024, 5103, 1, 43888);
  (5104, 5109, 1, 5112); (7312, 7354, 1, 4304); (7357, 7359, 1, 4349);
  (7680, 7828, 2, 7681); (7838, 7838, 1, 223); (7840, 7934, 2, 7841);
  (7944, 7951, 1, 7936); (7960, 7965, 1, 7952); (7976, 7983, 1, 7968);
  (7992, 7999, 1, 7984); (8008, 8013, 1, 8000); (8025, 8031, 2, 8017);
  (8040, 8047, 1, 8032); (8072, 8079, 1, 8064); (8088, 8095, 1, 8080);
  (8104, 8111, 1, 8096); (8120, 8121, 1, 8112); (8122, 8123, 1, 8048);
  (8124, 8124, 1, 8115); (8136, 8139, 1, 8050); (8140, 8140, 1, 8131);
  (8152, 8153, 1, 8144); (8154, 8155, 1, 8054); (8168, 8169, 1, 8160);
  (8170, 8171, 1, 8058); (8172, 8172, 1, 8165); (8184, 8185, 1, 8056);
  (8186, 8187, 1, 8060); (8188, 8188, 1, 8179); (8486, 8486, 1, 969);
  (8490, 8490, 1, 107); (8491, 8491, 1, 229); (8498, 8498, 1, 8526);
  (8544, 8559, 1, 8560); (8579, 8579, 1, 8580); (9398, 9423, 1, 9424);
  (11264, 11311, 1, 11312); (11360, 11360, 1, 11361); (11362, 11362, 1, 619);
  (11363, 11363, 1, 7549); (11364, 11364, 1, 637); (11367, 11371, 2, 11368);
  (11373, 11373, 1, 593); (11374, 11374, 1, 625); (11375, 11375, 1, 592);
  (11376, 11376, 1, 594); (11378, 11378, 1, 11379); (11381, 11381, 1, 11382);
  (11390, 11391, 1, 575); (11392, 11490, 2, 11393); (11499, 11501, 2, 11500);
  (11506, 11506, 1, 11507); (42560, 42604, 2, 42561); (42624, 42650, 2, 42625);
  (42786, 42798, 2, 42787); (42802, 42862, 2, 42803); (42873, 42875, 2, 42874);
  (42877, 42877, 1, 7545); (42878, 42886, 2, 42879); (42891, 42891, 1, 42892);
  (42893, 42893, 1, 613); (42896, 42898, 2, 42897); (42902, 42920, 2, 42903);
  (42922, 42922, 1, 614); (42923, 42923, 1, 604); (42924, 42924, 1, 609);
  (42925, 42925, 1, 620); (42926, 42926, 1, 618); (42928, 42928, 1, 670);
  (42929, 42929, 1, 647); (42930, 42930, 1, 669); (42931, 42931, 1, 43859);
  (42932, 42946, 2, 42933); (42948, 42948, 1, 42900); (42949, 42949, 1, 642);
  (42950, 42950, 1, 7566); (42951, 42953, 2, 42952); (42960, 42960, 1, 42961);
  (42966, 42968, 2, 42967); (42997, 42997, 1, 42998); (65313, 65338, 1, 65345);
  (66560, 66599, 1, 66600); (66736, 66771, 1, 66776); (66928, 66938, 1, 66967);
  (66940, 66954, 1, 66979); (66956, 66962, 1, 66995); (66964, 66965, 1, 67003);
  (68736, 68786, 1, 68800); (71840, 71871, 1, 71872); (93760, 93791, 1, 93792);
  (125184, 125217, 1, 125218)
].

(** Code points with the property Case_Ignorable, as sorted ranges. *)
Definition case_ignorable_ranges : list (N * N) := [
  (39, 39); (46, 46); (58, 58); (94, 94); (96, 96);
  (168, 168); (173, 173); (175, 175); (180, 180); (183, 184);
  (688, 879); (884, 885); (890, 890); (900, 901); (903, 903);
  (1155, 1161); (1369, 1369); (1375, 1375); (1425, 1469); (1471, 1471);
  (1473, 1474); (1476, 1477); (1479, 1479); (1524, 1524); (1536, 1541);
  (1552, 1562); (1564, 1564); (1600, 1600); (1611, 1631); (1648, 1648);
  (1750, 1757); (1759, 1768); (1770, 1773); (1807, 1807); (1809, 1809);
  (1840, 1866); (1958, 1968); (2027, 2037); (2042, 2042); (2045, 2045);
  (2070, 2093); (2137, 2139); (2184, 2184); (2192, 2193); (2200, 2207);
  (2249, 2306); (2362, 2362); (2364, 2364); (2369, 2376); (2381, 2381);
  (2385, 2391); (2402, 2403); (2417, 2417); (2433, 2433); (2492, 2492);
  (2497, 2500); (2509, 2509); (2530, 2531); (2558, 2558); (2561, 2562);
  (2620, 2620); (2625, 2626); (2631, 2632); (2635, 2637); (2641, 2641);
  (2672, 2673); (2677, 2677); (2689, 2690); (2748, 2748); (2753, 2757);
  (2759, 2760); (2765, 2765); (2786, 2787); (2810, 2815); (2817, 2817);
  (2876, 2876); (2879, 2879); (2881, 2884); (2893, 2893); (2901, 2902);
  (2914, 2915); (2946, 2946); (3008, 3008); (3021, 3021); (3072, 3072);
  (3076, 3076); (3132, 3132); (3134, 3136); (3142, 3144); (3146, 3149);
  (3157, 3158); (3170, 3171); (3201, 3201); (3260, 3260); (3263, 3263);
  (3270, 3270); (3276, 3277); (3298, 3299); (3328, 3329); (3387, 3388);
  (3393, 3396); (3405, 3405); (3426, 3427); (3457, 3457); (3530, 3530);
  (3538, 3540); (3542, 3542); (3633, 3633); (3636, 3642); (3654, 3662);
  (3761, 3761); (3764, 3772); (3782, 3782); (3784, 3789); (3864, 3865);
  (3893, 3893); (3895, 3895); (3897, 3897); (3953, 3966); (3968, 3972);
  (3974, 3975); (3981, 3991); (3993, 4028); (4038, 4038); (4141, 4144);
  (4146, 4151); (4153, 4154); (4157, 4158); (4184, 4185); (4190, 4192);
  (4209, 4212); (4226, 4226); (4229, 4230); (4237, 4237); (4253, 4253);
  (4348, 4348); (4957, 4959); (5906, 5908); (5938, 5939); (5970, 5971);
  (6002, 6003); (6068, 6069); (6071, 6077); (6086, 6086); (6089, 6099);
  (6103, 6103); (6109, 6109); (6155, 6159); (6211, 6211); (6277, 6278);
  (6313, 6313); (6432, 6434); (6439, 6440); (6450, 6450); (6457, 6459);
  (6679, 6680); (6683, 6683); (6742, 6742); (6744, 6750); (6752, 6752);
  (6754, 6754); (6757, 6764); (6771, 6780); (6783, 6783); (6823, 6823);
  (6832, 6862); (6912, 6915); (6964, 6964); (6966, 6970); (6972, 6972);
  (6978, 6978); (7019, 7027); (7040, 7041); (7074, 7077); (7080, 7081);
  (7083, 7085); (7142, 7142); (7144, 7145); (7149, 7149); (7151, 7153);
  (7212, 7219); (7222, 7223); (7288, 7293); (7376, 7378); (7380, 7392);
  (7394, 7400); (7405, 7405); (7412, 7412); (7416, 7417); (7468, 7530);
  (7544, 7544); (7579, 7679); (8125, 8125); (8127, 8129); (8141, 8143);
  (8157, 8159); (8173, 8175); (8189, 8190); (8203, 8207); (8216, 8217);
  (8228, 8228); (8231, 8231); (8234, 8238); (8288, 8292); (8294, 8303);
  (8305, 8305); (8319, 8319); (8336, 8348); (8400, 8432); (11388, 11389);
  (11503, 11505); (11631, 11631); (11647, 11647); (11744, 11775); (11823, 11823);
  (12293, 12293); (12330, 12333); (12337, 12341); (12347, 12347); (12441, 12446);
  (12540, 12542); (40981, 40981); (42232, 42237); (42508, 42508); (42607, 42610);
  (42612, 42621); (42623, 42623); (42652, 42655); (42736, 42737); (42752, 42785);
  (42864, 42864); (42888, 42890); (42994, 42996); (43000, 43001); (43010, 43010);
  (43014, 43014); (43019, 43019); (43045, 43046); (43052, 43052); (43204, 43205);
  (43232, 43249); (43263, 43263); (43302, 43309); (43335, 43345); (43392, 43394);
  (43443, 43443); (43446, 43449); (43452, 43453); (43471, 43471); (43493, 43494);
  (43561, 43566); (43569, 43570); (43573, 43574); (43587, 43587); (43596, 43596);
  (43632, 43632); (43644, 43644); (43696, 43696); (43698, 43700); (43703, 43704);
  (43710, 43711); (43713, 43713); (43741, 43741); (43756, 43757); (43763, 43764);
  (43766, 43766); (43867, 43871); (43881, 43883); (44005, 44005); (44008, 44008);
  (44013, 44013); (64286, 64286); (64434, 64450); (65024, 65039); (65043, 65043);
  (65056, 65071); (65106, 65106); (65109, 65109); (65279, 65279); (65287, 65287);
  (65294, 65294); (65306, 65306); (65342, 65342); (65344, 65344); (65392, 65392);
  (65438, 65439); (65507, 65507); (65529, 65531); (66045, 66045); (66272, 66272);
  (66422, 66426); (67456, 67461); (67463, 67504); (67506, 67514); (68097, 68099);
  (68101, 68102); (68108, 68111); (68152, 68154); (68159, 68159); (68325, 68326);
  (68900, 68903); (69291, 69292); (69446, 69456); (69506, 69509); (69633, 69633);
  (69688, 69702); (69744, 69744); (69747, 69748); (69759, 69761); (69811, 69814);
  (69817, 69818); (69821, 69821); (69826, 69826); (69837, 69837); (69888, 69890);
  (69927, 69931); (69933, 69940); (70003, 70003); (70016, 70017); (70070, 70078);
  (70089, 70092); (70095, 70095); (70191, 70193); (70196, 70196); (70198, 70199);
  (70206, 70206); (70367, 70367); (70371, 70378); (70400, 70401); (70459, 70460);
  (70464, 70464); (70502, 70508); (70512, 70516); (70712, 70719); (70722, 70724);
  (70726, 70726); (70750, 70750); (70835, 70840); (70842, 70842); (70847, 70848);
  (70850, 70851); (71090, 71093); (71100, 71101); (71103, 71104); (71132, 71133);
  (71219, 71226); (71229, 71229); (71231, 71232); (71339, 71339); (71341, 71341);
  (71344, 71349); (71351, 71351); (71453, 71455); (71458, 71461); (71463, 71467);
  (71727, 71735); (71737, 71738); (71995, 71996); (71998, 71998); (72003, 72003);
  (72148, 72151); (72154, 72155); (72160, 72160); (72193, 72202); (72243, 72248);
  (72251, 72254); (72263, 72263); (72273, 72278); (72281, 72283); (72330, 72342);
  (72344, 72345); (72752, 72758); (72760, 72765); (72767, 72767); (72850, 72871);
  (72874, 72880); (72882, 72883); (72885, 72886); (73009, 73014); (73018, 73018);
  (73020, 73021); (73023, 73029); (73031, 73031); (73104, 73105); (73109, 73109);
  (73111, 73111); (73459, 73460); (78896, 78904); (92912, 92916); (92976, 92982);
  (92992, 92995); (94031, 94031); (94095, 94111); (94176, 94177); (94179, 94180);
  (110576, 110579); (110581, 110587); (110589, 110590); (113821, 113822); (113824, 113827);
  (118528, 118573); (118576, 118598); (119143, 119145); (119155, 119170); (119173, 119179);
  (119210, 119213); (119362, 119364); (121344, 121398); (121403, 121452); (121461, 121461);
  (121476, 121476); (121499, 121503); (121505, 121519); (122880, 122886); (122888, 122904);
  (122907, 122913); (122915, 122916); (122918, 122922); (123184, 123197); (123566, 123566);
  (123628, 123631); (125136, 125142); (125252, 125259); (127995, 127999); (917505, 917505);
  (917536, 917631); (917760, 917999)
].

(** Code points with the property Cased that are not Case_Ignorable (the
    cased-letter test is only made on code points that are not
    case-ignorable), as sorted ranges. *)
Definition cased_ranges : list (N * N) := [
  (65, 90); (97, 122); (170, 170); (181, 181); (186, 186);
  (192, 214); (216, 246); (248, 442); (444, 447); (452, 659);
  (661, 687); (880, 883); (886, 887); (891, 893); (895, 895);
  (902, 902); (904, 906); (908, 908); (910, 929); (931, 1013);
  (1015, 1153); (1162, 1327); (1329, 1366); (1376, 1416); (4256, 4293);
  (4295, 4295); (4301, 4301); (4304, 4346); (4349, 4351); (5024, 5109);
  (5112, 5117); (7296, 7304); (7312, 7354); (7357, 7359); (7424, 7467);
  (7531, 7543); (7545, 7578); (7680, 7957); (7960, 7965); (7968, 8005);
  (8008, 8013); (8016, 8023); (8025, 8025); (8027, 8027); (8029, 8029);
  (8031, 8061); (8064, 8116); (8118, 8124); (8126, 8126); (8130, 8132);
  (8134, 8140); (8144, 8147); (8150, 8155); (8160, 8172); (8178, 8180);
  (8182, 8188); (8450, 8450); (8455, 8455); (8458, 8467); (8469, 8469);
  (8473, 8477); (8484, 8484); (8486, 8486); (8488, 8488); (8490, 8493);
  (8495, 8500); (8505, 8505); (8508, 8511); (8517, 8521); (8526, 8526);
  (8544, 8575); (8579, 8580); (9398, 9449); (11264, 11387); (11390, 11492);
  (11499, 11502); (11506, 11507); (11520, 11557); (11559, 11559); (11565, 11565);
  (42560, 42605); (42624, 42651); (42786, 42863); (42865, 42887); (42891, 42894);
  (42896, 42954); (42960, 42961); (42963, 42963); (42965, 42969); (42997, 42998);
  (43002, 43002); (43824, 43866); (43872, 43880); (43888, 43967); (64256, 64262);
  (64275, 64279); (65313, 65338); (65345, 65370); (66560, 66639); (66736, 66771);
  (66776, 66811); (66928, 66938); (66940, 66954); (66956, 66962); (66964, 66965);
  (66967, 66977); (66979, 66993); (66995, 67001); (67003, 67004); (68736, 68786);
  (68800, 68850); (71840, 71903); (93760, 93823); (119808, 119892); (119894, 119964);
  (119966, 119967); (119970, 119970); (119973, 119974); (119977, 119980); (119982, 119993);
  (119995, 119995); (119997, 120003); (120005, 120069); (120071, 120074); (120077, 120084);
  (120086, 120092); (120094, 120121); (120123, 120126); (120128, 120132); (120134, 120134);
  (120138, 120144); (120146, 120485); (120488, 120512); (120514, 120538); (120540, 120570);
  (120572, 120596); (120598, 120628); (120630, 120654); (120656, 120686); (120688, 120712);
  (120714, 120744); (120746, 120770); (120772, 120779); (122624, 122633); (122635, 122654);
  (125184, 125251); (127280, 127305); (127312, 127337); (127344, 127369)
].

Fixpoint run_lookup (rs : list (N * N * N * N)) (c : N) : N :=
  match rs with
  | [] => c
  | (a, b, st, t) :: rs' =>
      if c <? a then c
      else if (c <=? b) && (N.modulo (c - a) st =? 0) then t + (c - a)
      else run_lookup rs' c
  end.

Fixpoint in_ranges (rs : list (N * N)) (c : N) : bool :=
  match rs with
  | [] => false
  | (a, b) :: rs' => if c <? a then false else if c <=? b then true else in_ranges rs' c
  end.

Definition case_ignorable (c : N) : bool := in_ranges case_ignorable_ranges c.
Definition cased (c : N) : bool := in_ranges cased_ranges c.

Definition is_high_surrogate (u : N) : bool := (55296 <=? u) && (u <=? 56319).
Definition is_low_surrogate (u : N) : bool := (56320 <=? u) && (u <=? 57343).

(** The code points of a string (StringToCodePoints). *)
Fixpoint code_points (s : jstr) : list N :=
  match s with
  | [] => []
  | u :: rest =>
      if is_high_surrogate u then
        match rest with
        | l :: rest' =>
            if is_low_surrogate l then (65536 + (u - 55296) * 1024 + (l - 56320)) :: code_points rest'
            else u :: code_points rest
        | [] => [u]
        end
      else u :: code_points rest
  end.

(** UTF-16 encoding of a code point (CodePointsToString). *)
Definition utf16 (c : N) : jstr :=
  if c <? 65536 then [c]
  else [55296 + N.shiftr (c - 65536) 10; 56320 + N.land (c - 65536) 1023].

(** Skipping case-ignorable code points, the first other one is cased. *)
Fixpoint cased_after (cps : list N) : bool :=
  match cps with
  | [] => false
  | c :: t => if case_ignorable c then cased_after t else cased c
  end.

(** U+03A3 is in the Final_Sigma context: preceded by a cased letter and
    not followed by one, case-ignorable code points skipped ([before] is
    in reverse order). *)
Definition final_sigma (before after : list N) : bool :=
  cased_after before && negb (cased_after after).

(** The full lowercase mapping of a code point other than U+03A3. *)
Definition lower_cp (c : N) : list N :=
  if c =? 304 then [105; 775] else [run_lookup lower_runs c].

Fixpoint lower_go (before : list N) (cps : list N) : list N :=
  match cps with
  | [] => []
  | c :: t =>
      (if c =? 931 then [if final_sigma before t then 962 else 963] else lower_cp c)
      ++ lower_go (c :: before) t
  end.

Definition to_lower (s : jstr) : jstr := flat_map utf16 (lower_go [] (code_points s)).

Fixpoint starts_with (s p : jstr) : bool :=
  match p, s with
  | [], _ => true
  | x :: p', y :: s' => (x =? y) && starts_with s' p'
  | _ :: _, [] => false
  end.

(** [s.endsWith(p)] *)
Definition ends_with (s p : jstr) : bool := starts_with (rev s) (rev p).

(** [s.includes(p)] *)
Fixpoint includes (s p : jstr) : bool :=
  starts_with s p || match s with [] => false | _ :: t => includes t p end.

(** [s.split(sep)] for a one-code-unit separator. *)
Fixpoint split_go (sep : N) (s cur : jstr) : list jstr :=
  match s with
  | [] => [rev cur]
  | c :: t => if c =? sep then rev cur :: split_go sep t [] else split_go sep t (c :: cur)
  end.

Definition split_on (sep : N) (s : jstr) : list jstr := split_go sep s [].

(** [arr.join(sep)] *)
Fixpoint join (sep : jstr) (l : list jstr) : jstr :=
  match l with
  | [] => []
  | [x] => x
  | x :: t => x ++ sep ++ join sep t
  end.

(** [s.substring(a, b)]: both bounds clamped to [0, length], swapped when
    [a > b]. *)
Definition substring (s : jstr) (a b : nat) : jstr :=
  let a' := Nat.min a (length s) in
  let b' := Nat.min b (length s) in
  if Nat.leb a' b' then take (b' - a') (drop a' s) else take (a' - b') (drop b' s).

(** [s.slice(-n)] for [n > 0]: the last [n] code units (all of [s] when it
    is shorter). *)
Definition slice_last (n : nat) (s : jstr) : jstr := drop (length s - n) s.

(* ================================================================== *)
(** ** Regular expressions *)
(* ================================================================== *)

(** The regexes that the session engine builds, as an abstract syntax tree.
    Escaped text is a literal run [RLit].  [mt r s] lists, in backtracking
    priority order (greedy quantifiers try one more iteration first), the
    rests of [s] left after [r] matched a prefix of [s].  An iteration of a
    [*] or of the second and later iterations of a [+] that consumes no input
    is rejected, as in ECMAScript's RepeatMatcher. *)
Inductive re : Type :=
| RLit (l : jstr)
| RClass (p : N -> bool)
| RSeq (a b : re)
| RAlt (a b : re)
| ROpt (a : re)
| RStar (a : re)
| RPlus (a : re)
| REnd.

Fixpoint star (f : jstr -> list jstr) (fuel : nat) (s : jstr) : list jstr :=
  match fuel with
  | O => [s]
  | S n =>
      flat_map (fun t => if Nat.ltb (length t) (length s) then star f n t else []) (f s)
      ++ [s]
  end.

Fixpoint mt (r : re) (s : jstr) : list jstr :=
  match r with
  | RLit l => if starts_with s l then [drop (length l) s] else []
  | RClass p => match s with c :: t => if p c then [t] else [] | [] => [] end
  | RSeq a b => flat_map (mt b) (mt a s)
  | RAlt a b => mt a s ++ mt b s
  | ROpt a => mt a s ++ [s]
  | RStar a => star (mt a) (length s) s
  | RPlus a => flat_map (fun t => star (mt a) (length t) t) (mt a s)
  | REnd => match s with [] => [s] | _ => [] end
  end.

Fixpoint rseq (l : list re) : re :=
  match l with
  | [] => RLit []
  | [a] => a
  | a :: t => RSeq a (rseq t)
  end.

(** [regex.test(s)] for a regex without the [g] flag: some position of [s]
    starts a match. *)
Fixpoint re_test (r : re) (s : jstr) : bool :=
  match mt r s with
  | _ :: _ => true
  | [] => match s with [] => false | _ :: t => re_test r t end
  end.

(** The leftmost match of [r] in [s] at or after offset [k]: its index and
    its length (the first alternative in priority order). *)
Fixpoint re_find (r : re) (s : jstr) (k : nat) : option (nat * nat) :=
  match mt r s with
  | t :: _ => Some (k, (length s - length t)%nat)
  | [] => match s with [] => None | _ :: s' => re_find r s' (S k) end
  end.

(** [s.replace(r, '')] for a regex without the [g] flag. *)
Definition replace_first (r : re) (s : jstr) : jstr :=
  match re_find r s 0 with
  | None => s
  | Some (k, l) => take k s ++ drop (k + l) s
  end.

(** [s.replace(r, '')] for a regex with the [g] flag: every match, left to
    right; after an empty match the search resumes one code unit further. *)
Fixpoint replace_all_go (fuel : nat) (r : re) (s : jstr) : jstr :=
  match fuel with
  | O => s
  | S f =>
      match re_find r s 0 with
      | None => s
      | Some (k, l) =>
          if Nat.eqb l 0
          then take k s ++ match drop k s with [] => [] | c :: t => c :: replace_all_go f r t end
          else take k s ++ replace_all_go f r (drop (k + l) s)
      end
  end.

Definition replace_all (r : re) (s : jstr) : jstr := replace_all_go (S (length s)) r s.

(** Character classes. *)
Definition c_ws : re := RClass is_ws.                                 (* \s *)
Definition c_digit : re := RClass (fun c => (48 <=? c) && (c <=? 57)).  (* \d *)
Definition c_char (x : N) : re := RClass (N.eqb x).
(** An ASCII letter [x] under the [i] flag: Canonicalize (non-unicode
    mode) maps a code unit to its single-unit uppercase form, except that a
    code unit from 128 up is never mapped below 128; so the code units
    matching [x] are the ASCII ones with the same ASCII uppercase form. *)
Definition ascii_upper (c : N) : N := if (97 <=? c) && (c <=? 122) then c - 32 else c.
Definition c_ci (x : N) : re := RClass (fun c => ascii_upper c =? ascii_upper x).
Definition lit_ci (s : string) : re := rseq (map c_ci (js s)).

(* ================================================================== *)
(** ** TerminalOutputProcessor *)
(* ================================================================== *)

Module TerminalOutputProcessor.

(** [isEscapeTerminator]: letters A-Z, a-z end a CSI sequence. *)
Definition isEscapeTerminator (c : N) : bool :=
  ((65 <=? c) && (c <=? 90)) || ((97 <=? c) && (c <=? 122)).

(** Write one character at the cursor: overwrite inside the line, append at
    its end. *)
Definition write_at (cur : jstr) (pos : nat) (ch : N) : jstr :=
  if Nat.ltb pos (length cur)
  then take pos cur ++ ch :: drop (S pos) cur
  else cur ++ [ch].

Fixpoint tab_fill (k : nat) (cur : jstr) (pos : nat) : jstr * nat :=
  match k with
  | O => (cur, pos)
  | S k' => tab_fill k' (write_at cur pos SPACE) (S pos)
  end.

(** The main loop of [normalize]: [csi] is true while skipping the body of a
    CSI escape sequence ([ESC [ ... letter]); [res] the lines pushed so far,
    [cur] the current line and [pos] the cursor. *)
Fixpoint norm_go (inp : jstr) (csi : bool) (res : list jstr) (cur : jstr) (pos : nat)
  : list jstr * jstr :=
  match inp with
  | [] => (res, cur)
  | c :: rest =>
      if csi then norm_go rest (negb (isEscapeTerminator c)) res cur pos
      else if c =? CR then norm_go rest false res cur 0
      else if c =? LF then norm_go rest false (res ++ [cur]) [] 0
      else if c =? TAB then
        let '(cur', pos') := tab_fill (8 - Nat.modulo pos 8) cur pos in
        norm_go rest false res cur' pos'
      else if c =? BACKSPACE then norm_go rest false res cur (Nat.pred pos)
      else if c =? BELL then norm_go rest false res cur pos
      else if c =? ESC then
        match rest with
        | 91 :: rest' => norm_go rest' true res cur pos
        | _ => norm_go rest false res cur pos
        end
      else if SPACE <=? c then norm_go rest false res (write_at cur pos c) (S pos)
      else norm_go rest false res cur pos
  end.

Definition normalize (input : jstr) : jstr :=
  match input with
  | [] => []
  | _ =>
      let '(res, cur) := norm_go input false [] [] 0 in
      join [LF] (match cur with [] => res | _ => res ++ [cur] end)
  end.

(** [PAGER_REGEX = /\r?(?:--\s*More\s*--|(?:-+\s*More\s*-+))[ ]?\r?/i] *)
Definition PAGER_REGEX : re :=
  rseq [ROpt (c_char CR);
        RAlt (rseq [RLit (js "--"); RStar c_ws; lit_ci "More"; RStar c_ws; RLit (js "--")])
             (rseq [RPlus (c_char 45); RStar c_ws; lit_ci "More"; RStar c_ws; RPlus (c_char 45)]);
        ROpt (c_char SPACE);
        ROpt (c_char CR)].

(** The four global patterns of [stripPagerArtifacts]:
    [/--More-- \(\d+%\)\s*/g], [/<--- More --->\s*/g],
    [/Press any key to continue\.\.\.\s*/g],
    [/Press SPACE for more, Q to quit\.\.\.\s*/g]. *)
Definition pagerPatterns : list re :=
  [rseq [RLit (js "--More-- ("); RPlus c_digit; RLit (js "%)"); RStar c_ws];
   rseq [RLit (js "<--- More --->"); RStar c_ws];
   rseq [RLit (js "Press any key to continue..."); RStar c_ws];
   rseq [RLit (js "Press SPACE for more, Q to quit..."); RStar c_ws]].

Definition stripPagerArtifacts (text : jstr) : jstr * bool :=
  let '(text1, saw1) :=
    if re_test PAGER_REGEX text then (replace_first PAGER_REGEX text, true) else (text, false) in
  fold_left (fun (acc : jstr * bool) p =>
               let '(t, saw) := acc in
               if re_test p t then (replace_all p t, true) else (t, saw))
            pagerPatterns (text1, saw1).

(** [ANSI_REGEX = /\x1b\[[0-9;]*[a-zA-Z]/g] *)
Definition ANSI_REGEX : re :=
  rseq [c_char ESC; c_char 91;
        RStar (RClass (fun c => ((48 <=? c) && (c <=? 57)) || (c =? 59)));
        RClass (fun c => ((65 <=? c) && (c <=? 90)) || ((97 <=? c) && (c <=? 122)))].

(** The class [[\x00-\x08\x0b\x0c\x0e-\x1f\x7f]] removed by [sanitize]. *)
Definition is_removed_control (c : N) : bool :=
  (c <=? 8) || (c =? 11) || (c =? 12) || ((14 <=? c) && (c <=? 31)) || (c =? 127).

Definition sanitize (input : jstr) : jstr :=
  match input with
  | [] => []
  | _ => replace_all (RClass is_removed_control) (replace_all ANSI_REGEX input)
  end.

(** [text.replace(/^\r[ ]+\r/, '')]: the anchored pattern is tried at
    index 0 only; its first match in priority order is removed. *)
Definition stripPagerDismissalArtifacts (text : jstr) : jstr :=
  match text with
  | [] => text
  | _ => match mt (rseq [c_char CR; RPlus (c_char SPACE); c_char CR]) text with
         | t :: _ => t
         | [] => text
         end
  end.

Definition containsPagerPrompt (text : jstr) : bool := re_test PAGER_REGEX text.

Definition visibleLength (text : jstr) : nat := length (sanitize text).

End TerminalOutputProcessor.

(* ================================================================== *)
(** ** PromptDetector *)
(* ================================================================== *)

Module PromptDetector.

Definition PROMPT_TERMINATORS : list N := [35; 62; 36; 37].  (* # > $ % *)

Definition is_terminator (c : N) : bool := existsb (N.eqb c) PROMPT_TERMINATORS.

(** [buildPromptRegex]: [escapeRegex] makes the prompt text a literal
    [RLit]; with terminator [t] and base [b] the pattern is
    [b(?:\([^)]*\))?t\s*$], without a known terminator [lit\s*$]. *)
Definition buildPromptRegex (promptLiteral : jstr) : re :=
  match find (fun t => ends_with promptLiteral [t]) PROMPT_TERMINATORS with
  | None => rseq [RLit promptLiteral; RStar c_ws; REnd]
  | Some t =>
      let basePart := trim (take (length promptLiteral - 1) promptLiteral) in
      rseq [RLit basePart;
            ROpt (rseq [RLit (js "("); RStar (RClass (fun c => negb (c =? 41))); RLit (js ")")]);
            RLit [t];
            RStar c_ws;
            REnd]
  end.

Definition isLikelyPrompt (line : jstr) : bool :=
  if Nat.eqb (length line) 0 || Nat.ltb 100 (length line) then false
  else match last line with
       | None => false
       | Some lastChar =>
           if negb (is_terminator lastChar) then false
           else if includes line [TAB] || includes line [SPACE; SPACE] then false
           else if Nat.ltb 50 (length line) then false
           else true
       end.

(** [tryDetectPrompt]: the loop runs [i] from [lines.length - 1] down to
    [Math.max(0, lines.length - 5)], i.e. over the last (at most) five lines
    of [buffer.split('\n')] from the end, and returns the first trimmed line
    that [isLikelyPrompt] accepts ([None] is [null]). *)
Definition tryDetectPrompt (buffer : jstr) : option jstr :=
  let lines := split_on LF buffer in
  find isLikelyPrompt (map trim (take 5 (rev lines))).

Definition tryDetectPromptFromTail (buffer : jstr) : option jstr :=
  let tail := slice_last 500 buffer in
  tryDetectPrompt tail.

(** [promptRegex] is a regex built by [buildPromptRegex] (no flags), so
    [test] has no [lastIndex] state. *)
Definition bufferEndsWithPrompt (buffer : jstr) (promptRegex : re) : bool :=
  let tail := slice_last 200 buffer in
  re_test promptRegex tail.

(** [tryDetectDifferentPrompt]: the same loop over the last (at most) three
    lines. *)
Definition tryDetectDifferentPrompt (buffer : jstr) (currentPromptRegex : re) : option jstr :=
  let lines := split_on LF buffer in
  find (fun line => isLikelyPrompt line && negb (re_test currentPromptRegex line))
       (map trim (take 3 (rev lines))).

(** The specification of [isLikelyPrompt] as a predicate on the line it
    receives. *)
Definition likely_prompt_spec (line : jstr) : Prop :=
  (1 <= length line <= 50)%nat
  /\ (exists c, last line = Some c /\ is_terminator c = true)
  /\ includes line [TAB] = false
  /\ includes line [SPACE; SPACE] = false.

End PromptDetector.

(* ================================================================== *)
(** ** Building the clean command result *)
(* ================================================================== *)

(** The part of [createResult] that computes [output] from the session
    buffer and the session's [promptRegex] ([None] when it is unset).
    [SshConnectionPool.createResult] trims the joined lines before
    stripping pager artifacts; [SshExecutionService.createResult] does not. *)
Definition clean_output (trim_joined : bool) (buffer : jstr) (promptRegex : option re) : jstr :=
  let output := TerminalOutputProcessor.normalize buffer in
  let lines := split_on LF output in
  let lines := match lines with [] => [] | _ :: t => t end in
  let lines :=
    match promptRegex, last lines with
    | Some rx, Some lastLine =>
        if re_test rx lastLine || PromptDetector.isLikelyPrompt (trim lastLine)
        then removelast lines else lines
    | _, _ => lines
    end in
  let output := join [LF] lines in
  let output := if trim_joined then trim output else output in
  fst (TerminalOutputProcessor.stripPagerArtifacts output).

Module SshConnectionPool.
Definition createResult_output (buffer : jstr) (promptRegex : option re) : jstr :=
  clean_output true buffer promptRegex.
End SshConnectionPool.

Module SshExecutionService.
Definition createResult_output (buffer : jstr) (promptRegex : option re) : jstr :=
  clean_output false buffer promptRegex.
End SshExecutionService.

(* ================================================================== *)
(** ** Numbers and values *)
(* ================================================================== *)

(** A JavaScript number: [NaN], an infinity, or a finite decimal
    [m * 10^e].  Finite numbers are the exact decimals written in the text
    they were parsed from; the rounding to binary64 is not modelled. *)
Inductive jnum : Type :=
| JNaN
| JInf (neg : bool)
| JFin (m : Z) (e : Z).

Definition jnum_Q (m e : Z) : Q :=
  if (0 <=? e)%Z then inject_Z (m * 10 ^ e) else Qmake m (Z.to_pos (10 ^ (- e))).

Definition is_digit (c : N) : bool := (48 <=? c) && (c <=? 57).

Fixpoint digits_val (acc : Z) (d : jstr) : Z :=
  match d with
  | [] => acc
  | c :: t => digits_val (acc * 10 + Z.of_N (c - 48))%Z t
  end.

Fixpoint take_digits (s : jstr) : jstr * jstr :=
  match s with
  | c :: t => if is_digit c then let '(d, r) := take_digits t in (c :: d, r) else ([], s)
  | [] => ([], [])
  end.

(** An optional sign: [true] for a minus sign. *)
Definition take_sign (s : jstr) : bool * jstr :=
  match s with
  | 45 :: t => (true, t)
  | 43 :: t => (false, t)
  | _ => (false, s)
  end.

(** The exponent part [e[+-]digits] of a decimal literal, [0] when absent
    or incomplete. *)
Definition exponent_part (s : jstr) : Z :=
  match s with
  | c :: t =>
      if (c =? 101) || (c =? 69) then
        let '(neg, t') := take_sign t in
        match take_digits t' with
        | ([], _) => 0%Z
        | (d, _) => if neg then (- digits_val 0 d)%Z else digits_val 0 d
        end
      else 0%Z
  | [] => 0%Z
  end.

(** [parseFloat(s)]: the longest prefix of [s] (after leading white space)
    that is a decimal literal or [Infinity]. *)
Definition parseFloat (s : jstr) : jnum :=
  let '(neg, t) := take_sign (trim_start s) in
  if starts_with t (js "Infinity") then JInf neg else
  let '(d1, r1) := take_digits t in
  let '(d2, r2) := match r1 with
                   | 46 :: r => take_digits r
                   | _ => ([], r1)
                   end in
  match d1 ++ d2 with
  | [] => JNaN
  | d =>
      let m := digits_val 0 d in
      JFin (if neg then (- m)%Z else m) (exponent_part r2 - Z.of_nat (length d2))%Z
  end.

(** [parseInt(s, 10)]; [None] is [NaN]. *)
Definition parseInt (s : jstr) : option Z :=
  let '(neg, t) := take_sign (trim_start s) in
  match take_digits t with
  | ([], _) => None
  | (d, _) => Some (if neg then (- digits_val 0 d)%Z else digits_val 0 d)
  end.

Definition isNaN (n : jnum) : bool := match n with JNaN => true | _ => false end.

Fixpoint pos_digits (fuel : nat) (a : Z) (acc : jstr) : jstr :=
  match fuel with
  | O => acc
  | S f => if (a <? 10)%Z then (48 + Z.to_N a) :: acc
           else pos_digits f (a / 10)%Z ((48 + Z.to_N (a mod 10)) :: acc)
  end.

(** The decimal digits of a positive integer. *)
Definition z_digits (a : Z) : jstr := pos_digits (S (Z.to_nat (Z.log2 a))) a [].

Fixpoint drop_zeros (d : jstr) : jstr :=
  match d with
  | 48 :: t => drop_zeros t
  | _ => d
  end.

(** [Number::toString] of a finite nonzero decimal [a * 10^e], [a > 0]:
    [k] significant digits, decimal point after [n = k + e] of them. *)
Definition pos_to_string (a e : Z) : jstr :=
  let d0 := z_digits a in
  let d := rev (drop_zeros (rev d0)) in
  let k := Z.of_nat (length d) in
  let n := (k + e + Z.of_nat (length d0 - length d))%Z in
  let zeros (z : Z) : jstr := repeat 48 (Z.to_nat z) in
  if (k <=? n)%Z && (n <=? 21)%Z then d ++ zeros (n - k)%Z
  else if (0 <? n)%Z && (n <=? 21)%Z then take (Z.to_nat n) d ++ [46] ++ drop (Z.to_nat n) d
  else if (-6 <? n)%Z && (n <=? 0)%Z then js "0." ++ zeros (- n)%Z ++ d
  else
    let x := (n - 1)%Z in
    let ex := js "e" ++ (if (0 <=? x)%Z then js "+" else js "-") ++ z_digits (Z.abs x) in
    match d with
    | [c] => [c] ++ ex
    | c :: t => [c] ++ [46] ++ t ++ ex
    | [] => ex
    end.

Definition num_to_string (n : jnum) : jstr :=
  match n with
  | JNaN => js "NaN"
  | JInf neg => if neg then js "-Infinity" else js "Infinity"
  | JFin m e =>
      if (m =? 0)%Z then js "0"
      else if (m <? 0)%Z then js "-" ++ pos_to_string (- m) e else pos_to_string m e
  end.

(** The ordering of numbers; [None] when [NaN] is involved. *)
Definition jnum_cmp (a b : jnum) : option comparison :=
  match a, b with
  | JNaN, _ | _, JNaN => None
  | JInf x, JInf y => Some (if Bool.eqb x y then Eq else if x then Lt else Gt)
  | JInf x, JFin _ _ => Some (if x then Lt else Gt)
  | JFin _ _, JInf y => Some (if y then Gt else Lt)
  | JFin m1 e1, JFin m2 e2 => Some (Qcompare (jnum_Q m1 e1) (jnum_Q m2 e2))
  end.

Definition jnum_lt (a b : jnum) : bool :=
  match jnum_cmp a b with Some Lt => true | _ => false end.
Definition jnum_le (a b : jnum) : bool :=
  match jnum_cmp a b with Some Lt | Some Eq => true | _ => false end.

(** [Math.abs(a - b) < 0.0001]: false unless both are finite. *)
Definition jnum_close (a b : jnum) : bool :=
  match a, b with
  | JFin m1 e1, JFin m2 e2 => match Qcompare (Qabs (jnum_Q m1 e1 - jnum_Q m2 e2)) (1 # 10000) with
                                  | Lt => true
                                  | _ => false
                                  end
  | _, _ => false
  end.

(** The values held by script variables and computed by the evaluator. *)
Inductive value : Type :=
| VUndef
| VNull
| VBool (b : bool)
| VNum (n : jnum)
| VStr (s : jstr)
| VArr (l : list value).

(** [String(v)]; arrays join their elements with [","], printing
    [undefined] and [null] elements as empty strings. *)
Fixpoint js_String (v : value) : jstr :=
  match v with
  | VUndef => js "undefined"
  | VNull => js "null"
  | VBool b => if b then js "true" else js "false"
  | VNum n => num_to_string n
  | VStr s => s
  | VArr l => join [44] (map (fun x => match x with
                                         | VUndef | VNull => []
                                         | _ => js_String x
                                         end) l)
  end.

(** [v?.toString() ?? ''] *)
Definition to_string_or_empty (v : value) : jstr :=
  match v with VUndef | VNull => [] | _ => js_String v end.

(** JavaScript truthiness ([!!v]). *)
Definition truthy (v : value) : bool :=
  match v with
  | VUndef | VNull => false
  | VBool b => b
  | VNum (JFin m _) => negb (m =? 0)%Z
  | VNum JNaN => false
  | VNum (JInf _) => true
  | VStr s => negb (Nat.eqb (length s) 0)
  | VArr _ => true
  end.

(* ================================================================== *)
(** ** ScriptContext *)
(* ================================================================== *)

Module ScriptContext.

Inductive OutputType : Type :=
| Info | Command | CommandOutput | Debug | Warning | Error | Success.

(** The state of a [ScriptContext]: the [variables] map (keys are
    lower-cased names), the accumulated [output], [lastCommandOutput] and
    [debugMode].  The [output] and [columnUpdate] events are only observed
    by listeners and are not part of the state. *)
Record ScriptContext : Type := mkContext {
  variables : gmap jstr value;
  output : list jstr;
  lastCommandOutput : jstr;
  debugMode : bool
}.

Definition with_variables (c : ScriptContext) (m : gmap jstr value) : ScriptContext :=
  mkContext m (output c) (lastCommandOutput c) (debugMode c).

(** [new ScriptContext(initialVariables)]; [timestamp] is the value computed
    from [new Date()] for [_timestamp]. *)
Definition create (initialVariables : option (list (jstr * jstr))) (timestamp : jstr)
  : ScriptContext :=
  let m := match initialVariables with
           | Some entries =>
               fold_left (fun m '(k, v) => <[to_lower k := VStr v]> m) entries ∅
           | None => ∅
           end in
  mkContext (<[js "_timestamp" := VStr timestamp]> m) [] [] false.

Definition setVariable (c : ScriptContext) (name : jstr) (v : value) : ScriptContext :=
  with_variables c (<[to_lower name := v]> (variables c)).

Definition getVariable (c : ScriptContext) (name : jstr) : value :=
  match variables c !! to_lower name with Some v => v | None => VUndef end.

Definition getVariableString (c : ScriptContext) (name : jstr) : jstr :=
  to_string_or_empty (getVariable c name).

Definition getVariableList (c : ScriptContext) (name : jstr) : list jstr :=
  match getVariable c name with
  | VArr l => map js_String l
  | VStr s => [s]
  | _ => []
  end.

Definition hasVariable (c : ScriptContext) (name : jstr) : bool :=
  match variables c !! to_lower name with Some _ => true | None => false end.

Definition is_word (c : N) : bool :=
  ((48 <=? c) && (c <=? 57)) || ((65 <=? c) && (c <=? 90))
  || ((97 <=? c) && (c <=? 122)) || (c =? 95).

Fixpoint take_while (p : N -> bool) (s : jstr) : jstr * jstr :=
  match s with
  | c :: t => if p c then let '(a, b) := take_while p t in (c :: a, b) else ([], s)
  | [] => ([], [])
  end.

(** [expr.match(/^(\w+)\[([^\]]+)\]$/)]: the variable name and the index
    text. *)
Definition array_match (expr : jstr) : option (jstr * jstr) :=
  match take_while is_word expr with
  | ([], _) => None
  | (w, 91 :: rest) =>
      match take_while (fun c => negb (c =? 93)) rest with
      | ([], _) => None
      | (idx, [93]) => Some (w, idx)
      | _ => None
      end
  | _ => None
  end.

Definition resolveVariableExpression (c : ScriptContext) (expr : jstr) : jstr :=
  match array_match expr with
  | Some (varName, indexExpr) =>
      let index :=
        match parseInt indexExpr with
        | Some i => Some i
        | None =>
            match getVariable c indexExpr with
            | VUndef => None
            | indexVar => parseInt (js_String indexVar)
            end
        end in
      match index with
      | None => []
      | Some i =>
          let l := getVariableList c varName in
          if (0 <=? i)%Z && (i <? Z.of_nat (length l))%Z
          then default [] (l !! Z.to_nat i) else []
      end
  | None => getVariableString c expr
  end.

(** The replacement string of [s.replace(regex, repl)] (GetSubstitution) for
    a regex without capture groups: [$$], [$&], [$`] and [$'] are expanded,
    any other [$] is kept. *)
Fixpoint get_substitution (repl matched before after : jstr) : jstr :=
  match repl with
  | 36 :: 36 :: t => 36 :: get_substitution t matched before after
  | 36 :: 38 :: t => matched ++ get_substitution t matched before after
  | 36 :: 96 :: t => before ++ get_substitution t matched before after
  | 36 :: 39 :: t => after ++ get_substitution t matched before after
  | x :: t => x :: get_substitution t matched before after
  | [] => []
  end.

(** [input.replace(/\$\{_output\}/g, lastCommandOutput)]: [k] is the offset
    of [s] in [orig], [skip] the code units of a replaced match still to
    pass over. *)
Fixpoint subst_output_go (orig repl : jstr) (s : jstr) (k skip : nat) : jstr :=
  let pat := js "${_output}" in
  match s with
  | [] => []
  | x :: t =>
      match skip with
      | S skip' => subst_output_go orig repl t (S k) skip'
      | O =>
          if starts_with s pat
          then get_substitution repl pat (take k orig) (drop (k + length pat) orig)
               ++ subst_output_go orig repl t (S k) (length pat - 1)
          else x :: subst_output_go orig repl t (S k) 0
      end
  end.

(** The text of a [${...}] reference that starts [s]: one or more code units
    other than [}] followed by [}]. *)
Definition brace_body (s : jstr) : option jstr :=
  match s with
  | 36 :: 123 :: t =>
      match take_while (fun c => negb (c =? 125)) t with
      | ([], _) => None
      | (body, 125 :: _) => Some body
      | _ => None
      end
  | _ => None
  end.

(** [result.replace(/\$\{([^}]+)\}/g, (_m, expr) => resolveVariableExpression(expr))] *)
Fixpoint subst_refs_go (c : ScriptContext) (s : jstr) (skip : nat) : jstr :=
  match s with
  | [] => []
  | x :: t =>
      match skip with
      | S skip' => subst_refs_go c t skip'
      | O =>
          match brace_body s with
          | Some body => resolveVariableExpression c body ++ subst_refs_go c t (length body + 2)
          | None => x :: subst_refs_go c t 0
          end
      end
  end.

Definition substituteVariables (c : ScriptContext) (input : jstr) : jstr :=
  match input with
  | [] => input
  | _ => subst_refs_go c (subst_output_go input (lastCommandOutput c) input 0 0) 0
  end.

(** [getFullOutput()]: [this.output.join('\n')] *)
Definition getFullOutput (c : ScriptContext) : jstr := join [LF] (output c).

Definition recordCommandOutput (c : ScriptContext) (out : jstr) (captureVariable : option jstr)
  : ScriptContext :=
  let c1 := mkContext (<[js "_output" := VStr out]> (variables c)) (output c ++ [out]) out (debugMode c) in
  match captureVariable with
  | Some ((_ :: _) as name) => setVariable c1 name (VStr out)
  | _ => c1
  end.

Definition emitOutput (c : ScriptContext) (message : jstr) (type : OutputType) : ScriptContext :=
  match type with
  | Debug => if debugMode c then mkContext (variables c) (output c ++ [message]) (lastCommandOutput c) (debugMode c) else c
  | _ => mkContext (variables c) (output c ++ [message]) (lastCommandOutput c) (debugMode c)
  end.

Definition clearOutput (c : ScriptContext) : ScriptContext :=
  mkContext (variables c) [] (lastCommandOutput c) (debugMode c).

(** [context.debugMode = b], as done by [ScriptExecutor.execute]. *)
Definition setDebugMode (c : ScriptContext) (b : bool) : ScriptContext :=
  mkContext (variables c) (output c) (lastCommandOutput c) b.

(** [importScriptVars(vars)], [vars] given as its [Object.entries]. *)
Definition importScriptVars (c : ScriptContext) (vars : list (jstr * value)) : ScriptContext :=
  fold_left (fun c '(key, v) =>
               let lowerKey := to_lower key in
               match variables c !! lowerKey with
               | Some _ => c
               | None => with_variables c (<[lowerKey := v]> (variables c))
               end) vars c.

(** Every operation that changes a context; [requestColumnUpdate] only
    emits an event. *)
Inductive ctx_op : Type :=
| OpSetVariable (name : jstr) (v : value)
| OpRecordCommandOutput (out : jstr) (capture : option jstr)
| OpEmitOutput (message : jstr) (type : OutputType)
| OpClearOutput
| OpRequestColumnUpdate (column v : jstr)
| OpImportScriptVars (vars : list (jstr * value))
| OpSetDebugMode (b : bool).

Definition apply_op (c : ScriptContext) (op : ctx_op) : ScriptContext :=
  match op with
  | OpSetVariable n v => setVariable c n v
  | OpRecordCommandOutput o cap => recordCommandOutput c o cap
  | OpEmitOutput m t => emitOutput c m t
  | OpClearOutput => clearOutput c
  | OpRequestColumnUpdate _ _ => c
  | OpImportScriptVars vars => importScriptVars c vars
  | OpSetDebugMode b => setDebugMode c b
  end.

Definition apply_ops (c : ScriptContext) (ops : list ctx_op) : ScriptContext :=
  fold_left apply_op ops c.

(** The lower-cased variable names whose existing value an operation may
    replace ([importScriptVars] only adds absent names). *)
Definition op_overwrites (op : ctx_op) : list jstr :=
  match op with
  | OpSetVariable n _ => [to_lower n]
  | OpRecordCommandOutput _ (Some ((_ :: _) as name)) => [js "_output"; to_lower name]
  | OpRecordCommandOutput _ _ => [js "_output"]
  | _ => []
  end.

End ScriptContext.

(* ================================================================== *)
(** ** ExpressionEvaluator *)
(* ================================================================== *)

Module ExpressionEvaluator.
Import ScriptContext.

Definition jstr_eqb (a b : jstr) : bool := bool_decide (a = b).

Definition is_quote (c : N) : bool := (c =? 34) || (c =? 39).

(** The loop of [findLogicalOperator]: [s] is the expression from offset
    [i] on, [prev] the code unit at [i - 1], [limit] the loop bound
    [expression.length - op.length]. *)
Fixpoint find_go (op : jstr) (limit : nat) (s : jstr) (prev : option N) (i : nat)
    (inQuote : bool) (quoteChar : N) : option nat :=
  match s with
  | [] => None
  | c :: t =>
      if Nat.ltb i limit then
        let '(inQ, qc) :=
          if is_quote c && match prev with None => true | Some p => negb (p =? 92) end
          then (if negb inQuote then (true, c)
                else if c =? quoteChar then (false, quoteChar)
                else (inQuote, quoteChar))
          else (inQuote, quoteChar) in
        if negb inQ && starts_with (to_lower s) (to_lower op) then Some i
        else find_go op limit t (Some c) (S i) inQ qc
      else None
  end.

(** [findLogicalOperator(expression, op)]; [None] is [-1]. *)
Definition findLogicalOperator (expression op : jstr) : option nat :=
  find_go op (length expression - length op) expression None 0 false 0.

Definition findOperator := findLogicalOperator.

(** [index > 0] for a result of [findOperator]. *)
Definition found (r : option nat) : option nat :=
  match r with Some (S k) => Some (S k) | _ => None end.

Definition quoted (e : jstr) : bool :=
  (starts_with e [34] && ends_with e [34]) || (starts_with e [39] && ends_with e [39]).

Section Evaluator.

(** [new RegExp(pattern, 'i').test(subject)]; [None] when the constructor
    throws on a malformed pattern. *)
Variable regexTestI : jstr -> jstr -> option bool.
Variable context : ScriptContext.

Definition resolveValue (expr : jstr) : value :=
  let e := trim expr in
  if quoted e then VStr (substring e 1 (length e - 1))
  else if includes e (js "${") then VStr (substituteVariables context e)
  else if hasVariable context e then getVariable context e
  else let num := parseFloat e in
       if negb (isNaN num) then VNum num else VStr e.

Definition resolveStringValue (expr : jstr) : jstr := to_string_or_empty (resolveValue expr).

Definition resolveNumeric (expr : jstr) : jnum :=
  match resolveValue expr with
  | VNum n => n
  | v => let num := parseFloat (match v with VUndef | VNull => js "0" | _ => js_String v end) in
         if isNaN num then JFin 0 0 else num
  end.

Definition extractPattern (expr : jstr) : jstr :=
  let e := trim expr in
  if quoted e then substring e 1 (length e - 1)
  else if starts_with e (js "/") && ends_with e (js "/") then substring e 1 (length e - 1)
  else e.

Definition areEqual (left right : value) : bool :=
  match left, right with
  | VNull, VNull => true
  | VNull, _ | _, VNull => false
  | _, _ =>
      let leftStr := to_string_or_empty left in
      let rightStr := to_string_or_empty right in
      let leftNum := parseFloat leftStr in
      let rightNum := parseFloat rightStr in
      if negb (isNaN leftNum) && negb (isNaN rightNum) then jnum_close leftNum rightNum
      else jstr_eqb (to_lower leftStr) (to_lower rightStr)
  end.

Definition isTruthy (v : value) : bool :=
  match v with
  | VUndef | VNull => false
  | VBool b => b
  | VNum (JFin m _) => negb (m =? 0)%Z
  | VNum _ => true
  | VStr s => negb (Nat.eqb (length s) 0) && negb (jstr_eqb (to_lower s) (js "false"))
  | VArr l => Nat.ltb 0 (length l)
  end.

Definition evaluateComparison (expression : jstr) : bool :=
  let lowerExpr := to_lower expression in
  let len := length expression in
  if ends_with lowerExpr (js " is empty") then
    let v := resolveValue (trim (take (len - 9) expression)) in
    negb (truthy v) || Nat.eqb (length (js_String v)) 0
  else if ends_with lowerExpr (js " is not empty") then
    let v := resolveValue (trim (take (len - 13) expression)) in
    truthy v && negb (Nat.eqb (length (js_String v)) 0)
  else if ends_with lowerExpr (js " is defined") then
    hasVariable context (trim (take (len - 11) expression))
  else if ends_with lowerExpr (js " is not defined") then
    negb (hasVariable context (trim (take (len - 15) expression)))
  else match found (findOperator expression (js " matches ")) with
  | Some i =>
      let left := to_string_or_empty (resolveValue (take i expression)) in
      let pattern := extractPattern (trim (drop (i + 9) expression)) in
      match regexTestI pattern left with Some b => b | None => false end
  | None =>
  match found (findOperator expression (js " contains ")) with
  | Some i =>
      let left := to_string_or_empty (resolveValue (take i expression)) in
      let right := resolveStringValue (trim (drop (i + 10) expression)) in
      includes (to_lower left) (to_lower right)
  | None =>
  match found (findOperator expression (js " startswith ")) with
  | Some i =>
      let left := to_string_or_empty (resolveValue (take i expression)) in
      let right := resolveStringValue (trim (drop (i + 12) expression)) in
      starts_with (to_lower left) (to_lower right)
  | None =>
  match found (findOperator expression (js " endswith ")) with
  | Some i =>
      let left := to_string_or_empty (resolveValue (take i expression)) in
      let right := resolveStringValue (trim (drop (i + 10) expression)) in
      ends_with (to_lower left) (to_lower right)
  | None =>
  match found (findOperator expression (js " != ")) with
  | Some i => negb (areEqual (resolveValue (take i expression)) (resolveValue (drop (i + 4) expression)))
  | None =>
  match found (findOperator expression (js " == ")) with
  | Some i => areEqual (resolveValue (take i expression)) (resolveValue (drop (i + 4) expression))
  | None =>
  match found (findOperator expression (js " >= ")) with
  | Some i => jnum_le (resolveNumeric (drop (i + 4) expression)) (resolveNumeric (take i expression))
  | None =>
  match found (findOperator expression (js " <= ")) with
  | Some i => jnum_le (resolveNumeric (take i expression)) (resolveNumeric (drop (i + 4) expression))
  | None =>
  match found (findOperator expression (js " > ")) with
  | Some i => jnum_lt (resolveNumeric (drop (i + 3) expression)) (resolveNumeric (take i expression))
  | None =>
  match found (findOperator expression (js " < ")) with
  | Some i => jnum_lt (resolveNumeric (take i expression)) (resolveNumeric (drop (i + 3) expression))
  | None => isTruthy (resolveValue expression)
  end end end end end end end end end end.

(** One unfolding of [evaluate], the recursive calls going to [rec]. *)
Definition eval_step (rec : jstr -> bool) (expression : jstr) : bool :=
  let e := trim expression in
  match e with
  | [] => false
  | _ =>
    match found (findLogicalOperator e (js " and ")) with
    | Some k => rec (take k e) && rec (drop (k + 5) e)
    | None =>
    match found (findLogicalOperator e (js " or ")) with
    | Some k => rec (take k e) || rec (drop (k + 4) e)
    | None =>
      if starts_with (to_lower e) (js "not ") then negb (rec (drop 4 e))
      else if starts_with e (js "(") && ends_with e (js ")")
      then rec (substring e 1 (length e - 1))
      else evaluateComparison e
    end end
  end.

(** Every recursive call of [evaluate] is on a strictly shorter string, so
    [length expression + 1] unfoldings always suffice. *)
Fixpoint eval_fuel (n : nat) (expression : jstr) : bool :=
  match n with
  | O => false
  | S n' => eval_step (eval_fuel n') expression
  end.

Definition evaluate (expression : jstr) : bool :=
  eval_fuel (S (length expression)) expression.

End Evaluator.

End ExpressionEvaluator.

(* ================================================================== *)
(** ** Script steps and command results *)
(* ================================================================== *)

Module Script.
Import ScriptContext.

Inductive ControlFlow : Type := CFContinue | CFBreak | CFExit | CFNormal.

Definition cf_eqb (a b : ControlFlow) : bool :=
  match a, b with
  | CFContinue, CFContinue | CFBreak, CFBreak | CFExit, CFExit | CFNormal, CFNormal => true
  | _, _ => false
  end.

Record CommandResult : Type := mkResult {
  success : bool;
  controlFlow : ControlFlow;
  exitMessage : option jstr;
  error : option jstr
}.

Definition successResult : CommandResult := mkResult true CFNormal None None.
Definition errorResult (e : jstr) : CommandResult := mkResult false CFNormal None (Some e).

(** [ExtractOptions.into] *)
Inductive Into : Type := IntoOne (s : jstr) | IntoMany (l : list jstr).

(** [ExtractOptions.match]: ['first' | 'last' | 'all' | number] as parsed
    from the script document (a string or an integer). *)
Inductive MatchOption : Type := MStr (s : jstr) | MNum (z : Z).

Record ExtractOptions : Type := mkExtract {
  ex_from : jstr;
  ex_pattern : jstr;
  ex_into : Into;
  ex_match : option MatchOption
}.

(** The fields of [ScriptStep] read by the executor and the extract
    handler; the options of the other step kinds are read only by their
    handlers, which the executor treats as black boxes. *)
Record ScriptStep : Type := mkStep {
  step_type : jstr;
  step_onError : option jstr;
  step_extract : option ExtractOptions
}.

End Script.

(* ================================================================== *)
(** ** ExtractCommand *)
(* ================================================================== *)

Module ExtractCommand.
Import ScriptContext Script.

(** The result of [regex.exec(source)]: the index of the match, [match[0]]
    and the capture groups [match.slice(1)] ([None] for a group that did
    not participate, i.e. [undefined]). *)
Record ExecResult : Type := mkExec {
  ex_index : nat;
  ex_match0 : jstr;
  ex_groups : list (option jstr)
}.

(** The regular-expression engine: [new RegExp(pattern, 'gm')] either throws
    (its message) or yields a matcher that, given the subject and
    [lastIndex], returns the leftmost match starting at or after
    [lastIndex]. *)
Definition Matcher := jstr -> nat -> option ExecResult.
Definition Compiler := jstr -> jstr + Matcher.

(** [while ((match = regex.exec(source)) !== null) matches.push(...)]:
    [exec] sets [lastIndex] to the end of the match, and on failure (or when
    [lastIndex] is beyond the subject) returns [null].  [None] means that the
    loop has not ended after [fuel] iterations. *)
Fixpoint collect_matches (fuel : nat) (exec : Matcher) (source : jstr) (lastIndex : nat)
  : option (list (list (option jstr))) :=
  match fuel with
  | O => None
  | S f =>
      if Nat.ltb (length source) lastIndex then Some [] else
      match exec source lastIndex with
      | None => Some []
      | Some m =>
          let entry := match ex_groups m with [] => [Some (ex_match0 m)] | gs => gs end in
          match collect_matches f exec source (ex_index m + length (ex_match0 m)) with
          | None => None
          | Some rest => Some (entry :: rest)
          end
      end
  end.

(** [m[i] || ''] *)
Definition group_or_empty (g : option (option jstr)) : jstr :=
  match g with Some (Some s) => s | _ => [] end.

Definition intoList (into : Into) : list jstr :=
  match into with IntoOne s => [s] | IntoMany l => l end.

Definition setEmptyResults (into : Into) (c : ScriptContext) : ScriptContext :=
  fold_left (fun c varName => setVariable c varName (VStr [])) (intoList into) c.

(** [context.emitOutput(message, 'Debug')] *)
Definition debug (c : ScriptContext) (message : jstr) : ScriptContext := emitOutput c message Debug.

(** A non-negative integer in a template literal. *)
Definition num_str (n : nat) : jstr := num_to_string (JFin (Z.of_nat n) 0).

Definition quote (s : jstr) : jstr := [34] ++ s ++ [34].

(** [${g}] for a capture group; [undefined] when it did not participate. *)
Definition show_group (g : option jstr) : jstr :=
  match g with Some s => s | None => js "undefined" end.

(** [matches[i].map((g, idx) => `group${idx + 1}="${g}"`).join(', ')] *)
Definition groups_text (m : list (option jstr)) : jstr :=
  join (js ", ") (imap (fun idx g => js "group" ++ num_str (S idx) ++ [61] ++ quote (show_group g)) m).

(** The preview of the first three matches and the count of the others. *)
Definition preview_matches (c : ScriptContext) (matches : list (list (option jstr))) : ScriptContext :=
  let c := fold_left (fun c '(i, m) => debug c (js "  Match[" ++ num_str i ++ js "]: " ++ groups_text m))
                     (zip (seq 0 (Nat.min (length matches) 3)) matches) c in
  if Nat.ltb 3 (length matches)
  then debug c (js "  ... and " ++ num_str (length matches - 3) ++ js " more matches")
  else c.

(** [values.length <= 3 ? values.map(v => `"${v}"`).join(', ')
      : `"${values[0]}", "${values[1]}", ... +${values.length - 2}`] *)
Definition values_preview (values : list jstr) : jstr :=
  if Nat.leb (length values) 3 then join (js ", ") (map quote values)
  else quote (default [] (values !! 0%nat)) ++ js ", " ++ quote (default [] (values !! 1%nat))
       ++ js ", ... +" ++ num_str (length values - 2).

(** The loop setting each destination variable to the array of its group
    over the selected matches ([match: all]). *)
Definition set_all (c : ScriptContext) (intoVars : list jstr) (selectedMatches : list (list (option jstr)))
  : ScriptContext :=
  fold_left (fun c '(i, varName) =>
               let values := map (fun m => group_or_empty (m !! i)) selectedMatches in
               let c := setVariable c varName (VArr (map VStr values)) in
               debug c (js "  Result: " ++ varName ++ js " = [" ++ values_preview values ++ js "]"))
            (zip (seq 0 (length intoVars)) intoVars) c.

(** The loop setting each destination variable to its group of the one
    selected match. *)
Definition set_single (c : ScriptContext) (intoVars : list jstr) (matchGroups : list (option jstr))
  : ScriptContext :=
  fold_left (fun c '(i, varName) =>
               let value := group_or_empty (matchGroups !! i) in
               let c := setVariable c varName (VStr value) in
               debug c (js "  Result: " ++ varName ++ js " = " ++ quote value))
            (zip (seq 0 (length intoVars)) intoVars) c.

Definition match_is (o : MatchOption) (s : string) : bool :=
  match o with MStr t => ExpressionEvaluator.jstr_eqb t (js s) | MNum _ => false end.

(** [String(matchOption)] *)
Definition match_String (o : MatchOption) : jstr :=
  match o with MStr t => t | MNum z => num_to_string (JFin z 0) end.

(** [ExtractCommand.execute].  [None] when the match loop does not end
    within [fuel] iterations. *)
Definition execute (fuel : nat) (compile : Compiler) (step : ScriptStep) (c : ScriptContext)
  : option (CommandResult * ScriptContext) :=
  match step_extract step with
  | None => Some (errorResult (js "Extract options not specified"), c)
  | Some ex =>
    if Nat.eqb (length (ex_from ex)) 0 then Some (errorResult (js "Extract requires " ++ dq "from" ++ js " variable"), c)
    else if Nat.eqb (length (ex_pattern ex)) 0 then Some (errorResult (js "Extract requires " ++ dq "pattern"), c)
    else if match ex_into ex with IntoOne [] => true | _ => false end
    then Some (errorResult (js "Extract requires " ++ dq "into" ++ js " variable"), c)
    else
    let intoVars := intoList (ex_into ex) in
    let c := debug c (js "[EXTRACT] from: " ++ ex_from ex ++ js ", pattern: /" ++ ex_pattern ex ++ js "/") in
    let c := debug c (js "  Into variables: [" ++ join (js ", ") intoVars ++ js "]") in
    let source := getVariableString c (ex_from ex) in
    if Nat.eqb (length source) 0 then
      let c := debug c (js "  Source is empty, setting empty results") in
      Some (successResult, setEmptyResults (ex_into ex) c)
    else
    let sourcePreview := if Nat.ltb 80 (length source) then take 77 source ++ js "..." else source in
    let c := debug c (js "  Source (" ++ num_str (length source) ++ js " chars): " ++ quote sourcePreview) in
    match compile (ex_pattern ex) with
    | inl msg => Some (errorResult (js "Invalid regex pattern: " ++ msg), c)
    | inr exec =>
      match collect_matches fuel exec source 0 with
      | None => None
      | Some matches =>
        let c := debug c (js "  Found " ++ num_str (length matches) ++ js " match(es)") in
        match matches with
        | [] =>
          let c := debug c (js "  No matches, setting empty results") in
          Some (successResult, setEmptyResults (ex_into ex) c)
        | m0 :: _ =>
          let c := preview_matches c matches in
          let matchOption :=
            match ex_match ex with
            | None | Some (MStr []) | Some (MNum 0%Z) => MStr (js "first")
            | Some o => o
            end in
          let invalid := js "  Using: first match (invalid index " ++ match_String matchOption ++ js ")" in
          let '(selectedMatches, message) :=
            if match_is matchOption "first" then ([m0], js "  Using: first match")
            else if match_is matchOption "last" then ([default m0 (last matches)], js "  Using: last match")
            else if match_is matchOption "all"
            then (matches, js "  Using: all " ++ num_str (length matches) ++ js " matches")
            else match parseInt (match_String matchOption) with
                 | Some index =>
                     if (0 <=? index)%Z && (index <? Z.of_nat (length matches))%Z
                     then ([default m0 (matches !! Z.to_nat index)],
                           js "  Using: match at index " ++ num_to_string (JFin index 0))
                     else ([m0], invalid)
                 | None => ([m0], invalid)
                 end in
          let c := debug c message in
          let c' :=
            if match_is matchOption "all" then set_all c intoVars selectedMatches
            else set_single c intoVars (default [] (head selectedMatches)) in
          Some (successResult, c')
        end
      end
    end
  end.

End ExtractCommand.

(* ================================================================== *)
(** ** ScriptExecutor *)
(* ================================================================== *)

Module ScriptExecutor.
Import ScriptContext Script.

(** The executor's state: its [cancelled] flag (set by [cancel()] from
    outside while a step runs) and the run's context. *)
Record ExecState : Type := mkState {
  cancelled : bool;
  context : ScriptContext
}.

Inductive Outcome : Type :=
| Returned (r : CommandResult)
| Threw (message : jstr).

(** A command handler: its [execute] either resolves to a result, rejects
    with an error, or never settles ([None]). *)
Definition Handler := ScriptStep -> ExecState -> option (Outcome * ExecState).

(** The [commands] map from step type to handler. *)
Definition Commands := jstr -> option Handler.

Definition emit (st : ExecState) (m : jstr) (t : OutputType) : ExecState :=
  mkState (cancelled st) (emitOutput (context st) m t).

Definition executeStep (commands : Commands) (step : ScriptStep) (st : ExecState)
  : option (CommandResult * ExecState) :=
  match commands (step_type step) with
  | None => Some (successResult, emit st (js "Unknown command type: " ++ step_type step) Warning)
  | Some command =>
      match command step st with
      | None => None
      | Some (Returned r, st') => Some (r, st')
      | Some (Threw message, st') =>
          let st'' := emit st' (js "Error executing " ++ step_type step ++ js ": " ++ message) Error in
          match step_onError step with
          | Some oe =>
              if ExpressionEvaluator.jstr_eqb oe (js "continue") then Some (successResult, st'')
              else Some (mkResult false CFNormal None (Some message), st'')
          | None => Some (mkResult false CFNormal None (Some message), st'')
          end
      end
  end.

Fixpoint executeSteps (commands : Commands) (steps : list ScriptStep) (st : ExecState)
  : option (CommandResult * ExecState) :=
  match steps with
  | [] => Some (successResult, st)
  | step :: rest =>
      if cancelled st then Some (mkResult false CFExit (Some (js "Script cancelled")) None, st)
      else match executeStep commands step st with
           | None => None
           | Some (result, st') =>
               if negb (cf_eqb (controlFlow result) CFNormal) then Some (result, st')
               else if negb (success result) then Some (result, st')
               else executeSteps commands rest st'
           end
  end.

(** The extract handler of the [commands] map, run with [fuel] iterations
    of its match loop. *)
Definition extract_handler (fuel : nat) (compile : ExtractCommand.Compiler) : Handler :=
  fun step st =>
    match ExtractCommand.execute fuel compile step (context st) with
    | None => None
    | Some (r, c) => Some (Returned r, mkState (cancelled st) c)
    end.

End ScriptExecutor.

(* ================================================================== *)
(** ** ScriptParser *)
(* ================================================================== *)

Module ScriptParser.

(** [text.split(/\r?\n/)]: the text is cut at every line feed, and a
    carriage return directly before a line feed belongs to the separator.
    [cur] is the current piece, reversed. *)
Fixpoint split_lines_go (s cur : jstr) : list jstr :=
  match s with
  | [] => [rev cur]
  | c :: t =>
      if c =? LF then rev (match cur with 13 :: r => r | _ => cur end) :: split_lines_go t []
      else split_lines_go t (c :: cur)
  end.

Definition split_lines (text : jstr) : list jstr := split_lines_go text [].

(** [parseSimpleCommands(text)]: its [steps], each step [{type, value}]
    given as the pair [(type, value)]. *)
Definition parseSimpleCommands (text : jstr) : list (jstr * jstr) :=
  let lines := List.filter (fun l => negb (Nat.eqb (length l) 0) && negb (starts_with l [35]))
                      (map trim (split_lines text)) in
  map (fun line => (js "send", line)) lines.

(** The prefixes that [isYamlScript] takes for a script keyword or a step. *)
Definition yaml_keywords : list jstr :=
  [js "name:"; js "description:"; js "vars:"; js "steps:"; js "version:"].

Definition yaml_steps : list jstr :=
  [js "- send:"; js "- print:"; js "- wait:"; js "- set:"; js "- exit:"; js "- extract:";
   js "- if:"; js "- foreach:"; js "- while:"; js "- updatecolumn:"; js "- readfile:";
   js "- writefile:"; js "- input:"].

(** The loop of [isYamlScript] over [lines.slice(0, 10)]. *)
Fixpoint yaml_scan (lines : list jstr) : bool :=
  match lines with
  | [] => false
  | line :: rest =>
      let trimmedLine := trim_start line in
      if starts_with trimmedLine [35] then yaml_scan rest
      else if existsb (starts_with trimmedLine) yaml_keywords then true
      else if existsb (starts_with trimmedLine) yaml_steps then true
      else yaml_scan rest
  end.

(** [ScriptParser.isYamlScript(text)] *)
Definition isYamlScript (text : jstr) : bool :=
  match text, trim text with
  | [], _ | _, [] => false
  | _, _ =>
      let trimmed := trim_start text in
      if starts_with trimmed (js "---") then true
      else
        let lines := List.filter (fun l => negb (Nat.eqb (length (trim l)) 0)) (split_lines text) in
        yaml_scan (take 10 lines)
  end.

End ScriptParser.

(* ################################################################## *)
(** * Properties *)
(* ################################################################## *)

Definition raw_buffer : jstr :=
  js "somecommand" ++ [CR; LF] ++ js "output line" ++ [CR; LF] ++ js "host#".

(** The evaluator run without a regular-expression engine ([matches] is not
    used by the expressions below). *)
Definition no_regex : jstr -> jstr -> option bool := fun _ _ => None.
Definition ctx0 : ScriptContext.ScriptContext := ScriptContext.mkContext ∅ [] [] false.
Definition ctx_x : ScriptContext.ScriptContext := ScriptContext.setVariable ctx0 (js "X") (VStr (js "a AND b")).

(** The JavaScript engine's [exec] for a pattern without capture groups,
    given as a [re]: the leftmost match at or after [lastIndex], [null] when
    [lastIndex] is past the end. *)
Definition exec_of_re (r : re) : ExtractCommand.Matcher :=
  fun src lastIndex =>
    if Nat.ltb (length src) lastIndex then None else
    match re_find r (drop lastIndex src) lastIndex with
    | None => None
    | Some (k, l) => Some (ExtractCommand.mkExec k (take l (drop k src)) [])
    end.

(** [new RegExp(p, 'gm')] for the one pattern used below, [x*]. *)
Definition compile_x_star : ExtractCommand.Compiler :=
  fun p => if ExpressionEvaluator.jstr_eqb p (js "x*") then inr (exec_of_re (RStar (c_char 120)))
           else inl (js "unsupported pattern").

(** A [commands] map holding the extract handler only. *)
Definition cmds_extract : ScriptExecutor.Commands :=
  fun t => if ExpressionEvaluator.jstr_eqb t (js "extract")
           then Some (ScriptExecutor.extract_handler 1000 compile_x_star) else None.

Definition extract_step (onError : option jstr) (from pattern into : jstr) : Script.ScriptStep :=
  Script.mkStep (js "extract") onError (Some (Script.mkExtract from pattern (Script.IntoOne into) None)).

Definition ctx_src : ScriptContext.ScriptContext :=
  ScriptContext.setVariable ctx0 (js "src") (VStr (js "abc")).

Definition compile_x : ExtractCommand.Compiler := fun _ => inr (exec_of_re (c_char 120)).

Definition ctx_axbx : ScriptContext.ScriptContext :=
  ScriptContext.setVariable ctx0 (js "src") (VStr (js "axbx")).

Definition compile_none : ExtractCommand.Compiler := fun _ => inr (fun _ _ => None).

(** No quote character directly after a backslash, [prev] being the code
    unit before [s]: every quote of [s] is a delimiter. *)
Fixpoint esc_ok (prev : option N) (s : jstr) : bool :=
  match s with
  | [] => true
  | c :: t =>
      negb (ExpressionEvaluator.is_quote c && match prev with Some p => (p =? 92) | None => false end)
      && esc_ok (Some c) t
  end.

(** Text made of unquoted code units and complete quoted literals (a quote,
    code units other than that quote, the same quote again). *)
Inductive outside_quotes : jstr -> Prop :=
| oq_nil : outside_quotes []
| oq_char c s :
    ExpressionEvaluator.is_quote c = false -> outside_quotes s -> outside_quotes (c :: s)
| oq_lit q m s :
    ExpressionEvaluator.is_quote q = true -> ~ In q m -> outside_quotes s ->
    outside_quotes (q :: m ++ q :: s).

(** A run of steps that each end normally and successfully, taking the
    executor from one state to the next without being cancelled. *)
Inductive steps_ok (commands : ScriptExecutor.Commands)
  : list Script.ScriptStep -> ScriptExecutor.ExecState -> ScriptExecutor.ExecState -> Prop :=
| steps_ok_nil st : steps_ok commands [] st st
| steps_ok_cons step rest st r st' st'' :
    ScriptExecutor.cancelled st = false ->
    ScriptExecutor.executeStep commands step st = Some (r, st') ->
    Script.controlFlow r = Script.CFNormal ->
    Script.success r = true ->
    steps_ok commands rest st' st'' ->
    steps_ok commands (step :: rest) st st''.

Example normalize_raw :
  TerminalOutputProcessor.normalize raw_buffer = js "somecommand" ++ [LF] ++ js "output line" ++ [LF] ++ js "host#".
Proof. vm_compute. reflexivity. Qed.

Example t1 : re_test (PromptDetector.buildPromptRegex (js "router#")) (js "router#") = true.
Proof. vm_compute. reflexivity. Qed.
Example t2 : re_test (PromptDetector.buildPromptRegex (js "router#")) (js "router(config)#") = true.
Proof. vm_compute. reflexivity. Qed.
Example t3 : re_test (PromptDetector.buildPromptRegex (js "router#")) (js "router2#") = false.
Proof. vm_compute. reflexivity. Qed.
Example t4 : SshConnectionPool.createResult_output raw_buffer (Some (PromptDetector.buildPromptRegex (js "host#"))) = js "output line".
Proof. vm_compute. reflexivity. Qed.
Example t5 : TerminalOutputProcessor.normalize (js "a" ++ [LF; LF]) = js "a" ++ [LF].
Proof. vm_compute. reflexivity. Qed.
Example t6 : fst (TerminalOutputProcessor.stripPagerArtifacts (js "x --More-- y")) = js "x y".
Proof. vm_compute. reflexivity. Qed.
Example t7 : fst (TerminalOutputProcessor.stripPagerArtifacts (js "a --More-- (42%)  b")) = js "a (42%)  b".
Proof. vm_compute. reflexivity. Qed.


Example e1 : ExpressionEvaluator.evaluate no_regex ctx0 (js "true or false and false") = false.
Proof. vm_compute. reflexivity. Qed.
Example e2 : ExpressionEvaluator.evaluate no_regex ctx_x (js "x == " ++ [34] ++ js "a and b" ++ [34]) = true.
Proof. vm_compute. reflexivity. Qed.
Example e3 : ExpressionEvaluator.evaluate no_regex ctx0 (js "1.50 == 1.5 and 10 > 9 and abc contains B") = true.
Proof. vm_compute. reflexivity. Qed.
Example e4 : ExpressionEvaluator.evaluate no_regex ctx0 (js "not (2 <= 1)") = true.
Proof. vm_compute. reflexivity. Qed.
Example e5 : num_to_string (parseFloat (js " -12.50e3x")) = js "-12500".
Proof. vm_compute. reflexivity. Qed.
Example e6 : num_to_string (parseFloat (js "0.000001")) = js "0.000001".
Proof. vm_compute. reflexivity. Qed.
Example e7 : num_to_string (parseFloat (js "1e21")) = js "1e+21".
Proof. vm_compute. reflexivity. Qed.
Example e8 : num_to_string (parseFloat (js "123.45e-10")) = js "1.2345e-8".
Proof. vm_compute. reflexivity. Qed.
Example e9 : ScriptContext.substituteVariables (ScriptContext.setVariable ctx0 (js "arr") (VArr [VStr (js "p"); VStr (js "q")])) (js "<${arr[1]}|${ARR}|${}|${nope}>") = js "<q|p,q|${}|>".
Proof. vm_compute. reflexivity. Qed.

(* ================================================================== *)
(** ** Session engine *)
(* ================================================================== *)

Section SessionEngine.
Import TerminalOutputProcessor PromptDetector.

(** The printable code units are appended one after the other at the end
    of the current line. *)
Lemma norm_go_printable (s : jstr) :
  Forall (fun c => SPACE <= c) s ->
  forall res cur, norm_go s false res cur (length cur) = (res, cur ++ s).
Proof.
  induction s as [|c t IH]; intros Hs res cur; simpl.
  - by rewrite app_nil_r.
  - inversion Hs as [|? ? Hc Ht]; subst.
    unfold SPACE, CR, LF, TAB, BACKSPACE, BELL, ESC in *.
    destruct (c =? 13) eqn:E1; [apply N.eqb_eq in E1; lia|].
    destruct (c =? 10) eqn:E2; [apply N.eqb_eq in E2; lia|].
    destruct (c =? 9) eqn:E3; [apply N.eqb_eq in E3; lia|].
    destruct (c =? 8) eqn:E4; [apply N.eqb_eq in E4; lia|].
    destruct (c =? 7) eqn:E5; [apply N.eqb_eq in E5; lia|].
    destruct (c =? 27) eqn:E6; [apply N.eqb_eq in E6; lia|].
    destruct (32 <=? c) eqn:E7; [|apply N.leb_gt in E7; lia].
    unfold write_at. rewrite Nat.ltb_irrefl.
    replace (S (length cur)) with (length (cur ++ [c])) by (rewrite length_app; simpl; lia).
    rewrite IH by exact Ht. by rewrite <- app_assoc.
Qed.

End SessionEngine.

(** Claim C1: for the raw buffer ["somecommand\r\noutput line\r\nhost#"]
    and the prompt regex built from ["host#"], the clean result of both
    [createResult] implementations (normalize, drop the echoed command line,
    drop a trailing prompt line, strip pager artifacts) is exactly
    ["output line"]. *)
Theorem createResult_frames_output :
  SshConnectionPool.createResult_output raw_buffer
    (Some (PromptDetector.buildPromptRegex (js "host#"))) = js "output line"
  /\ SshExecutionService.createResult_output raw_buffer
       (Some (PromptDetector.buildPromptRegex (js "host#"))) = js "output line".
Proof. split; vm_compute; reflexivity. Qed.

(** Claim C5 as stated (with the conditions read on the trimmed line) fails:
    ["host# "] is not accepted by [isLikelyPrompt], although its trimmed
    form ["host#"] meets every condition. *)
Lemma isLikelyPrompt_untrimmed_counterexample :
  ~ (forall line, PromptDetector.isLikelyPrompt line = true <-> PromptDetector.likely_prompt_spec (trim line)).
Proof.
  intros H. specialize (H (js "host# ")).
  assert (Hs : PromptDetector.likely_prompt_spec (trim (js "host# "))).
  { vm_compute. split; [lia|]. split; [eexists; split; reflexivity|]. split; reflexivity. }
  apply H in Hs. vm_compute in Hs. discriminate.
Qed.

(** Claim C5 (amended): [isLikelyPrompt] does not trim; it returns true
    exactly when the line it is given is 1 to 50 code units long, ends in
    [#], [>], [$] or [%], and contains no tab and no two consecutive
    spaces.  (Its callers pass trimmed lines.) *)
Theorem isLikelyPrompt_iff (line : jstr) :
  PromptDetector.isLikelyPrompt line = true <-> PromptDetector.likely_prompt_spec line.
Proof.
  unfold PromptDetector.isLikelyPrompt, PromptDetector.likely_prompt_spec.
  destruct (Nat.eqb_spec (length line) 0) as [H0|H0]; simpl.
  { split; [discriminate|]. intros [? _]. lia. }
  destruct (Nat.ltb_spec 100 (length line)) as [H1|H1]; simpl.
  { split; [discriminate|]. intros [? _]. lia. }
  destruct (last line) as [c|] eqn:Hl.
  2:{ split; [discriminate|]. intros [_ [[c [Hc _]] _]]. discriminate. }
  destruct (PromptDetector.is_terminator c) eqn:Ht; simpl.
  2:{ split; [discriminate|]. intros [_ [[c' [Hc' Ht']] _]]. injection Hc' as ->. congruence. }
  destruct (includes line [TAB]) eqn:Htab; simpl.
  { split; [discriminate|]. intros [_ [_ [? _]]]. discriminate. }
  destruct (includes line [SPACE; SPACE]) eqn:Hsp; simpl.
  { split; [discriminate|]. intros [_ [_ [_ ?]]]. discriminate. }
  destruct (Nat.ltb_spec 50 (length line)) as [H2|H2]; simpl.
  - split; [discriminate|]. intros [? _]. lia.
  - split; [intros _|done]. split; [lia|]. split; [|done]. by exists c.
Qed.

(** Claim C6: the regex built from ["router#"] matches ["router#"] and
    ["router(config)#"] and does not match ["router2#"]. *)
Theorem buildPromptRegex_router :
  re_test (PromptDetector.buildPromptRegex (js "router#")) (js "router#") = true
  /\ re_test (PromptDetector.buildPromptRegex (js "router#")) (js "router(config)#") = true
  /\ re_test (PromptDetector.buildPromptRegex (js "router#")) (js "router2#") = false.
Proof. split; [|split]; vm_compute; reflexivity. Qed.

(** Claim C8 as stated fails in its second form: normalization is not
    idempotent, since ["a\n\n"] normalizes to ["a\n"] and ["a\n"] to
    ["a"]. *)
Lemma normalize_not_idempotent :
  TerminalOutputProcessor.normalize (TerminalOutputProcessor.normalize (js "a" ++ [LF; LF]))
  <> TerminalOutputProcessor.normalize (js "a" ++ [LF; LF]).
Proof. vm_compute. discriminate. Qed.

(** Claim C8 (amended): a string with no control characters (every code
    unit at least [' ']) is returned unchanged by [normalize]. *)
Theorem normalize_printable_unchanged (s : jstr) :
  Forall (fun c => SPACE <= c) s -> TerminalOutputProcessor.normalize s = s.
Proof.
  intros Hs. unfold TerminalOutputProcessor.normalize.
  destruct s as [|c t]; [reflexivity|].
  pose proof (norm_go_printable (c :: t) Hs [] []) as E. simpl length in E.
  rewrite E. reflexivity.
Qed.

(** A use of [normalize_printable_unchanged] on a prompt line. *)
Lemma normalize_printable_unchanged_witness :
  TerminalOutputProcessor.normalize (js "router(config)# show ip") = js "router(config)# show ip".
Proof.
  apply normalize_printable_unchanged.
  vm_compute. repeat (constructor; [discriminate|]). constructor.
Defined.

(* ================================================================== *)
(** ** Script context *)
(* ================================================================== *)

Section Context.
Import ScriptContext.

Lemma importScriptVars_lookup (vars : list (jstr * value)) :
  forall (c : ScriptContext) (key : jstr),
    (forall x, variables c !! key = Some x -> variables (importScriptVars c vars) !! key = Some x)
    /\ (variables (importScriptVars c vars) !! key <> variables c !! key ->
        variables c !! key = None /\ exists k v, In (k, v) vars /\ to_lower k = key).
Proof.
  unfold importScriptVars.
  induction vars as [|[k v] vars IH]; intros c key; cbn [fold_left].
  - split; [done|]. intros H. congruence.
  - destruct (variables c !! to_lower k) as [y|] eqn:Hk.
    + destruct (IH c key) as [IH1 IH2]. split; [exact IH1|].
      intros Hne. destruct (IH2 Hne) as [Hn [k' [v' [Hin Hk']]]].
      split; [exact Hn|]. exists k', v'. split; [right; exact Hin|exact Hk'].
    + set (c1 := with_variables c (<[to_lower k := v]> (variables c))).
      destruct (IH c1 key) as [IH1 IH2]. split.
      * intros x Hx. apply IH1. unfold c1, with_variables; simpl.
        rewrite lookup_insert_ne; [exact Hx|]. intros Heq. subst key. congruence.
      * intros Hne.
        destruct (decide (to_lower k = key)) as [<-|Hkk].
        { split; [exact Hk|]. exists k, v. split; [left; reflexivity|reflexivity]. }
        assert (E1 : variables c1 !! key = variables c !! key).
        { unfold c1, with_variables; simpl. by rewrite lookup_insert_ne. }
        rewrite <- E1 in Hne |- *. destruct (IH2 Hne) as [Hn [k' [v' [Hin Hk']]]].
        split; [exact Hn|]. exists k', v'. split; [right; exact Hin|exact Hk'].
Qed.

(** No context operation removes a variable, and only the operations that
    overwrite a name can change its value. *)
Lemma apply_op_keeps (op : ctx_op) (c : ScriptContext) (key : jstr) (x : value) :
  variables c !! key = Some x ->
  (exists y, variables (apply_op c op) !! key = Some y)
  /\ (~ In key (op_overwrites op) -> variables (apply_op c op) !! key = Some x).
Proof.
  intros Hx. destruct op as [n v|o cap|m t| |col w|vars|b]; simpl.
  - unfold setVariable, with_variables; simpl.
    destruct (decide (to_lower n = key)) as [<-|Hne].
    + split; [by eexists; rewrite lookup_insert_eq|]. intros H; exfalso; apply H; left; done.
    + rewrite lookup_insert_ne by done. split; [by eexists|done].
  - unfold recordCommandOutput.
    assert (Hrec : forall k0 v0, (exists y, (<[k0 := v0]> (variables c)) !! key = Some y)
                   /\ (k0 <> key -> (<[k0 := v0]> (variables c)) !! key = Some x)).
    { intros k0 v0. destruct (decide (k0 = key)) as [<-|Hne].
      - split; [by eexists; rewrite lookup_insert_eq|done].
      - rewrite lookup_insert_ne by done. split; [by eexists|done]. }
    destruct cap as [[|ch name]|]; cbv beta iota zeta.
    + destruct (Hrec (js "_output") (VStr o)) as [H1 H2]. split; [exact H1|].
      intros Hn. apply H2. intros Heq. subst key. apply Hn. left; done.
    + unfold setVariable, with_variables; cbn [variables].
      destruct (decide (to_lower (ch :: name) = key)) as [<-|Hne].
      * split; [by eexists; rewrite lookup_insert_eq|]. intros H; exfalso; apply H; right; left; done.
      * rewrite lookup_insert_ne by done.
        destruct (Hrec (js "_output") (VStr o)) as [H1 H2]. split; [exact H1|].
        intros Hn. apply H2. intros Heq. subst key. apply Hn. left; done.
    + destruct (Hrec (js "_output") (VStr o)) as [H1 H2]. split; [exact H1|].
      intros Hn. apply H2. intros Heq. subst key. apply Hn. left; done.
  - unfold emitOutput. destruct t; try destruct (debugMode c); simpl; split; eauto.
  - split; eauto.
  - split; eauto.
  - destruct (importScriptVars_lookup vars c key) as [H1 _].
    split; [eexists; apply H1; exact Hx|]. intros _. apply H1. exact Hx.
  - split; eauto.
Qed.

Lemma apply_ops_keeps (ops : list ctx_op) :
  forall (c : ScriptContext) (key : jstr) (x : value),
    variables c !! key = Some x ->
    (exists y, variables (apply_ops c ops) !! key = Some y)
    /\ (Forall (fun op => ~ In key (op_overwrites op)) ops ->
        variables (apply_ops c ops) !! key = Some x).
Proof.
  induction ops as [|op ops IH]; intros c key x Hx; simpl.
  - split; [by eexists|done].
  - destruct (apply_op_keeps op c key x Hx) as [[y Hy] H2].
    destruct (IH (apply_op c op) key y Hy) as [H3 _]. split; [exact H3|].
    intros Hall. inversion Hall as [|? ? Hop Hops]; subst.
    exact (proj2 (IH (apply_op c op) key x (H2 Hop)) Hops).
Qed.

End Context.

(** Claim C9: variable names are case-insensitive and live in one flat
    namespace.  After [setVariable(n, v)], [getVariable(n')] is [v] and
    [hasVariable(n')] is true for every [n'] equal to [n] up to case; after
    any further sequence of context operations (everything the steps of the
    run and their nested blocks do to the shared context) [n'] is still
    defined, and still holds [v] unless one of those operations set that
    same name again. *)
Theorem variables_flat_case_insensitive
    (c : ScriptContext.ScriptContext) (n n' : jstr) (v : value) (ops : list ScriptContext.ctx_op) :
  to_lower n = to_lower n' ->
  ScriptContext.getVariable (ScriptContext.setVariable c n v) n' = v
  /\ ScriptContext.hasVariable (ScriptContext.setVariable c n v) n' = true
  /\ ScriptContext.hasVariable (ScriptContext.apply_ops (ScriptContext.setVariable c n v) ops) n' = true
  /\ (Forall (fun op => ~ In (to_lower n) (ScriptContext.op_overwrites op)) ops ->
      ScriptContext.getVariable (ScriptContext.apply_ops (ScriptContext.setVariable c n v) ops) n' = v).
Proof.
  intros Hn.
  assert (Hset : ScriptContext.variables (ScriptContext.setVariable c n v) !! to_lower n' = Some v).
  { unfold ScriptContext.setVariable, ScriptContext.with_variables; simpl.
    rewrite Hn. apply lookup_insert_eq. }
  destruct (apply_ops_keeps ops _ _ _ Hset) as [[y Hy] Hkeep].
  unfold ScriptContext.getVariable, ScriptContext.hasVariable.
  rewrite Hset, Hy. split; [done|]. split; [done|]. split; [done|].
  intros Hall. rewrite Hn in Hall. rewrite (Hkeep Hall) in Hy. congruence.
Qed.

(** Claim C10: [importScriptVars] never overwrites a variable already in the
    context (compared by lower-cased name), and the only entries it changes
    are names that were absent and that come from the script's [vars]. *)
Theorem importScriptVars_never_overwrites
    (c : ScriptContext.ScriptContext) (vars : list (jstr * value)) :
  (forall name, ScriptContext.hasVariable c name = true ->
     ScriptContext.getVariable (ScriptContext.importScriptVars c vars) name
     = ScriptContext.getVariable c name)
  /\ (forall key, ScriptContext.variables (ScriptContext.importScriptVars c vars) !! key
                  <> ScriptContext.variables c !! key ->
        ScriptContext.variables c !! key = None
        /\ exists k v, In (k, v) vars /\ to_lower k = key).
Proof.
  split.
  - intros name Hh. unfold ScriptContext.hasVariable, ScriptContext.getVariable in *.
    destruct (ScriptContext.variables c !! to_lower name) as [x|] eqn:Hx; [|discriminate].
    by rewrite (proj1 (importScriptVars_lookup vars c (to_lower name)) x Hx).
  - intros key. exact (proj2 (importScriptVars_lookup vars c key)).
Qed.

(** A use of [variables_flat_case_insensitive]. *)
Lemma variables_flat_case_insensitive_witness :
  to_lower (js "Host") = to_lower (js "HOST")
  /\ ScriptContext.getVariable
       (ScriptContext.apply_ops (ScriptContext.setVariable ctx0 (js "Host") (VStr (js "r1")))
          [ScriptContext.OpRecordCommandOutput (js "out") (Some (js "cap"));
           ScriptContext.OpImportScriptVars [(js "HOST", VStr (js "r2"))]]) (js "HOST")
     = VStr (js "r1").
Proof.
  split; [reflexivity|].
  refine (proj2 (proj2 (proj2 (variables_flat_case_insensitive ctx0 (js "Host") (js "HOST") (VStr (js "r1"))
    [ScriptContext.OpRecordCommandOutput (js "out") (Some (js "cap"));
     ScriptContext.OpImportScriptVars [(js "HOST", VStr (js "r2"))]] _))) _).
  - reflexivity.
  - constructor; [|constructor; [|constructor]]; vm_compute; intros H; intuition discriminate.
Defined.

(** A use of [importScriptVars_never_overwrites]: a CSV-loaded [host] is kept
    when the script declares a default for [HOST]. *)
Lemma importScriptVars_never_overwrites_witness :
  ScriptContext.hasVariable (ScriptContext.setVariable ctx0 (js "host") (VStr (js "r1"))) (js "HOST") = true
  /\ ScriptContext.getVariable
       (ScriptContext.importScriptVars (ScriptContext.setVariable ctx0 (js "host") (VStr (js "r1")))
          [(js "HOST", VStr (js "r2")); (js "port", VStr (js "22"))]) (js "HOST")
     = VStr (js "r1").
Proof.
  split; [reflexivity|].
  exact (proj1 (importScriptVars_never_overwrites
                  (ScriptContext.setVariable ctx0 (js "host") (VStr (js "r1")))
                  [(js "HOST", VStr (js "r2")); (js "port", VStr (js "22"))])
               (js "HOST") eq_refl).
Defined.

(* ================================================================== *)
(** ** Step execution *)
(* ================================================================== *)

Lemma executeSteps_app_ok (commands : ScriptExecutor.Commands) (pre rest : list Script.ScriptStep)
    (st st1 : ScriptExecutor.ExecState) :
  steps_ok commands pre st st1 ->
  ScriptExecutor.executeSteps commands (pre ++ rest) st = ScriptExecutor.executeSteps commands rest st1.
Proof.
  induction 1 as [st|step pre' st r st' st'' Hc Hstep Hcf Hsucc Hok IH]; [reflexivity|].
  simpl. rewrite Hc, Hstep, Hcf, Hsucc. exact IH.
Qed.

(** Claim C3 (as the code has it): the steps of a list run in order; the
    first step whose [CommandResult] is not [normal] or not successful ends
    the list and its result is returned unchanged, whatever the step's
    [on_error] says.  [on_error: continue] is read by [executeStep] only when
    the handler throws: the step then counts as a success and the remaining
    steps run. *)
Theorem executeSteps_halts_on_first_signal
    (commands : ScriptExecutor.Commands) (pre rest : list Script.ScriptStep) (step : Script.ScriptStep)
    (st st1 : ScriptExecutor.ExecState) :
  steps_ok commands pre st st1 ->
  ScriptExecutor.cancelled st1 = false ->
  (forall r st2,
     ScriptExecutor.executeStep commands step st1 = Some (r, st2) ->
     Script.controlFlow r <> Script.CFNormal \/ Script.success r = false ->
     ScriptExecutor.executeSteps commands (pre ++ step :: rest) st = Some (r, st2))
  /\ (forall h message st2,
     commands (Script.step_type step) = Some h ->
     h step st1 = Some (ScriptExecutor.Threw message, st2) ->
     Script.step_onError step = Some (js "continue") ->
     ScriptExecutor.executeSteps commands (pre ++ step :: rest) st
     = ScriptExecutor.executeSteps commands rest
         (ScriptExecutor.emit st2 (js "Error executing " ++ Script.step_type step ++ js ": " ++ message)
            ScriptContext.Error)).
Proof.
  intros Hok Hc. rewrite (executeSteps_app_ok commands pre (step :: rest) st st1 Hok).
  split.
  - intros r st2 Hstep Hsig. simpl. rewrite Hc, Hstep.
    destruct (Script.controlFlow r) eqn:Ecf; simpl; try reflexivity.
    destruct Hsig as [Hsig|Hsig]; [congruence|]. by rewrite Hsig.
  - intros h message st2 Hh Hthrow Hoe. simpl. rewrite Hc.
    unfold ScriptExecutor.executeStep. rewrite Hh, Hthrow, Hoe. reflexivity.
Qed.

(** Claim C3, counterexample: a failing step that declares
    [on_error: continue] still halts the list when its failure is returned
    rather than thrown.  The first extract step has no pattern and returns
    an error result; the second step, which would set [y], never runs. *)
Lemma executeSteps_continue_not_honoured :
  Script.step_onError (extract_step (Some (js "continue")) (js "src") [] (js "x")) = Some (js "continue")
  /\ ScriptExecutor.executeSteps cmds_extract
       [extract_step (Some (js "continue")) (js "src") [] (js "x");
        extract_step None (js "src") (js "x*") (js "y")]
       (ScriptExecutor.mkState false ctx0)
     = Some (Script.errorResult (js "Extract requires " ++ dq "pattern"), ScriptExecutor.mkState false ctx0)
  /\ ScriptContext.hasVariable ctx0 (js "y") = false.
Proof. split; [reflexivity|]. split; vm_compute; reflexivity. Qed.

(** A use of [executeSteps_halts_on_first_signal]. *)
Lemma executeSteps_halts_on_first_signal_witness :
  ScriptExecutor.executeSteps cmds_extract
    [extract_step None (js "src") (js "x*") (js "y"); extract_step None (js "src") [] (js "x");
     extract_step None (js "src") (js "x*") (js "z")]
    (ScriptExecutor.mkState false ctx0)
  = Some (Script.errorResult (js "Extract requires " ++ dq "pattern"),
          ScriptExecutor.mkState false (ScriptContext.setVariable ctx0 (js "y") (VStr []))).
Proof.
  refine (proj1 (executeSteps_halts_on_first_signal cmds_extract
            [extract_step None (js "src") (js "x*") (js "y")]
            [extract_step None (js "src") (js "x*") (js "z")]
            (extract_step None (js "src") [] (js "x"))
            (ScriptExecutor.mkState false ctx0)
            (ScriptExecutor.mkState false (ScriptContext.setVariable ctx0 (js "y") (VStr []))) _ _) _ _ _ _).
  - eapply steps_ok_cons; [reflexivity|vm_compute; reflexivity|reflexivity|reflexivity|constructor].
  - reflexivity.
  - vm_compute. reflexivity.
  - right. reflexivity.
Defined.

(* ================================================================== *)
(** ** Extract *)
(* ================================================================== *)

Lemma debug_variables (c : ScriptContext.ScriptContext) (m : jstr) :
  ScriptContext.variables (ExtractCommand.debug c m) = ScriptContext.variables c.
Proof.
  unfold ExtractCommand.debug, ScriptContext.emitOutput. destruct (ScriptContext.debugMode c); reflexivity.
Qed.

Lemma getVariableString_debug (c : ScriptContext.ScriptContext) (m x : jstr) :
  ScriptContext.getVariableString (ExtractCommand.debug c m) x = ScriptContext.getVariableString c x.
Proof.
  unfold ScriptContext.getVariableString, ScriptContext.getVariable. rewrite debug_variables. reflexivity.
Qed.

Lemma collect_matches_stuck (exec : ExtractCommand.Matcher) (source : jstr) (m : ExtractCommand.ExecResult) :
  exec source 0%nat = Some m -> ExtractCommand.ex_index m = 0%nat -> ExtractCommand.ex_match0 m = [] ->
  forall fuel, ExtractCommand.collect_matches fuel exec source 0%nat = None.
Proof.
  intros He Hi Hm fuel. induction fuel as [|f IH]; [reflexivity|].
  simpl. rewrite He, Hi, Hm. simpl. rewrite IH. reflexivity.
Qed.

(** Claim C4: the extract handler's [regex.exec] loop does not advance past
    an empty match.  For a step whose options are all present, whose source
    is not empty and whose pattern compiles to a matcher that matches the
    empty string at the start of the source, [execute] never returns,
    however many iterations of its loop are allowed: no destination
    variable is ever assigned. *)
Theorem extract_empty_match_diverges
    (compile : ExtractCommand.Compiler) (step : Script.ScriptStep) (c : ScriptContext.ScriptContext)
    (ex : Script.ExtractOptions) (exec : ExtractCommand.Matcher) (m : ExtractCommand.ExecResult) :
  Script.step_extract step = Some ex ->
  Script.ex_from ex <> [] -> Script.ex_pattern ex <> [] -> Script.ex_into ex <> Script.IntoOne [] ->
  ScriptContext.getVariableString c (Script.ex_from ex) <> [] ->
  compile (Script.ex_pattern ex) = inr exec ->
  exec (ScriptContext.getVariableString c (Script.ex_from ex)) 0%nat = Some m ->
  ExtractCommand.ex_index m = 0%nat -> ExtractCommand.ex_match0 m = [] ->
  forall fuel, ExtractCommand.execute fuel compile step c = None.
Proof.
  intros Hs Hf Hp Hi Hsrc Hc He Hidx Hm fuel.
  unfold ExtractCommand.execute. rewrite Hs. cbv zeta. rewrite !getVariableString_debug.
  destruct (Script.ex_from ex) as [|a l]; [congruence|]. simpl Nat.eqb. cbv iota.
  destruct (Script.ex_pattern ex) as [|b l']; [congruence|]. simpl Nat.eqb. cbv iota.
  destruct (Script.ex_into ex) as [[|d l'']|l'']; [congruence| |]; cbv iota;
    destruct (ScriptContext.getVariableString c (a :: l)) as [|e l3]; try congruence;
    simpl Nat.eqb; cbv iota; rewrite Hc; rewrite (collect_matches_stuck exec _ m He Hidx Hm fuel);
    reflexivity.
Qed.

(** A use of [extract_empty_match_diverges]: [extract {from: src, pattern:
    'x*', into: v}] with [src = 'abc']; [x*] matches the empty string at
    index 0. *)
Lemma extract_empty_match_diverges_witness :
  ExtractCommand.execute 1000 compile_x_star (extract_step None (js "src") (js "x*") (js "v")) ctx_src = None.
Proof.
  refine (extract_empty_match_diverges compile_x_star (extract_step None (js "src") (js "x*") (js "v")) ctx_src
            (Script.mkExtract (js "src") (js "x*") (Script.IntoOne (js "v")) None)
            (exec_of_re (RStar (c_char 120)))
            (ExtractCommand.mkExec 0%nat [] []) eq_refl _ _ _ _ eq_refl _ eq_refl eq_refl 1000).
  - discriminate.
  - discriminate.
  - discriminate.
  - vm_compute. discriminate.
  - vm_compute. reflexivity.
Defined.

(* ================================================================== *)
(** ** Expression evaluator *)
(* ================================================================== *)

Section EvaluatorFacts.
Import ExpressionEvaluator.
Variable regexTestI : jstr -> jstr -> option bool.
Variable context : ScriptContext.ScriptContext.

Lemma trim_start_length (s : jstr) : (length (trim_start s) <= length s)%nat.
Proof. induction s as [|c t IH]; simpl; [lia|]. destruct (is_ws c); simpl; lia. Qed.

Lemma trim_length (s : jstr) : (length (trim s) <= length s)%nat.
Proof.
  unfold trim, trim_end. rewrite length_rev.
  pose proof (trim_start_length (rev (trim_start s))) as H1.
  rewrite length_rev in H1. pose proof (trim_start_length s). lia.
Qed.

Lemma find_go_lt (op : jstr) (limit : nat) (s : jstr) :
  forall prev i inQ qc j, find_go op limit s prev i inQ qc = Some j -> (i <= j < limit)%nat.
Proof.
  induction s as [|c t IH]; intros prev i inQ qc j H; simpl in H; [discriminate|].
  destruct (Nat.ltb_spec i limit) as [Hl|Hl]; [|discriminate].
  destruct (if is_quote c && _ then _ else _) as [inQ' qc'].
  destruct (negb inQ' && _).
  - injection H as <-. lia.
  - apply IH in H. lia.
Qed.

Lemma found_lt (e op : jstr) (k : nat) :
  found (findLogicalOperator e op) = Some k -> (0 < k < length e)%nat.
Proof.
  unfold found, findLogicalOperator.
  destruct (find_go op (length e - length op) e None 0 false 0) as [[|k']|] eqn:H;
    try discriminate.
  intros [= <-]. apply find_go_lt in H. lia.
Qed.

Lemma substring_inner_length (e : jstr) :
  (2 <= length e)%nat -> (length (substring e 1 (length e - 1)) < length e)%nat.
Proof.
  intros H. unfold substring.
  rewrite (Nat.min_l 1) by lia. rewrite (Nat.min_l (length e - 1)) by lia.
  destruct (Nat.leb_spec 1 (length e - 1)); [|lia].
  rewrite length_take, length_drop. lia.
Qed.

Lemma eval_step_ext (rec1 rec2 : jstr -> bool) (e : jstr) :
  (forall x, (length x < length e)%nat -> rec1 x = rec2 x) ->
  eval_step regexTestI context rec1 e = eval_step regexTestI context rec2 e.
Proof.
  intros Hext. unfold eval_step. cbv zeta.
  pose proof (trim_length e) as Ht.
  destruct (trim e) as [|c t'] eqn:Htr; [reflexivity|].
  set (t := c :: t') in *.
  destruct (found (findLogicalOperator t (js " and "))) as [k|] eqn:Ha.
  { apply found_lt in Ha.
    rewrite (Hext (take k t)), (Hext (drop (k + 5) t)); [reflexivity| |];
      rewrite ?length_take, ?length_drop; lia. }
  destruct (found (findLogicalOperator t (js " or "))) as [k|] eqn:Ho.
  { apply found_lt in Ho.
    rewrite (Hext (take k t)), (Hext (drop (k + 4) t)); [reflexivity| |];
      rewrite ?length_take, ?length_drop; lia. }
  destruct (starts_with (to_lower t) (js "not ")) eqn:Hn.
  { assert (Hl : (1 <= length t)%nat) by (unfold t; simpl; lia).
    rewrite (Hext (drop 4 t)); [reflexivity|]. rewrite length_drop. lia. }
  destruct (starts_with t (js "(") && ends_with t (js ")")) eqn:Hp; [|reflexivity].
  assert (H2 : (2 <= length t)%nat).
  { destruct t' as [|d l]; [|simpl; lia].
    exfalso. clear -Hp. unfold t in Hp.
    change (js "(") with [40] in Hp. change (js ")") with [41] in Hp.
    unfold ends_with in Hp. cbn [rev app starts_with] in Hp.
    rewrite !andb_true_r in Hp. apply andb_prop in Hp as [E1 E2].
    apply N.eqb_eq in E1, E2. lia. }
  rewrite (Hext (substring t 1 (length t - 1))); [reflexivity|].
  pose proof (substring_inner_length t H2). lia.
Qed.

Lemma eval_fuel_agree (n : nat) :
  forall m e, (length e < n)%nat -> (length e < m)%nat ->
  eval_fuel regexTestI context n e = eval_fuel regexTestI context m e.
Proof.
  induction n as [|n IH]; intros m e Hn Hm; [lia|].
  destruct m as [|m]; [lia|]. simpl.
  apply eval_step_ext. intros x Hx. apply IH; lia.
Qed.

(** Enough fuel gives [evaluate]. *)
Lemma eval_fuel_evaluate (n : nat) (e : jstr) :
  (length e < n)%nat -> eval_fuel regexTestI context n e = evaluate regexTestI context e.
Proof. intros H. unfold evaluate. apply eval_fuel_agree; lia. Qed.

End EvaluatorFacts.

Section QuoteScan.
Import ExpressionEvaluator.
Variable op : jstr.
Variable limit : nat.

Lemma find_go_beyond (s : jstr) (prev : option N) (i : nat) (inQ : bool) (qc : N) :
  (limit <= i)%nat -> find_go op limit s prev i inQ qc = None.
Proof.
  intros H. destruct s as [|c t]; simpl; [reflexivity|].
  destruct (Nat.ltb_spec i limit); [lia|reflexivity].
Qed.

(** Inside a literal opened by [q], code units other than [q] never end
    the quote, and no operator is reported. *)
Lemma find_go_in_quote (q : N) (m : jstr) :
  ~ In q m ->
  forall W prev i, esc_ok prev (m ++ W) = true ->
  exists prev', esc_ok prev' W = true
    /\ find_go op limit (m ++ W) prev i true q = find_go op limit W prev' (i + length m) true q.
Proof.
  intros Hq. induction m as [|c m IH]; intros W prev i Hesc.
  - exists prev. split; [exact Hesc|]. simpl. rewrite Nat.add_0_r. reflexivity.
  - simpl in Hesc. apply andb_prop in Hesc as [_ Hesc].
    assert (Hc : c <> q) by (intros ->; apply Hq; left; reflexivity).
    assert (Hq' : ~ In q m) by (intros H; apply Hq; right; exact H).
    destruct (IH Hq' W (Some c) (S i) Hesc) as [prev' [Hok Heq]].
    exists prev'. split; [exact Hok|]. simpl.
    destruct (Nat.ltb_spec i limit) as [Hl|Hl].
    + assert (E : (c =? q) = false) by (apply N.eqb_neq; exact Hc).
      destruct (is_quote c && _); simpl; rewrite ?E; simpl; rewrite Heq; f_equal; lia.
    + symmetry. apply find_go_beyond. lia.
Qed.

Lemma find_go_plain_step (c : N) (Y : jstr) (prev : option N) (i : nat) (qc : N) :
  is_quote c = false ->
  find_go op limit (c :: Y) prev i false qc
  = if Nat.ltb i limit
    then (if starts_with (to_lower (c :: Y)) (to_lower op) then Some i
          else find_go op limit Y (Some c) (S i) false qc)
    else None.
Proof. intros Hc. cbn [find_go]. destruct (Nat.ltb i limit); [|reflexivity]. rewrite Hc. reflexivity. Qed.

Lemma find_go_close (q : N) (Y : jstr) (prev : option N) (j : nat) :
  is_quote q = true ->
  negb (is_quote q && match prev with Some p => (p =? 92) | None => false end) = true ->
  find_go op limit (q :: Y) prev j true q
  = if Nat.ltb j limit
    then (if starts_with (to_lower (q :: Y)) (to_lower op) then Some j
          else find_go op limit Y (Some q) (S j) false q)
    else None.
Proof.
  intros Hquote Hp. cbn [find_go]. destruct (Nat.ltb j limit); [|reflexivity].
  rewrite Hquote in Hp |- *.
  assert (Hpc : match prev with None => true | Some p => negb (p =? 92) end = true).
  { destruct prev as [p|]; [|reflexivity]. simpl in Hp. destruct (p =? 92); [discriminate|reflexivity]. }
  rewrite Hpc, N.eqb_refl. reflexivity.
Qed.

(** A complete literal [q m q]: nothing is reported before its closing
    quote, where the scan leaves the quote. *)
Lemma find_go_literal (q : N) (m Y : jstr) (prev : option N) (i : nat) (qc : N) :
  is_quote q = true -> ~ In q m -> esc_ok prev (q :: m ++ q :: Y) = true ->
  esc_ok (Some q) Y = true
  /\ (find_go op limit (q :: m ++ q :: Y) prev i false qc = Some (i + 1 + length m)%nat
      \/ find_go op limit (q :: m ++ q :: Y) prev i false qc
         = find_go op limit Y (Some q) (i + 2 + length m) false q).
Proof.
  intros Hquote Hq Hesc. simpl in Hesc. apply andb_prop in Hesc as [Hp Hesc].
  destruct (find_go_in_quote q m Hq (q :: Y) (Some q) (S i) Hesc) as [prev' [Hok Heq]].
  simpl in Hok. apply andb_prop in Hok as [Hp' HY]. split; [exact HY|].
  simpl. destruct (Nat.ltb_spec i limit) as [Hl|Hl].
  - rewrite Hquote in Hp |- *.
    assert (Hpc : match prev with None => true | Some p => negb (p =? 92) end = true).
    { destruct prev as [p|]; [|reflexivity]. simpl in Hp. destruct (p =? 92); [discriminate|reflexivity]. }
    rewrite Hpc. simpl. rewrite Heq, (find_go_close q Y prev' _ Hquote Hp').
    destruct (Nat.ltb_spec (S i + length m) limit) as [Hl'|Hl'].
    + destruct (starts_with (to_lower (q :: Y)) (to_lower op)).
      * left. f_equal. lia.
      * right. f_equal. lia.
    + right. symmetry. apply find_go_beyond. lia.
  - right. symmetry. apply find_go_beyond. lia.
Qed.

(** Across text made of unquoted code units and complete literals the scan
    ends outside quotes, unless it has stopped inside that text. *)
Lemma find_go_outside (X : jstr) :
  outside_quotes X ->
  forall Z prev i qc, esc_ok prev (X ++ Z) = true ->
  find_go op limit (X ++ Z) prev i false qc = None
  \/ (exists j, find_go op limit (X ++ Z) prev i false qc = Some j /\ (j < i + length X)%nat)
  \/ (exists prev' qc', esc_ok prev' Z = true
        /\ find_go op limit (X ++ Z) prev i false qc = find_go op limit Z prev' (i + length X) false qc').
Proof.
  induction 1 as [|c s Hc Hs IH|q m s Hquote Hq Hs IH]; intros Z prev i qc Hesc.
  - right; right. exists prev, qc. split; [exact Hesc|]. simpl. rewrite Nat.add_0_r. reflexivity.
  - simpl in Hesc. apply andb_prop in Hesc as [_ Hesc].
    rewrite <- app_comm_cons, (find_go_plain_step c (s ++ Z) prev i qc Hc). cbn [length].
    destruct (Nat.ltb_spec i limit) as [Hl|Hl]; [|left; reflexivity].
    destruct (starts_with (to_lower (c :: s ++ Z)) (to_lower op)).
    + right; left. exists i. split; [reflexivity|lia].
    + destruct (IH Z (Some c) (S i) qc Hesc) as [H|[[j [H Hj]]|[prev' [qc' [Hok H]]]]].
      * left. exact H.
      * right; left. exists j. split; [exact H|lia].
      * right; right. exists prev', qc'. split; [exact Hok|]. rewrite H. f_equal. lia.
  - replace ((q :: m ++ q :: s) ++ Z) with (q :: m ++ q :: (s ++ Z)) in *
      by (simpl; rewrite <- app_assoc; reflexivity).
    destruct (find_go_literal q m (s ++ Z) prev i qc Hquote Hq Hesc) as [Hok [H|H]].
    + right; left. exists (i + 1 + length m)%nat. split; [exact H|].
      cbn [length]; rewrite length_app; cbn [length]; lia.
    + rewrite H. destruct (IH Z (Some q) (i + 2 + length m)%nat q Hok) as [H'|[[j [H' Hj]]|[prev' [qc' [Hok' H']]]]].
      * left. exact H'.
      * right; left. exists j. split; [exact H'|]. cbn [length]; rewrite length_app; cbn [length]; lia.
      * right; right. exists prev', qc'. split; [exact Hok'|]. rewrite H'. f_equal.
        cbn [length]; rewrite length_app; cbn [length]; lia.
Qed.

(** Across unquoted text in which the operator does not start, the scan
    goes on unchanged. *)
Lemma find_go_plain (X Y : jstr) :
  Forall (fun c => is_quote c = false) X ->
  (forall j, (j < length X)%nat -> starts_with (to_lower (drop j (X ++ Y))) (to_lower op) = false) ->
  forall prev i qc, exists prev',
    find_go op limit (X ++ Y) prev i false qc = find_go op limit Y prev' (i + length X) false qc.
Proof.
  induction X as [|c X IH]; intros Hq Hno prev i qc.
  - exists prev. simpl. rewrite Nat.add_0_r. reflexivity.
  - inversion Hq as [|? ? Hc HX]; subst.
    assert (Hno' : forall j, (j < length X)%nat -> starts_with (to_lower (drop j (X ++ Y))) (to_lower op) = false).
    { intros j Hj. apply (Hno (S j)). simpl. lia. }
    destruct (IH HX Hno' (Some c) (S i) qc) as [prev' H].
    exists prev'. rewrite <- app_comm_cons, (find_go_plain_step c (X ++ Y) prev i qc Hc).
    destruct (Nat.ltb_spec i limit) as [Hl|Hl].
    + pose proof (Hno 0%nat ltac:(simpl; lia)) as H0. simpl drop in H0.
      rewrite H0, H. simpl length. f_equal. lia.
    + symmetry. apply find_go_beyond. simpl. lia.
Qed.

Lemma find_go_hit (c : N) (Y : jstr) (prev : option N) (i : nat) (qc : N) :
  is_quote c = false -> (i < limit)%nat -> starts_with (to_lower (c :: Y)) (to_lower op) = true ->
  find_go op limit (c :: Y) prev i false qc = Some i.
Proof. intros Hc Hl Hs. rewrite (find_go_plain_step c Y prev i qc Hc), (proj2 (Nat.ltb_lt _ _) Hl), Hs. reflexivity. Qed.

End QuoteScan.

Section EvaluatorSplit.
Import ExpressionEvaluator.
Variable regexTestI : jstr -> jstr -> option bool.
Variable context : ScriptContext.ScriptContext.

Lemma starts_with_self (p s : jstr) : starts_with (p ++ s) p = true.
Proof. induction p as [|x p IH]; simpl; [destruct s; reflexivity|]. rewrite N.eqb_refl, IH. reflexivity. Qed.

Lemma starts_with_app (s z p : jstr) : starts_with s p = true -> starts_with (s ++ z) p = true.
Proof.
  revert s. induction p as [|x p IH]; intros s H; [destruct (s ++ z); reflexivity|].
  destruct s as [|y s]; simpl in H |- *; [discriminate|].
  apply andb_prop in H as [H1 H2]. rewrite H1, (IH s H2). reflexivity.
Qed.

Lemma starts_with_nil (s : jstr) : starts_with s [] = true.
Proof. destruct s; reflexivity. Qed.

Lemma run_lookup_ascii_table :
  forallb (fun n => let c := N.of_nat n in
             run_lookup lower_runs c =? (if (65 <=? c) && (c <=? 90) then c + 32 else c))
          (seq 0 128) = true.
Proof. vm_compute. reflexivity. Qed.

Lemma run_lookup_ascii (c : N) :
  c < 128 -> run_lookup lower_runs c = (if (65 <=? c) && (c <=? 90) then c + 32 else c).
Proof.
  intros Hc. pose proof run_lookup_ascii_table as H. rewrite forallb_forall in H.
  specialize (H (N.to_nat c)). cbv zeta in H. rewrite N2Nat.id in H.
  apply N.eqb_eq, H, List.in_seq. lia.
Qed.

Lemma run_lookup_surrogate_table :
  forallb (fun n => let c := 55296 + N.of_nat n in run_lookup lower_runs c =? c)
          (seq 0 2048) = true.
Proof. vm_compute. reflexivity. Qed.

Lemma run_lookup_surrogate (u : N) :
  55296 <= u -> u <= 57343 -> run_lookup lower_runs u = u.
Proof.
  intros H1 H2. pose proof run_lookup_surrogate_table as H. rewrite forallb_forall in H.
  specialize (H (N.to_nat (u - 55296))). cbv zeta in H.
  rewrite N2Nat.id in H. replace (55296 + (u - 55296)) with u in H by lia.
  apply N.eqb_eq, H, List.in_seq. lia.
Qed.

Lemma flat_map_utf16_app (a b : list N) :
  flat_map utf16 (a ++ b) = flat_map utf16 a ++ flat_map utf16 b.
Proof. induction a as [|x a IH]; [reflexivity|]. simpl. rewrite IH, app_assoc. reflexivity. Qed.

(** On ASCII text [toLowerCase] maps A-Z to a-z, code unit by code unit,
    whatever the code points before. *)
Lemma lower_go_ascii (s : jstr) : forall before,
  Forall (fun c => c < 128) s ->
  flat_map utf16 (lower_go before (code_points s))
  = map (fun c => if (65 <=? c) && (c <=? 90) then c + 32 else c) s.
Proof.
  induction s as [|u s IH]; intros before Hs; [reflexivity|].
  inversion Hs as [|? ? Hu Hs']; subst.
  assert (Hh : is_high_surrogate u = false) by (unfold is_high_surrogate; apply andb_false_iff; left; apply N.leb_gt; lia).
  cbn [code_points]. rewrite Hh. cbn [lower_go].
  rewrite flat_map_utf16_app, (IH _ Hs').
  assert (H931 : (u =? 931) = false) by (apply N.eqb_neq; lia).
  assert (H304 : (u =? 304) = false) by (apply N.eqb_neq; lia).
  rewrite H931. unfold lower_cp. rewrite H304, (run_lookup_ascii u Hu).
  cbn [flat_map map]. unfold utf16.
  destruct ((65 <=? u) && (u <=? 90)) eqn:E.
  - apply andb_prop in E as [_ E]. apply N.leb_le in E.
    rewrite (proj2 (N.ltb_lt (u + 32) 65536)) by lia. reflexivity.
  - rewrite (proj2 (N.ltb_lt u 65536)) by lia. reflexivity.
Qed.

Lemma to_lower_ascii (s : jstr) :
  Forall (fun c => c < 128) s ->
  to_lower s = map (fun c => if (65 <=? c) && (c <=? 90) then c + 32 else c) s.
Proof. apply lower_go_ascii. Qed.

Lemma to_lower_ascii_ascii (s : jstr) :
  Forall (fun c => c < 128) s -> Forall (fun c => c < 128) (to_lower s).
Proof.
  intros Hs. rewrite (to_lower_ascii s Hs). apply Forall_map.
  eapply Forall_impl; [exact Hs|]. intros c Hc. cbv beta.
  destruct ((65 <=? c) && (c <=? 90)) eqn:E; [|exact Hc].
  apply andb_prop in E as [_ E]. apply N.leb_le in E. lia.
Qed.

Lemma starts_with_app_mono (X A B p : jstr) :
  (forall p2, Forall (fun c => c < 128) p2 -> starts_with A p2 = true -> starts_with B p2 = true) ->
  Forall (fun c => c < 128) p -> starts_with (X ++ A) p = true -> starts_with (X ++ B) p = true.
Proof.
  revert p. induction X as [|x X IH]; intros p HAB Hp H; [exact (HAB p Hp H)|].
  destruct p as [|q p]; [apply starts_with_nil|].
  inversion Hp as [|? ? Hq Hp']; subst.
  cbn [app starts_with] in H |- *. apply andb_prop in H as [H1 H2].
  rewrite H1. exact (IH p HAB Hp' H2).
Qed.

Lemma starts_with_non_ascii (c : N) (A p : jstr) :
  128 <= c -> Forall (fun c => c < 128) p -> starts_with (c :: A) p = true -> p = [].
Proof.
  intros Hc Hp H. destruct p as [|q p]; [reflexivity|].
  inversion Hp as [|? ? Hq _]; subst. cbn [starts_with] in H.
  apply andb_prop in H as [H _]. apply N.eqb_eq in H. lia.
Qed.

(** An ASCII prefix of the lower-cased text stays a prefix when text is
    appended: the code points it comes from are not U+03A3 (whose mapping
    depends on what follows) nor a high surrogate at the end (which may be
    paired with what follows). *)
Lemma lower_go_prefix_ascii (n : nat) : forall (s y p : jstr) before,
  (length s <= n)%nat -> Forall (fun c => c < 128) p ->
  starts_with (flat_map utf16 (lower_go before (code_points s))) p = true ->
  starts_with (flat_map utf16 (lower_go before (code_points (s ++ y)))) p = true.
Proof.
  induction n as [|n IH]; intros s y p before Hn Hp H.
  { destruct s; [|simpl in Hn; lia]. destruct p as [|q p]; [apply starts_with_nil|]. discriminate. }
  destruct p as [|q p']; [apply starts_with_nil|]. set (p := q :: p') in *.
  destruct s as [|u s1]; [discriminate|]. simpl in Hn.
  destruct (is_high_surrogate u) eqn:Hh.
  - destruct s1 as [|l s2].
    + exfalso. cbn [code_points] in H. rewrite Hh in H. cbn [lower_go] in H.
      unfold is_high_surrogate in Hh. apply andb_prop in Hh as [Hh1 Hh2].
      apply N.leb_le in Hh1, Hh2.
      rewrite (proj2 (N.eqb_neq u 931)) in H by lia. unfold lower_cp in H.
      rewrite (proj2 (N.eqb_neq u 304)) in H by lia.
      rewrite run_lookup_surrogate in H by lia.
      cbn [app flat_map] in H. unfold utf16 in H. rewrite (proj2 (N.ltb_lt u 65536)) in H by lia.
      cbn [app] in H. apply starts_with_non_ascii in H; [discriminate|lia|exact Hp].
    + cbn [app]. cbn [code_points] in H |- *. rewrite Hh in H |- *.
      destruct (is_low_surrogate l) eqn:Hl.
      * set (cp := 65536 + (u - 55296) * 1024 + (l - 56320)) in *.
        cbn [lower_go] in H |- *.
        rewrite (proj2 (N.eqb_neq cp 931)) in H |- * by (unfold cp; lia).
        rewrite !flat_map_utf16_app in H |- *.
        eapply starts_with_app_mono; [|exact Hp|exact H].
        intros p2 Hp2 H2. apply (IH s2 y p2 _); [simpl in Hn; lia|exact Hp2|exact H2].
      * cbn [lower_go] in H |- *.
        rewrite !flat_map_utf16_app in H |- *.
        destruct (u =? 931) eqn:E.
        { apply N.eqb_eq in E. subst u. discriminate. }
        eapply starts_with_app_mono; [|exact Hp|exact H].
        intros p2 Hp2 H2. apply (IH (l :: s2) y p2 _); [simpl in Hn |- *; lia|exact Hp2|exact H2].
  - cbn [app code_points] in H |- *. rewrite Hh in H |- *. cbn [lower_go] in H |- *.
    rewrite !flat_map_utf16_app in H |- *.
    destruct (u =? 931) eqn:E.
    + exfalso. assert (Hq : q < 128) by (unfold p in Hp; inversion Hp; assumption).
      unfold p in H.
      destruct (final_sigma before (code_points s1)); cbn in H;
        apply andb_prop in H as [H _]; apply N.eqb_eq in H; lia.
    + eapply starts_with_app_mono; [|exact Hp|exact H].
      intros p2 Hp2 H2. apply (IH s1 y p2 _); [lia|exact Hp2|exact H2].
Qed.

Lemma to_lower_prefix_ascii (s y p : jstr) :
  Forall (fun c => c < 128) p -> starts_with (to_lower s) p = true -> starts_with (to_lower (s ++ y)) p = true.
Proof. apply (lower_go_prefix_ascii (length s)). lia. Qed.

(** For an ASCII [x], the lower-cased [x ++ y] starts with the lower-cased [x]. *)
Lemma to_lower_app_ascii (x y : jstr) :
  Forall (fun c => c < 128) x -> starts_with (to_lower (x ++ y)) (to_lower x) = true.
Proof.
  intros Hx. apply to_lower_prefix_ascii; [apply to_lower_ascii_ascii, Hx|].
  pose proof (starts_with_self (to_lower x) []) as E. rewrite app_nil_r in E. exact E.
Qed.

Lemma trim_id (s : jstr) (a z : N) :
  head s = Some a -> is_ws a = false -> last s = Some z -> is_ws z = false -> trim s = s.
Proof.
  intros Ha Hwa Hz Hwz. destruct s as [|a' s']; [discriminate|]. injection Ha as ->.
  unfold trim. simpl. rewrite Hwa.
  apply last_Some in Hz as [l Hl]. rewrite Hl. unfold trim_end.
  rewrite rev_app_distr. cbn [rev app trim_start]. rewrite Hwz. cbn [rev].
  rewrite rev_involutive. reflexivity.
Qed.

(** [evaluate] on a trimmed expression split at its first [ and ]. *)
Lemma evaluate_and_split (e : jstr) (k : nat) :
  trim e = e -> found (findLogicalOperator e (js " and ")) = Some k ->
  evaluate regexTestI context e
  = evaluate regexTestI context (take k e) && evaluate regexTestI context (drop (k + 5) e).
Proof.
  intros Ht Hk. pose proof (found_lt _ _ _ Hk) as Hlt.
  change (evaluate regexTestI context e)
    with (eval_step regexTestI context (eval_fuel regexTestI context (length e)) e).
  unfold eval_step. cbv zeta. rewrite Ht.
  destruct e as [|c t]; [simpl in Hlt; lia|]. cbv beta iota. rewrite Hk.
  rewrite !eval_fuel_evaluate; [reflexivity| |]; rewrite ?length_take, ?length_drop; lia.
Qed.

(** [evaluate] on a trimmed expression with no [ and ], split at its first
    [ or ]. *)
Lemma evaluate_or_split (e : jstr) (k : nat) :
  trim e = e -> found (findLogicalOperator e (js " and ")) = None ->
  found (findLogicalOperator e (js " or ")) = Some k ->
  evaluate regexTestI context e
  = evaluate regexTestI context (take k e) || evaluate regexTestI context (drop (k + 4) e).
Proof.
  intros Ht Ha Hk. pose proof (found_lt _ _ _ Hk) as Hlt.
  change (evaluate regexTestI context e)
    with (eval_step regexTestI context (eval_fuel regexTestI context (length e)) e).
  unfold eval_step. cbv zeta. rewrite Ht.
  destruct e as [|c t]; [simpl in Hlt; lia|]. cbv beta iota. rewrite Ha, Hk.
  rewrite !eval_fuel_evaluate; [reflexivity| |]; rewrite ?length_take, ?length_drop; lia.
Qed.

End EvaluatorSplit.

(** The scan finds an operator token written after unquoted text in which
    it does not occur. *)
Lemma findLogicalOperator_plain (X Y op : jstr) :
  Forall (fun c => ExpressionEvaluator.is_quote c = false) X ->
  (forall j, (j < length X)%nat -> starts_with (to_lower (drop j (X ++ op ++ Y))) (to_lower op) = false) ->
  op <> [] -> ExpressionEvaluator.is_quote (default 0 (head op)) = false -> Y <> [] ->
  Forall (fun c => c < 128) op ->
  ExpressionEvaluator.findLogicalOperator (X ++ op ++ Y) op = Some (length X).
Proof.
  intros HX Hno Hop Hq HY Hasc. unfold ExpressionEvaluator.findLogicalOperator.
  destruct (find_go_plain op (length (X ++ op ++ Y) - length op) X (op ++ Y) HX Hno None 0 0)
    as [prev' ->].
  destruct op as [|o op']; [congruence|]. simpl in Hq.
  pose proof (to_lower_app_ascii (o :: op') Y Hasc) as Hpre.
  rewrite <- app_comm_cons. apply find_go_hit; [exact Hq| |].
  - destruct Y as [|y Y]; [congruence|]. rewrite !length_app. cbn [length]. rewrite length_app. cbn [length]. lia.
  - rewrite app_comm_cons. exact Hpre.
Qed.

(** The scan finds nothing in unquoted text in which the token does not
    occur. *)
Lemma findLogicalOperator_absent (X op : jstr) :
  Forall (fun c => ExpressionEvaluator.is_quote c = false) X ->
  (forall j, (j < length X)%nat -> starts_with (to_lower (drop j X)) (to_lower op) = false) ->
  ExpressionEvaluator.findLogicalOperator X op = None.
Proof.
  intros HX Hno. unfold ExpressionEvaluator.findLogicalOperator.
  assert (Hno' : forall j, (j < length X)%nat ->
            starts_with (to_lower (drop j (X ++ []))) (to_lower op) = false)
    by (intros j Hj; rewrite app_nil_r; exact (Hno j Hj)).
  destruct (find_go_plain op (length X - length op) X [] HX Hno' None 0%nat 0) as [prev' H].
  rewrite app_nil_r in H. rewrite H. reflexivity.
Qed.

Lemma quote_free_or : Forall (fun c => ExpressionEvaluator.is_quote c = false) (js " or ").
Proof. repeat constructor. Qed.

Lemma snoc_not_nil (l : jstr) (x : N) : l ++ [x] <> [].
Proof. intros H. apply (f_equal length) in H. rewrite length_app in H. simpl in H. lia. Qed.

(** Claim C2 (as the code has it): [evaluate] splits at the first unquoted
    [ and ] before it looks for [ or ], so [and] binds less tightly than
    [or]: for [A or B and C], with [A] and [B] free of quotes, the [ or ]
    and [ and ] tokens the only (first) ones, and [A], [B], [C] non-empty
    and not padded with white space, the result is
    [(evaluate A || evaluate B) && evaluate C]. *)
Theorem evaluate_or_and_groups_left
    (regexTestI : jstr -> jstr -> option bool) (ctx : ScriptContext.ScriptContext) (A B C : jstr) :
  (exists a, head A = Some a /\ is_ws a = false) ->
  (exists b, last B = Some b /\ is_ws b = false) ->
  (exists c, last C = Some c /\ is_ws c = false) ->
  Forall (fun c => ExpressionEvaluator.is_quote c = false) (A ++ B) ->
  (forall j, (j < length (A ++ js " or " ++ B))%nat ->
     starts_with (to_lower (drop j (A ++ js " or " ++ B ++ js " and " ++ C))) (js " and ") = false) ->
  (forall j, (j < length A)%nat ->
     starts_with (to_lower (drop j (A ++ js " or " ++ B))) (js " or ") = false) ->
  ExpressionEvaluator.evaluate regexTestI ctx (A ++ js " or " ++ B ++ js " and " ++ C)
  = (ExpressionEvaluator.evaluate regexTestI ctx A || ExpressionEvaluator.evaluate regexTestI ctx B)
    && ExpressionEvaluator.evaluate regexTestI ctx C.
Proof.
  intros [a [Ha Hwa]] [b [Hb Hwb]] [c [Hc Hwc]] Hq Hand Hor.
  destruct A as [|a0 A']; [discriminate|]. injection Ha as ->.
  apply last_Some in Hb as [B' ->]. apply last_Some in Hc as [C' ->].
  set (A := a :: A') in *. set (B := B' ++ [b]) in *. set (C := C' ++ [c]) in *.
  set (X := A ++ js " or " ++ B).
  assert (HE : A ++ js " or " ++ B ++ js " and " ++ C = X ++ js " and " ++ C)
    by (unfold X; rewrite <- !app_assoc; reflexivity).
  rewrite HE in Hand |- *.
  apply Forall_app in Hq as [HqA HqB].
  assert (HqX : Forall (fun c => ExpressionEvaluator.is_quote c = false) X).
  { unfold X. apply Forall_app; split; [exact HqA|]. apply Forall_app; split; [exact quote_free_or|exact HqB]. }
  assert (HXlen : (4 <= length X)%nat) by (unfold X; rewrite !length_app; simpl; lia).
  (* the whole expression, split at [ and ] *)
  assert (HtE : trim (X ++ js " and " ++ C) = X ++ js " and " ++ C).
  { apply (trim_id _ a c); [reflexivity|exact Hwa| |exact Hwc].
    unfold C. rewrite !app_assoc. apply last_snoc. }
  assert (HfE : ExpressionEvaluator.found (ExpressionEvaluator.findLogicalOperator (X ++ js " and " ++ C) (js " and "))
                = Some (length X)).
  { rewrite (findLogicalOperator_plain X C (js " and ") HqX Hand ltac:(discriminate) eq_refl (snoc_not_nil C' c) ltac:(repeat constructor)).
    unfold ExpressionEvaluator.found. destruct (length X); [lia|reflexivity]. }
  rewrite (evaluate_and_split regexTestI ctx _ _ HtE HfE).
  rewrite take_app_length.
  rewrite app_assoc, (drop_app_length' (X ++ js " and ")) by (rewrite length_app; reflexivity).
  f_equal.
  (* the left operand, split at [ or ] *)
  assert (HtX : trim X = X).
  { apply (trim_id _ a b); [reflexivity|exact Hwa| |exact Hwb].
    unfold X, B. rewrite !app_assoc. apply last_snoc. }
  assert (HaX : ExpressionEvaluator.found (ExpressionEvaluator.findLogicalOperator X (js " and ")) = None).
  { rewrite (findLogicalOperator_absent X (js " and ") HqX); [reflexivity|].
    intros j Hj. specialize (Hand j Hj).
    destruct (starts_with (to_lower (drop j X)) (to_lower (js " and "))) eqn:Hs; [|reflexivity].
    rewrite <- Hand. symmetry.
    change (to_lower (js " and ")) with (js " and ") in Hs.
    rewrite (drop_app_le X) by lia. apply to_lower_prefix_ascii; [repeat constructor|exact Hs]. }
  assert (HoX : ExpressionEvaluator.found (ExpressionEvaluator.findLogicalOperator X (js " or ")) = Some (length A)).
  { unfold X. rewrite (findLogicalOperator_plain A B (js " or ") HqA Hor ltac:(discriminate) eq_refl (snoc_not_nil B' b) ltac:(repeat constructor)).
    reflexivity. }
  rewrite (evaluate_or_split regexTestI ctx X _ HtX HaX HoX).
  unfold X. rewrite take_app_length.
  rewrite app_assoc, (drop_app_length' (A ++ js " or ")) by (rewrite length_app; reflexivity).
  reflexivity.
Qed.

(** Claim C2, counterexample: [true or false and false] is [false], where
    [or] binding less tightly than [and] would give [true]. *)
Lemma evaluate_or_and_counterexample :
  ExpressionEvaluator.evaluate no_regex ctx0 (js "true or false and false") = false
  /\ (ExpressionEvaluator.evaluate no_regex ctx0 (js "true")
      || (ExpressionEvaluator.evaluate no_regex ctx0 (js "false")
          && ExpressionEvaluator.evaluate no_regex ctx0 (js "false"))) = true.
Proof. split; vm_compute; reflexivity. Qed.

(** A use of [evaluate_or_and_groups_left] on [true or false and false]. *)
Lemma evaluate_or_and_groups_left_witness :
  ExpressionEvaluator.evaluate no_regex ctx0 (js "true or false and false")
  = (ExpressionEvaluator.evaluate no_regex ctx0 (js "true")
     || ExpressionEvaluator.evaluate no_regex ctx0 (js "false"))
    && ExpressionEvaluator.evaluate no_regex ctx0 (js "false").
Proof.
  refine (evaluate_or_and_groups_left no_regex ctx0 (js "true") (js "false") (js "false") _ _ _ _ _ _).
  - exists 116. split; reflexivity.
  - exists 101. split; reflexivity.
  - exists 101. split; reflexivity.
  - repeat constructor.
  - intros j Hj. vm_compute in Hj.
    do 13 (destruct j as [|j]; [reflexivity|]). lia.
  - intros j Hj. vm_compute in Hj.
    do 4 (destruct j as [|j]; [reflexivity|]). lia.
Defined.

(** Claim C7: the operator scan of [findLogicalOperator] (and so of
    [findOperator]) never reports a position inside a quoted literal.  For
    an expression [X q m q Y] where [X] is unquoted text and complete
    literals, [q] a quote character, [m] free of [q], and no quote preceded
    by a backslash (the scan skips such quotes), no operator is found at the
    opening quote or inside [m]; and [x == "a and b"] compares [x] with the
    literal [a and b]. *)
Theorem findLogicalOperator_skips_quoted :
  (forall (X m Y op : jstr) (q : N) (j : nat),
     outside_quotes X -> ExpressionEvaluator.is_quote q = true -> ~ In q m ->
     esc_ok None (X ++ q :: m ++ q :: Y) = true ->
     ExpressionEvaluator.findLogicalOperator (X ++ q :: m ++ q :: Y) op = Some j ->
     (j < length X)%nat \/ (length X + length m < j)%nat)
  /\ (forall (regexTestI : jstr -> jstr -> option bool) (ctx : ScriptContext.ScriptContext),
     ExpressionEvaluator.evaluate regexTestI ctx (js "x == " ++ [34] ++ js "a and b" ++ [34])
     = ExpressionEvaluator.areEqual (ExpressionEvaluator.resolveValue ctx (js "x")) (VStr (js "a and b"))).
Proof.
  split; [|intros; reflexivity].
  intros X m Y op q j HX Hquote Hq Hesc Hj.
  unfold ExpressionEvaluator.findLogicalOperator in Hj.
  set (limit := (length (X ++ q :: m ++ q :: Y) - length op)%nat) in Hj.
  destruct (find_go_outside op limit X HX (q :: m ++ q :: Y) None 0%nat 0 Hesc)
    as [H|[[j' [H Hj']]|[prev' [qc' [Hok H]]]]]; rewrite H in Hj.
  - discriminate.
  - injection Hj as ->. left. lia.
  - destruct (find_go_literal op limit q m Y prev' (0 + length X) qc' Hquote Hq Hok) as [_ [H'|H']];
      rewrite H' in Hj.
    + injection Hj as <-. right. lia.
    + apply find_go_lt in Hj. right. lia.
Qed.

(** A use of [findLogicalOperator_skips_quoted]: in ["a and b" and y] the
    scan for [ and ] finds the token after the literal, at 9; and
    [x == "a and b"] holds when [x] is [A AND B]. *)
Lemma findLogicalOperator_skips_quoted_witness :
  ExpressionEvaluator.findLogicalOperator (34 :: js "a and b" ++ 34 :: js " and y") (js " and ") = Some 9%nat
  /\ ((9 < length (@nil N))%nat \/ (length (@nil N) + length (js "a and b") < 9)%nat)
  /\ ExpressionEvaluator.evaluate no_regex ctx_x (js "x == " ++ [34] ++ js "a and b" ++ [34])
     = ExpressionEvaluator.areEqual (ExpressionEvaluator.resolveValue ctx_x (js "x")) (VStr (js "a and b")).
Proof.
  assert (Hj : ExpressionEvaluator.findLogicalOperator (34 :: js "a and b" ++ 34 :: js " and y") (js " and ")
               = Some 9%nat) by (vm_compute; reflexivity).
  split; [exact Hj|]. split.
  - refine (proj1 findLogicalOperator_skips_quoted [] (js "a and b") (js " and y") (js " and ") 34 9%nat _ eq_refl _ eq_refl Hj).
    + constructor.
    + vm_compute. intros H. intuition discriminate.
  - exact (proj2 findLogicalOperator_skips_quoted no_regex ctx_x).
Defined.

Lemma find_last_lines (f : jstr -> bool) (lines : list jstr) :
  forall (k : nat) (p : jstr),
  find f (map trim (take k (rev lines))) = Some p <->
  exists i l, lines !! i = Some l /\ (length lines <= i + k)%nat /\ trim l = p /\ f p = true
    /\ forall j l', (i < j)%nat -> lines !! j = Some l' -> f (trim l') = false.
Proof.
  induction lines as [|x ls IH] using rev_ind; intros k p.
  - simpl rev. rewrite firstn_nil. simpl. split; [discriminate|]. intros (i & l & H & _). by rewrite lookup_nil in H.
  - rewrite rev_app_distr. simpl rev.
    destruct k as [|k'].
    + simpl. split; [discriminate|]. intros (i & l & H & Hlen & _).
      apply lookup_lt_Some in H. lia.
    + cbn [app take firstn map find].
      rewrite length_app. cbn [length].
      destruct (f (trim x)) eqn:Hx.
      * split.
        -- intros [= <-]. exists (length ls), x. split; [|split; [lia|split; [reflexivity|split; [exact Hx|]]]].
           ++ rewrite lookup_app_r by lia. rewrite Nat.sub_diag. reflexivity.
           ++ intros j l' Hj Hl. apply lookup_lt_Some in Hl. rewrite length_app in Hl. simpl in Hl. lia.
        -- intros (i & l & Hl & Hlen & Hp & Hf & Hj).
           apply lookup_snoc_Some in Hl as [[Hi Hl]|[-> <-]].
           ++ specialize (Hj (length ls) x Hi). rewrite lookup_app_r, Nat.sub_diag in Hj by lia.
              specialize (Hj eq_refl). congruence.
           ++ congruence.
      * rewrite IH. split.
        -- intros (i & l & Hl & Hlen & Hp & Hf & Hj).
           pose proof (lookup_lt_Some _ _ _ Hl) as Hi.
           exists i, l. split; [rewrite lookup_app_l by lia; exact Hl|].
           split; [lia|]. split; [exact Hp|]. split; [exact Hf|].
           intros j l' Hij Hl'. apply lookup_snoc_Some in Hl' as [[Hj' Hl']|[-> <-]].
           ++ exact (Hj j l' Hij Hl').
           ++ exact Hx.
        -- intros (i & l & Hl & Hlen & Hp & Hf & Hj).
           apply lookup_snoc_Some in Hl as [[Hi Hl]|[-> <-]].
           ++ exists i, l. split; [exact Hl|]. split; [lia|]. split; [exact Hp|]. split; [exact Hf|].
              intros j l' Hij Hl'. apply (Hj j l' Hij). rewrite lookup_app_l; [exact Hl'|].
              exact (lookup_lt_Some _ _ _ Hl').
           ++ congruence.
Qed.

(** Extra X1: tryDetectPrompt returns p exactly when p is the trimmed form of a line among the last five lines of the buffer, p is a likely prompt, and no later line trims to a likely prompt. *)
Theorem tryDetectPrompt_last_prompt_line (buffer p : jstr) :
  PromptDetector.tryDetectPrompt buffer = Some p <->
  exists i line,
    split_on LF buffer !! i = Some line
    /\ (length (split_on LF buffer) <= i + 5)%nat
    /\ trim line = p
    /\ PromptDetector.isLikelyPrompt p = true
    /\ forall j line', (i < j)%nat -> split_on LF buffer !! j = Some line' ->
                       PromptDetector.isLikelyPrompt (trim line') = false.
Proof. apply find_last_lines. Qed.

Lemma different_prompt_last_spec (buffer : jstr) (rx : re) (p : jstr) :
  PromptDetector.tryDetectDifferentPrompt buffer rx = Some p <->
  exists i line,
    split_on LF buffer !! i = Some line
    /\ (length (split_on LF buffer) <= i + 3)%nat
    /\ trim line = p
    /\ PromptDetector.isLikelyPrompt p = true /\ re_test rx p = false
    /\ forall j line', (i < j)%nat -> split_on LF buffer !! j = Some line' ->
         PromptDetector.isLikelyPrompt (trim line') = false \/ re_test rx (trim line') = true.
Proof.
  unfold PromptDetector.tryDetectDifferentPrompt. rewrite find_last_lines. split.
  - intros (i & l & Hl & Hlen & Hp & Hf & Hj). exists i, l.
    do 3 (split; [assumption|]).
    apply andb_prop in Hf as [Hf1 Hf2]. apply negb_true_iff in Hf2.
    split; [exact Hf1|]. split; [exact Hf2|].
    intros j l' Hij Hl'. specialize (Hj j l' Hij Hl').
    destruct (PromptDetector.isLikelyPrompt (trim l')); [|left; reflexivity].
    right. destruct (re_test rx (trim l')); [reflexivity|discriminate].
  - intros (i & l & Hl & Hlen & Hp & Hf1 & Hf2 & Hj'). exists i, l.
    do 3 (split; [assumption|]).
    split; [rewrite Hf1, Hf2; reflexivity|].
    intros j l' Hij Hl'. destruct (Hj' j l' Hij Hl') as [H|H]; rewrite H; [reflexivity|].
    rewrite andb_false_r. reflexivity.
Qed.

(** Extra X2: tryDetectDifferentPrompt returns p exactly when p is the trimmed form of a line among the last three lines, p is a likely prompt the current prompt regex does not match, and every later line is either no likely prompt or matched by the regex. *)
Theorem tryDetectDifferentPrompt_last_new_prompt (buffer : jstr) (rx : re) (p : jstr) :
  PromptDetector.tryDetectDifferentPrompt buffer rx = Some p <->
  exists i line,
    split_on LF buffer !! i = Some line
    /\ (length (split_on LF buffer) <= i + 3)%nat
    /\ trim line = p
    /\ PromptDetector.isLikelyPrompt p = true /\ re_test rx p = false
    /\ forall j line', (i < j)%nat -> split_on LF buffer !! j = Some line' ->
         PromptDetector.isLikelyPrompt (trim line') = false \/ re_test rx (trim line') = true.
Proof. apply different_prompt_last_spec. Qed.

Lemma split_go_app_sep (sep : N) (b : jstr) :
  forall a cur, split_go sep (a ++ sep :: b) cur = split_go sep a cur ++ split_go sep b [].
Proof.
  induction a as [|c a IH]; intros cur; simpl.
  - rewrite N.eqb_refl. reflexivity.
  - destruct (c =? sep); [|apply IH]. rewrite IH. reflexivity.
Qed.

Lemma split_go_length (sep : N) :
  forall s cur, length (split_go sep s cur) = S (length (List.filter (fun c => N.eqb c sep) s)).
Proof.
  induction s as [|c s IH]; intros cur; simpl; [reflexivity|].
  destruct (c =? sep); simpl; rewrite IH; reflexivity.
Qed.

Lemma first_sep (sep : N) (s : jstr) :
  (1 <= length (List.filter (fun c => N.eqb c sep) s))%nat ->
  exists u w, s = u ++ sep :: w /\ List.filter (fun c => N.eqb c sep) u = [].
Proof.
  induction s as [|c s IH]; intros H; [simpl in H; lia|].
  simpl in H. destruct (c =? sep) eqn:Hc.
  - apply N.eqb_eq in Hc. subst c. exists [], s. split; reflexivity.
  - destruct (IH H) as (u & w & -> & Hu). exists (c :: u), w. split; [reflexivity|].
    simpl. rewrite Hc. exact Hu.
Qed.

(** Extra X3: tryDetectPromptFromTail gives the same answer as tryDetectPrompt when the buffer has at most 500 code units, and also on a longer buffer whose last 500 code units hold at least five line feeds. *)
Theorem tryDetectPromptFromTail_agrees (buffer : jstr) :
  (length buffer <= 500)%nat
  \/ (5 <= length (List.filter (fun c => N.eqb c LF) (slice_last 500 buffer)))%nat ->
  PromptDetector.tryDetectPromptFromTail buffer = PromptDetector.tryDetectPrompt buffer.
Proof.
  intros [Hs|H].
  - unfold PromptDetector.tryDetectPromptFromTail, slice_last. cbv zeta.
    replace (length buffer - 500)%nat with 0%nat by lia. reflexivity.
  - unfold PromptDetector.tryDetectPromptFromTail, PromptDetector.tryDetectPrompt.
    set (d := (length buffer - 500)%nat) in *. unfold slice_last in *. fold d in H |- *.
    assert (Hb : buffer = take d buffer ++ drop d buffer) by (symmetry; apply take_drop).
    destruct (first_sep LF (drop d buffer) ltac:(lia)) as (u & w & Hdw & Hu).
    rewrite Hdw in H. rewrite List.filter_app, length_app, Hu in H. simpl in H.
    assert (Hw : (5 <= length (split_on LF w))%nat) by (unfold split_on; rewrite split_go_length; lia).
    assert (Hbuf : buffer = (take d buffer ++ u) ++ LF :: w) by (rewrite <- app_assoc, <- Hdw; exact Hb).
    rewrite Hdw. cbv zeta.
    rewrite Hbuf. unfold split_on. rewrite !split_go_app_sep.
    rewrite !rev_app_distr. rewrite !take_app_le by (rewrite length_rev; exact Hw). reflexivity.
Qed.

Lemma re_test_of_mt (r : re) (s t : jstr) : In t (mt r s) -> re_test r s = true.
Proof. intros H. destruct s as [|c s]; simpl; destruct (mt r _); done. Qed.

Lemma re_test_app (r : re) (x y : jstr) : re_test r y = true -> re_test r (x ++ y) = true.
Proof.
  intros H. induction x as [|c x IH]; [exact H|]. simpl. destruct (mt r (c :: x ++ y)); [exact IH|reflexivity].
Qed.

Lemma star_ws (w : jstr) :
  Forall (fun c => is_ws c = true) w -> forall n, (length w <= n)%nat -> In [] (star (mt c_ws) n w).
Proof.
  induction w as [|c w IH]; intros Hw n Hn.
  - destruct n; simpl; left; reflexivity.
  - inversion Hw as [|? ? Hc Hw']; subst. destruct n as [|n]; [simpl in Hn; lia|].
    cbn [star]. apply in_or_app. left. cbn [mt c_ws]. rewrite Hc. cbn [flat_map].
    rewrite app_nil_r. cbn [length]. rewrite (proj2 (Nat.ltb_lt _ _)) by lia.
    apply IH; [exact Hw'|simpl in Hn; lia].
Qed.

Lemma mt_lit (l r : jstr) : mt (RLit l) (l ++ r) = [r].
Proof. simpl. rewrite starts_with_self, drop_app_length. reflexivity. Qed.

Lemma in_mt_seq (a b : re) (s u t : jstr) : In u (mt a s) -> In t (mt b u) -> In t (mt (RSeq a b) s).
Proof. intros H1 H2. simpl. apply in_flat_map. exists u. split; assumption. Qed.

Lemma ws_tail_end (w : jstr) :
  Forall (fun c => is_ws c = true) w -> In [] (mt (RSeq (RStar c_ws) REnd) w).
Proof.
  intros Hw. apply (in_mt_seq _ _ _ []); [|left; reflexivity].
  simpl. apply star_ws; [exact Hw|lia].
Qed.

Lemma ends_with_single (p : jstr) (t : N) : ends_with p [t] = true -> exists q, p = q ++ [t].
Proof.
  unfold ends_with. simpl. destruct (rev p) as [|y r] eqn:Hr; [discriminate|].
  simpl. intros H. apply andb_prop in H as [H _]. apply N.eqb_eq in H. subst y.
  exists (rev r). rewrite <- (rev_involutive p), Hr. reflexivity.
Qed.

Lemma trim_start_prefix (s : jstr) : exists a, s = a ++ trim_start s.
Proof.
  induction s as [|c s [a Ha]]; [exists []; reflexivity|]. simpl.
  destruct (is_ws c); [exists (c :: a); simpl; f_equal; exact Ha|exists []; reflexivity].
Qed.

Lemma trim_start_snoc (q : jstr) (c : N) : is_ws c = false -> trim_start (q ++ [c]) = trim_start q ++ [c].
Proof.
  intros Hc. induction q as [|x q IH]; simpl; [rewrite Hc; reflexivity|].
  destruct (is_ws x); [exact IH|reflexivity].
Qed.

Lemma trim_end_snoc (u : jstr) (c : N) : is_ws c = false -> trim_end (u ++ [c]) = u ++ [c].
Proof.
  intros Hc. unfold trim_end. rewrite rev_app_distr. simpl. rewrite Hc.
  simpl. rewrite rev_involutive. reflexivity.
Qed.

(** A prompt base that does not end in white space keeps all but its leading
    white space under [trim]. *)
Lemma trim_base (q : jstr) :
  (forall c, last q = Some c -> is_ws c = false) -> exists a, q = a ++ trim q.
Proof.
  intros Hq. destruct q as [|x q'] using rev_ind; [exists []; reflexivity|].
  clear IHq'. rewrite last_snoc in Hq. specialize (Hq x eq_refl).
  unfold trim. rewrite trim_start_snoc by exact Hq. rewrite trim_end_snoc by exact Hq.
  destruct (trim_start_prefix q') as [a Ha]. exists a. rewrite app_assoc, <- Ha. reflexivity.
Qed.

Lemma buildPromptRegex_matches_prompt (p x w : jstr) :
  (forall q c t, p = q ++ [c; t] -> PromptDetector.is_terminator t = true -> is_ws c = false) ->
  Forall (fun c => is_ws c = true) w ->
  re_test (PromptDetector.buildPromptRegex p) (x ++ p ++ w) = true.
Proof.
  intros Hp Hw. unfold PromptDetector.buildPromptRegex.
  destruct (find (fun t => ends_with p [t]) PromptDetector.PROMPT_TERMINATORS) as [t|] eqn:Hf.
  - apply find_some in Hf as [Ht Hend].
    assert (Hterm : PromptDetector.is_terminator t = true).
    { unfold PromptDetector.is_terminator. apply existsb_exists. exists t. split; [exact Ht|apply N.eqb_refl]. }
    destruct (ends_with_single p t Hend) as [q ->].
    rewrite length_app. cbn [length]. rewrite Nat.add_sub, take_app_length.
    destruct (trim_base q) as [a Ha].
    { intros c Hc. apply last_Some in Hc as [q' ->]. apply (Hp q' c t); [|exact Hterm].
      rewrite <- app_assoc. reflexivity. }
    set (B := trim q) in *.
    replace (x ++ (q ++ [t]) ++ w) with ((x ++ a) ++ B ++ t :: w)
      by (rewrite Ha; rewrite <- !app_assoc; reflexivity).
    apply re_test_app. apply (re_test_of_mt _ _ []).
    cbn [rseq]. apply (in_mt_seq _ _ _ (t :: w)); [rewrite mt_lit; left; reflexivity|].
    apply (in_mt_seq _ _ _ (t :: w)); [simpl; apply in_or_app; right; left; reflexivity|].
    apply (in_mt_seq _ _ _ w); [|apply ws_tail_end; exact Hw].
    change (t :: w) with ([t] ++ w). rewrite mt_lit. left. reflexivity.
  - apply re_test_app. apply (re_test_of_mt _ _ []). cbn [rseq].
    apply (in_mt_seq _ _ _ w); [rewrite mt_lit; left; reflexivity|]. apply ws_tail_end. exact Hw.
Qed.

(** Extra X4: a buffer that ends with a prompt followed only by spaces or tabs, within its last 200 code units, satisfies bufferEndsWithPrompt for the regex built from that prompt, provided the prompt's base does not end in white space. *)
Theorem bufferEndsWithPrompt_own_prompt (buffer p w : jstr) :
  (forall q c t, p = q ++ [c; t] -> PromptDetector.is_terminator t = true -> is_ws c = false) ->
  Forall (fun c => is_ws c = true) w ->
  (length (p ++ w) <= 200)%nat ->
  PromptDetector.bufferEndsWithPrompt (buffer ++ p ++ w) (PromptDetector.buildPromptRegex p) = true.
Proof.
  intros Hp Hw Hlen. unfold PromptDetector.bufferEndsWithPrompt, slice_last. cbv zeta.
  rewrite drop_app_le by (rewrite !length_app in *; lia).
  apply buildPromptRegex_matches_prompt; assumption.
Qed.

(** Extra X5: tryDetectDifferentPrompt never reports the current prompt itself as a different prompt, when the prompt's base does not end in white space. *)
Theorem tryDetectDifferentPrompt_not_current (buffer p : jstr) :
  (forall q c t, p = q ++ [c; t] -> PromptDetector.is_terminator t = true -> is_ws c = false) ->
  PromptDetector.tryDetectDifferentPrompt buffer (PromptDetector.buildPromptRegex p) <> Some p.
Proof.
  intros Hp H. apply different_prompt_last_spec in H as (_ & _ & _ & _ & _ & _ & Hr & _).
  pose proof (buildPromptRegex_matches_prompt p [] [] Hp (List.Forall_nil _)) as Hm.
  rewrite app_nil_r in Hm. simpl in Hm. congruence.
Qed.

Section NormalizeOutput.
Import TerminalOutputProcessor.

Local Abbreviation P := (fun c : N => SPACE <= c).

Lemma write_at_printable (cur : jstr) (pos : nat) (ch : N) :
  Forall P cur -> P ch -> Forall P (write_at cur pos ch).
Proof.
  intros Hc Hch. unfold write_at. destruct (Nat.ltb pos (length cur)).
  - apply Forall_app; split; [apply Forall_take; exact Hc|]. constructor; [exact Hch|]. apply Forall_drop. exact Hc.
  - apply Forall_app; split; [exact Hc|]. constructor; [exact Hch|constructor].
Qed.

Lemma tab_fill_printable (k : nat) : forall cur pos, Forall P cur -> Forall P (fst (tab_fill k cur pos)).
Proof.
  induction k as [|k IH]; intros cur pos Hc; [exact Hc|]. simpl. apply IH.
  apply write_at_printable; [exact Hc|]. unfold SPACE; cbv beta. lia.
Qed.

Lemma norm_go_lines_printable (n : nat) :
  forall inp csi res cur pos, (length inp <= n)%nat -> Forall (Forall P) res -> Forall P cur ->
  Forall (Forall P) (fst (norm_go inp csi res cur pos)) /\ Forall P (snd (norm_go inp csi res cur pos)).
Proof.
  induction n as [|n IH]; intros inp csi res cur pos Hn Hres Hcur.
  { destruct inp; [split; assumption|simpl in Hn; lia]. }
  destruct inp as [|c rest]; [split; assumption|]. simpl in Hn.
  cbn [norm_go]. destruct csi; [apply IH; (lia || assumption)|].
  destruct (c =? CR); [apply IH; (lia || assumption)|].
  destruct (c =? LF).
  { apply IH; [lia| |constructor]. apply Forall_app; split; [exact Hres|]. constructor; [exact Hcur|constructor]. }
  destruct (c =? TAB).
  { destruct (tab_fill (8 - Nat.modulo pos 8) cur pos) as [cur' pos'] eqn:Ht.
    apply IH; [lia|exact Hres|]. pose proof (tab_fill_printable (8 - Nat.modulo pos 8) cur pos Hcur) as H.
    rewrite Ht in H. exact H. }
  destruct (c =? BACKSPACE); [apply IH; (lia || assumption)|].
  destruct (c =? BELL); [apply IH; (lia || assumption)|].
  destruct (c =? ESC).
  { destruct rest as [|d rest']; [apply IH; (simpl; lia || assumption)|].
    simpl in Hn. repeat case_match; apply IH; (simpl; lia || assumption). }
  destruct (SPACE <=? c) eqn:Hs; [|apply IH; (lia || assumption)].
  apply IH; [lia|exact Hres|]. apply write_at_printable; [exact Hcur|]. cbv beta. apply N.leb_le. exact Hs.
Qed.

Lemma join_lines_printable (l : list jstr) :
  Forall (Forall P) l -> Forall (fun c => c = LF \/ P c) (join [LF] l).
Proof.
  induction l as [|x l IH]; intros Hl; [constructor|].
  inversion Hl as [|? ? Hx Hl']; subst.
  assert (Hx' : Forall (fun c => c = LF \/ P c) x) by (eapply Forall_impl; [exact Hx|]; intros; right; assumption).
  destruct l as [|y l]; [exact Hx'|].
  change (join [LF] (x :: y :: l)) with (x ++ [LF] ++ join [LF] (y :: l)).
  apply Forall_app; split; [exact Hx'|]. constructor; [left; reflexivity|]. apply IH. exact Hl'.
Qed.

End NormalizeOutput.

(** Extra X6: every character of the output of normalize is a line feed or at least a space: normalize leaves no control characters. *)
Theorem normalize_output_no_controls (input : jstr) :
  Forall (fun c => c = LF \/ SPACE <= c) (TerminalOutputProcessor.normalize input).
Proof.
  unfold TerminalOutputProcessor.normalize. destruct input as [|c t]; [constructor|].
  pose proof (norm_go_lines_printable (length (c :: t)) (c :: t) false (@nil jstr) [] 0 (le_n _) (List.Forall_nil _) (List.Forall_nil _)) as [H1 H2].
  revert H1 H2. destruct (TerminalOutputProcessor.norm_go (c :: t) false [] [] 0) as [res cur].
  cbn [fst snd]. intros H1 H2.
  apply join_lines_printable. destruct cur; [exact H1|].
  apply Forall_app; split; [exact H1|]. constructor; [exact H2|constructor].
Qed.

Lemma replace_all_go_sublist (r : re) (fuel : nat) :
  forall s, replace_all_go fuel r s `sublist_of` s.
Proof.
  induction fuel as [|f IH]; intros s; simpl; [reflexivity|].
  destruct (re_find r s 0) as [[k l]|]; [|reflexivity].
  apply (transitivity (y := take k s ++ drop k s)); [|rewrite take_drop; reflexivity].
  destruct (Nat.eqb l 0).
  - apply sublist_app; [reflexivity|]. destruct (drop k s) as [|c t]; [reflexivity|].
    apply sublist_skip. apply IH.
  - apply sublist_app; [reflexivity|]. etrans; [apply IH|].
    rewrite <- drop_drop. apply sublist_drop.
Qed.

Lemma re_find_class (p : N -> bool) (s : jstr) :
  forall k, (re_find (RClass p) s k = None /\ Forall (fun c => p c = false) s)
  \/ exists a c b, s = a ++ c :: b /\ Forall (fun c => p c = false) a /\ p c = true
                 /\ re_find (RClass p) s k = Some (k + length a, 1)%nat.
Proof.
  induction s as [|c s IH]; intros k; [left; split; [reflexivity|constructor]|].
  simpl. destruct (p c) eqn:Hc.
  - right. exists [], c, s. split; [reflexivity|]. split; [constructor|]. split; [exact Hc|].
    simpl. rewrite Nat.add_0_r. f_equal. f_equal. lia.
  - destruct (IH (S k)) as [[H1 H2]|(a & c' & b & -> & Ha & Hc' & H)].
    + left. split; [exact H1|]. constructor; assumption.
    + right. exists (c :: a), c', b. split; [reflexivity|]. split; [constructor; assumption|].
      split; [exact Hc'|]. rewrite H. simpl. f_equal. f_equal. lia.
Qed.

Lemma replace_all_class (p : N -> bool) (fuel : nat) :
  forall s, (length s < fuel)%nat -> Forall (fun c => p c = false) (replace_all_go fuel (RClass p) s).
Proof.
  induction fuel as [|f IH]; intros s Hs; [lia|]. simpl.
  destruct (re_find_class p s 0) as [[H1 H2]|(a & c & b & -> & Ha & Hc & H)].
  - rewrite H1. exact H2.
  - rewrite H. simpl. rewrite take_app_length.
    replace (length a + 1)%nat with (length (a ++ [c])) by (rewrite length_app; reflexivity).
    replace (a ++ c :: b) with ((a ++ [c]) ++ b) by (rewrite <- app_assoc; reflexivity).
    rewrite drop_app_length. apply Forall_app; split; [exact Ha|].
    apply IH. rewrite !length_app in Hs. simpl in Hs. lia.
Qed.

Lemma removed_control_false (c : N) :
  TerminalOutputProcessor.is_removed_control c = false ->
  c = TAB \/ c = LF \/ c = CR \/ (SPACE <= c /\ c <> 127).
Proof.
  unfold TerminalOutputProcessor.is_removed_control, TAB, LF, CR, SPACE.
  intros H. repeat rewrite orb_false_iff in H.
  destruct H as [[[[H1 H2] H3] H4] H5].
  apply N.leb_gt in H1. apply N.eqb_neq in H2, H3, H5.
  apply andb_false_iff in H4 as [H4|H4]; [apply N.leb_gt in H4|apply N.leb_gt in H4]; lia.
Qed.

(** Extra X7: sanitize only deletes characters (its result is a sublist of its input), and what it keeps is tab, line feed, carriage return or a printable character other than DEL; hence visibleLength never exceeds the length of its input. *)
Theorem sanitize_keeps_text_drops_controls (input : jstr) :
  TerminalOutputProcessor.sanitize input `sublist_of` input
  /\ Forall (fun c => c = TAB \/ c = LF \/ c = CR \/ (SPACE <= c /\ c <> 127))
            (TerminalOutputProcessor.sanitize input)
  /\ (TerminalOutputProcessor.visibleLength input <= length input)%nat.
Proof.
  assert (Hsub : TerminalOutputProcessor.sanitize input `sublist_of` input).
  { unfold TerminalOutputProcessor.sanitize. destruct input as [|c t]; [reflexivity|].
    unfold replace_all. etrans; apply replace_all_go_sublist. }
  split; [exact Hsub|]. split.
  - unfold TerminalOutputProcessor.sanitize. destruct input as [|c t]; [constructor|].
    unfold replace_all at 1.
    eapply Forall_impl; [apply replace_all_class; lia|]. intros x Hx. apply removed_control_false. exact Hx.
  - unfold TerminalOutputProcessor.visibleLength. apply sublist_length. exact Hsub.
Qed.

Lemma mt_char_cons (x y : N) (s : jstr) : mt (c_char x) (y :: s) = if x =? y then [s] else [].
Proof. reflexivity. Qed.

Lemma star_spaces (t : jstr) (m : nat) :
  forall fuel, (length (repeat SPACE m ++ CR :: t) <= fuel)%nat ->
  exists rest, star (mt (c_char SPACE)) fuel (repeat SPACE m ++ CR :: t) = (CR :: t) :: rest.
Proof.
  induction m as [|m IH]; intros fuel Hf; destruct fuel as [|fuel]; simpl in Hf; try lia.
  - simpl. eexists. reflexivity.
  - cbn [repeat app star]. rewrite mt_char_cons, N.eqb_refl. cbn [flat_map].
    rewrite app_nil_r. cbn [length]. rewrite (proj2 (Nat.ltb_lt _ _)) by lia.
    destruct (IH fuel ltac:(lia)) as [rest ->]. eexists. reflexivity.
Qed.

Lemma mt_seq (a b : re) (s : jstr) : mt (RSeq a b) s = flat_map (mt b) (mt a s).
Proof. reflexivity. Qed.

Lemma mt_plus (a : re) (s : jstr) : mt (RPlus a) s = flat_map (fun t => star (mt a) (length t) t) (mt a s).
Proof. reflexivity. Qed.

(** Extra X8: stripPagerDismissalArtifacts removes a leading carriage return, one or more spaces and a carriage return, and returns a text that does not start with a carriage return unchanged. *)
Theorem stripPagerDismissalArtifacts_prefix :
  (forall (n : nat) (t : jstr), (1 <= n)%nat ->
     TerminalOutputProcessor.stripPagerDismissalArtifacts (CR :: repeat SPACE n ++ CR :: t) = t)
  /\ (forall text, head text <> Some CR -> TerminalOutputProcessor.stripPagerDismissalArtifacts text = text).
Proof.
  split.
  - intros n t Hn. destruct n as [|m]; [lia|].
    unfold TerminalOutputProcessor.stripPagerDismissalArtifacts. cbn [rseq].
    rewrite mt_seq, mt_char_cons, N.eqb_refl. cbn [flat_map]. rewrite app_nil_r.
    rewrite mt_seq, mt_plus. cbn [repeat app]. rewrite mt_char_cons, N.eqb_refl. cbn [flat_map].
    rewrite app_nil_r.
    destruct (star_spaces t m (length (repeat SPACE m ++ CR :: t)) (le_n _)) as [rest ->].
    cbn [flat_map]. rewrite mt_char_cons, N.eqb_refl. reflexivity.
  - intros text Hh. unfold TerminalOutputProcessor.stripPagerDismissalArtifacts.
    destruct text as [|c t]; [reflexivity|]. cbn [rseq]. rewrite mt_seq, mt_char_cons.
    destruct (CR =? c) eqn:Hc; [apply N.eqb_eq in Hc; subst c; simpl in Hh; congruence|].
    reflexivity.
Qed.

Section Substitution.
Import ScriptContext.

Lemma starts_with_head_neq (x y : N) (t p : jstr) : x <> y -> starts_with (x :: t) (y :: p) = false.
Proof. intros H. simpl. destruct (N.eqb_spec y x); [congruence|reflexivity]. Qed.

Lemma get_substitution_plain (repl m b a : jstr) : ~ In 36 repl -> get_substitution repl m b a = repl.
Proof.
  induction repl as [|x t IH]; intros Hin; [reflexivity|].
  assert (Hx : x <> 36) by (intros ->; apply Hin; left; reflexivity).
  assert (Ht : ~ In 36 t) by (intros H; apply Hin; right; exact H).
  rewrite <- (IH Ht) at 2.
  destruct x as [|p]; [reflexivity|].
  repeat (destruct p as [p|p|]; try reflexivity); congruence.
Qed.

Lemma brace_body_head (s b : jstr) : brace_body s = Some b -> head s = Some 36.
Proof.
  unfold brace_body. intros H. destruct s as [|x t]; [discriminate|].
  destruct x as [|p]; [discriminate|].
  repeat (destruct p as [p|p|]; try discriminate). reflexivity.
Qed.

Lemma subst_refs_go_plain (c : ScriptContext) (s : jstr) : ~ In 36 s -> subst_refs_go c s 0 = s.
Proof.
  induction s as [|x t IH]; intros Hin; [reflexivity|].
  assert (Hx : x <> 36) by (intros ->; apply Hin; left; reflexivity).
  cbn [subst_refs_go]. destruct (brace_body (x :: t)) as [b|] eqn:Hb.
  - apply brace_body_head in Hb. simpl in Hb. congruence.
  - rewrite IH; [reflexivity|]. intros H; apply Hin; right; exact H.
Qed.

Lemma output_pattern : js "${_output}" = 36 :: js "{_output}".
Proof. reflexivity. Qed.

Lemma subst_output_go_cons0 (orig repl : jstr) (x : N) (t : jstr) (k : nat) :
  subst_output_go orig repl (x :: t) k 0 =
  if starts_with (x :: t) (js "${_output}")
  then get_substitution repl (js "${_output}") (take k orig) (drop (k + length (js "${_output}")) orig)
       ++ subst_output_go orig repl t (S k) (length (js "{_output}"))
  else x :: subst_output_go orig repl t (S k) 0.
Proof. reflexivity. Qed.

Lemma starts_with_output_neq (x : N) (t : jstr) : x <> 36 -> starts_with (x :: t) (js "${_output}") = false.
Proof. intros H. rewrite output_pattern. apply starts_with_head_neq. congruence. Qed.

Lemma subst_output_go_plain (orig repl : jstr) (x : jstr) :
  ~ In 36 x -> forall s k, subst_output_go orig repl (x ++ s) k 0 = x ++ subst_output_go orig repl s (k + length x) 0.
Proof.
  induction x as [|y x IH]; intros Hin s k; [simpl; rewrite Nat.add_0_r; reflexivity|].
  assert (Hy : y <> 36) by (intros ->; apply Hin; left; reflexivity).
  cbn [app]. rewrite subst_output_go_cons0, starts_with_output_neq by exact Hy.
  rewrite IH by (intros H; apply Hin; right; exact H).
  cbn [length]. rewrite Nat.add_succ_r. reflexivity.
Qed.

Lemma subst_output_go_skip (orig repl : jstr) (z : jstr) :
  forall s k, subst_output_go orig repl (z ++ s) k (length z) = subst_output_go orig repl s (k + length z) 0.
Proof.
  induction z as [|y z IH]; intros s k; [simpl; rewrite Nat.add_0_r; reflexivity|].
  cbn [app length subst_output_go]. rewrite IH. rewrite Nat.add_succ_r. reflexivity.
Qed.

End Substitution.

(** Extra X9: substituteVariables returns a string without any dollar sign unchanged. *)
Theorem substituteVariables_no_placeholder (c : ScriptContext.ScriptContext) (s : jstr) :
  ~ In 36 s -> ScriptContext.substituteVariables c s = s.
Proof.
  intros Hin. unfold ScriptContext.substituteVariables. destruct s as [|x t]; [reflexivity|].
  rewrite <- (app_nil_r (x :: t)) at 2.
  rewrite (subst_output_go_plain _ _ (x :: t) Hin [] 0). simpl ScriptContext.subst_output_go. rewrite app_nil_r.
  apply subst_refs_go_plain. exact Hin.
Qed.

(** Extra X10: after recordCommandOutput, a single ${_output} placeholder is replaced by the recorded output verbatim, when neither the surrounding text nor the output contains a dollar sign. *)
Theorem substituteVariables_output_verbatim
    (c : ScriptContext.ScriptContext) (out : jstr) (cap : option jstr) (x y : jstr) :
  ~ In 36 x -> ~ In 36 y -> ~ In 36 out ->
  ScriptContext.substituteVariables (ScriptContext.recordCommandOutput c out cap) (x ++ js "${_output}" ++ y)
  = x ++ out ++ y.
Proof.
  intros Hx Hy Ho.
  assert (Hl : ScriptContext.lastCommandOutput (ScriptContext.recordCommandOutput c out cap) = out)
    by (destruct cap as [[|? ?]|]; reflexivity).
  unfold ScriptContext.substituteVariables. rewrite Hl.
  destruct (x ++ js "${_output}" ++ y) as [|z w] eqn:E.
  { destruct x; discriminate. }
  rewrite <- E. clear z w E.
  set (orig := x ++ js "${_output}" ++ y).
  unfold orig at 2. rewrite (subst_output_go_plain orig out x Hx). rewrite Nat.add_0_l.
  rewrite output_pattern. cbn [app]. rewrite subst_output_go_cons0.
  replace (36 :: js "{_output}" ++ y) with (js "${_output}" ++ y) by reflexivity.
  rewrite starts_with_self.
  rewrite get_substitution_plain by exact Ho.
  rewrite subst_output_go_skip.
  rewrite <- (app_nil_r y) at 1. rewrite (subst_output_go_plain orig out y Hy). simpl ScriptContext.subst_output_go.
  rewrite app_nil_r.
  apply subst_refs_go_plain. intros H. apply in_app_or in H as [H|H]; [exact (Hx H)|].
  apply in_app_or in H as [H|H]; [exact (Ho H)|exact (Hy H)].
Qed.

Lemma take_while_app_stop (p : N -> bool) (w : jstr) (y : N) (r : jstr) :
  Forall (fun c => p c = true) w -> p y = false -> ScriptContext.take_while p (w ++ y :: r) = (w, y :: r).
Proof.
  induction w as [|x w IH]; intros Hw Hy.
  - simpl. rewrite Hy. reflexivity.
  - inversion Hw as [|? ? Hx Hw']; subst. simpl. rewrite Hx, IH by assumption. reflexivity.
Qed.

Lemma array_match_index (w idx : jstr) :
  w <> [] -> Forall (fun c => ScriptContext.is_word c = true) w -> idx <> [] -> ~ In 93 idx ->
  ScriptContext.array_match (w ++ [91] ++ idx ++ [93]) = Some (w, idx).
Proof.
  intros Hw Hword Hi Hin. unfold ScriptContext.array_match.
  rewrite (take_while_app_stop _ w 91 (idx ++ [93])) by (assumption || reflexivity).
  rewrite (take_while_app_stop _ idx 93 []).
  - destruct w; [congruence|]. destruct idx; [congruence|]. reflexivity.
  - apply List.Forall_forall. intros c Hc. destruct (N.eqb_spec c 93); [subst; contradiction|reflexivity].
  - reflexivity.
Qed.

(** Extra X11: an expression name[idx] whose index parses as the integer i resolves to the i-th element of the variable's list, or to the empty string when i is negative or out of range. *)
Theorem resolveVariableExpression_index (c : ScriptContext.ScriptContext) (w idx : jstr) (i : Z) :
  w <> [] -> Forall (fun ch => ScriptContext.is_word ch = true) w -> ~ In 93 idx ->
  parseInt idx = Some i ->
  ScriptContext.resolveVariableExpression c (w ++ [91] ++ idx ++ [93])
  = if (0 <=? i)%Z then default [] (ScriptContext.getVariableList c w !! Z.to_nat i) else [].
Proof.
  intros Hw Hword Hin Hp.
  assert (Hi : idx <> []) by (intros ->; vm_compute in Hp; discriminate).
  unfold ScriptContext.resolveVariableExpression. rewrite array_match_index by assumption.
  rewrite Hp. destruct (Z.leb_spec 0 i); [|reflexivity]. simpl.
  destruct (Z.ltb_spec i (Z.of_nat (length (ScriptContext.getVariableList c w)))); [reflexivity|].
  rewrite lookup_ge_None_2; [reflexivity|]. apply Nat2Z.inj_le. rewrite Z2Nat.id by lia. assumption.
Qed.

Lemma join_app_prefix (sep : jstr) (a b : list jstr) : exists t, join sep (a ++ b) = join sep a ++ t.
Proof.
  induction a as [|x [|y a] IH].
  - exists (join sep b). reflexivity.
  - destruct b as [|z b].
    + exists []. simpl. rewrite app_nil_r. reflexivity.
    + exists (sep ++ join sep (z :: b)). reflexivity.
  - destruct IH as [t Ht]. exists t. cbn [app] in *. change (join sep (x :: y :: a ++ b)) with (x ++ sep ++ join sep (y :: a ++ b)).
    rewrite Ht. change (join sep (x :: y :: a)) with (x ++ sep ++ join sep (y :: a)). rewrite !app_assoc. reflexivity.
Qed.

Lemma importScriptVars_output (vars : list (jstr * value)) :
  forall c, ScriptContext.output (ScriptContext.importScriptVars c vars) = ScriptContext.output c.
Proof.
  unfold ScriptContext.importScriptVars. induction vars as [|[k v] vars IH]; intros c; [reflexivity|].
  simpl. rewrite IH. destruct (ScriptContext.variables c !! to_lower k); reflexivity.
Qed.

Lemma apply_op_output_grows (c : ScriptContext.ScriptContext) (op : ScriptContext.ctx_op) :
  op <> ScriptContext.OpClearOutput ->
  exists t, ScriptContext.output (ScriptContext.apply_op c op) = ScriptContext.output c ++ t.
Proof.
  intros Hop. destruct op as [n v|o cap|m ty| |col v|vars|b]; simpl.
  - exists []. rewrite app_nil_r. reflexivity.
  - exists [o]. destruct cap as [[|? ?]|]; reflexivity.
  - unfold ScriptContext.emitOutput. destruct ty; try (exists [m]; reflexivity).
    destruct (ScriptContext.debugMode c); [exists [m]; reflexivity|exists []; rewrite app_nil_r; reflexivity].
  - congruence.
  - exists []. rewrite app_nil_r. reflexivity.
  - exists []. rewrite importScriptVars_output, app_nil_r. reflexivity.
  - exists []. rewrite app_nil_r. reflexivity.
Qed.

(** Extra X12: as long as clearOutput is not called, the full output only grows. *)
Theorem getFullOutput_only_grows (c : ScriptContext.ScriptContext) (ops : list ScriptContext.ctx_op) :
  Forall (fun op => op <> ScriptContext.OpClearOutput) ops ->
  exists t, ScriptContext.getFullOutput (ScriptContext.apply_ops c ops) = ScriptContext.getFullOutput c ++ t.
Proof.
  intros Hops. unfold ScriptContext.getFullOutput.
  assert (H : exists t, ScriptContext.output (ScriptContext.apply_ops c ops) = ScriptContext.output c ++ t).
  { unfold ScriptContext.apply_ops. revert c. induction Hops as [|op ops Hop Hops IH]; intros c.
    - exists []. rewrite app_nil_r. reflexivity.
    - simpl. destruct (apply_op_output_grows c op Hop) as [t1 Ht1].
      destruct (IH (ScriptContext.apply_op c op)) as [t2 Ht2]. exists (t1 ++ t2).
      rewrite Ht2, Ht1, app_assoc. reflexivity. }
  destruct H as [t Ht]. rewrite Ht. apply join_app_prefix.
Qed.

Lemma fold_insert_lower_lookup (entries : list (jstr * jstr)) (m : gmap jstr value) (key : jstr) :
  fold_left (fun m '(k, v) => <[to_lower k := VStr v]> m) entries m !! key
  = match find (fun '(k, _) => bool_decide (to_lower k = key)) (rev entries) with
    | Some (_, v) => Some (VStr v)
    | None => m !! key
    end.
Proof.
  induction entries as [|[k v] entries IH] using rev_ind; [reflexivity|].
  rewrite fold_left_app, rev_app_distr. cbn [fold_left rev app find].
  destruct (bool_decide_reflect (to_lower k = key)) as [<-|Hne].
  - apply lookup_insert_eq.
  - rewrite lookup_insert_ne by exact Hne. exact IH.
Qed.

(** Extra X13: a fresh context maps _timestamp to the timestamp, each other name to the value of the last initial entry whose key equals it case-insensitively, and is otherwise undefined. *)
Theorem create_initial_variables (init : option (list (jstr * jstr))) (ts name : jstr) :
  ScriptContext.getVariable (ScriptContext.create init ts) name
  = if bool_decide (to_lower name = js "_timestamp") then VStr ts
    else match init with
         | Some entries =>
             match find (fun '(k, _) => bool_decide (to_lower k = to_lower name)) (rev entries) with
             | Some (_, v) => VStr v
             | None => VUndef
             end
         | None => VUndef
         end.
Proof.
  unfold ScriptContext.getVariable, ScriptContext.create. simpl.
  destruct (bool_decide_reflect (to_lower name = js "_timestamp")) as [->|Hne].
  - rewrite lookup_insert_eq. reflexivity.
  - rewrite lookup_insert_ne by congruence. destruct init as [entries|]; [|reflexivity].
    rewrite fold_insert_lower_lookup. destruct (find _ _) as [[? ?]|]; reflexivity.
Qed.

Lemma starts_with_in (p : jstr) : forall s y, starts_with s p = true -> In y p -> In y s.
Proof.
  induction p as [|x p IH]; intros s y H Hy; [destruct Hy|].
  destruct s as [|x' s]; [discriminate|]. simpl in H. apply andb_prop in H as [Hx H].
  apply N.eqb_eq in Hx. subst x'. destruct Hy as [->|Hy]; [left; reflexivity|right; exact (IH s y H Hy)].
Qed.

Lemma ends_with_in (s p : jstr) (y : N) : ends_with s p = true -> In y p -> In y s.
Proof.
  unfold ends_with. intros H Hy. apply in_rev. apply (starts_with_in (rev p)); [exact H|].
  apply -> in_rev. exact Hy.
Qed.

Lemma includes_in (p : jstr) : forall s y, includes s p = true -> In y p -> In y s.
Proof.
  induction s as [|x s IH]; intros y H Hy; cbn [includes] in H.
  - rewrite orb_false_r in H. exact (starts_with_in p [] y H Hy).
  - apply orb_prop in H as [H|H]; [exact (starts_with_in p _ y H Hy)|right; exact (IH y H Hy)].
Qed.

Lemma is_word_ascii (c : N) : ScriptContext.is_word c = true -> c < 128.
Proof.
  unfold ScriptContext.is_word. intros H.
  rewrite ?orb_true_iff, ?andb_true_iff, ?N.leb_le, ?N.eqb_eq in H. lia.
Qed.

Lemma is_word_lower (c : N) :
  ScriptContext.is_word c = true ->
  ScriptContext.is_word (if (65 <=? c) && (c <=? 90) then c + 32 else c) = true.
Proof.
  intros H. destruct ((65 <=? c) && (c <=? 90)) eqn:E; [|exact H].
  unfold ScriptContext.is_word in *.
  rewrite ?orb_true_iff, ?andb_true_iff, ?N.leb_le, ?N.eqb_eq in *. lia.
Qed.

Lemma word_to_lower (w : jstr) :
  Forall (fun c => ScriptContext.is_word c = true) w -> Forall (fun c => ScriptContext.is_word c = true) (to_lower w).
Proof.
  intros H. rewrite to_lower_ascii by (eapply Forall_impl; [exact H|]; intros c; apply is_word_ascii).
  apply Forall_map. eapply Forall_impl; [exact H|]. intros c. apply is_word_lower.
Qed.

Lemma word_not_in (w : jstr) (y : N) :
  Forall (fun c => ScriptContext.is_word c = true) w -> ScriptContext.is_word y = false -> ~ In y w.
Proof. intros H Hy Hin. rewrite List.Forall_forall in H. rewrite (H y Hin) in Hy. discriminate. Qed.

Lemma findLogicalOperator_word (w op : jstr) :
  Forall (fun c => ScriptContext.is_word c = true) w -> head op = Some 32 ->
  ExpressionEvaluator.findLogicalOperator w op = None.
Proof.
  intros Hw Hop. apply findLogicalOperator_absent.
  - eapply Forall_impl; [exact Hw|]. intros c Hc. unfold ScriptContext.is_word, ExpressionEvaluator.is_quote in *.
    apply not_true_is_false. intros Hq.
    rewrite ?orb_true_iff, ?andb_true_iff, ?N.leb_le, ?N.eqb_eq in *. lia.
  - intros j _. apply not_true_is_false. intros H.
    destruct op as [|o op]; [discriminate|]. injection Hop as ->.
    apply (starts_with_in _ _ 32) in H; [|left; reflexivity].
    apply (word_not_in (to_lower (drop j w)) 32); [|reflexivity|exact H].
    apply word_to_lower, Forall_drop, Hw.
Qed.

(** Extra X14: a bare word is the truthiness of the variable it names; otherwise it is read as a number when it parses as one, and is true unless it is the word false. *)
Theorem evaluate_bare_word (regexTestI : jstr -> jstr -> option bool) (ctx : ScriptContext.ScriptContext) (w : jstr) :
  w <> [] -> Forall (fun c => ScriptContext.is_word c = true) w ->
  ExpressionEvaluator.evaluate regexTestI ctx w
  = if ScriptContext.hasVariable ctx w then ExpressionEvaluator.isTruthy (ScriptContext.getVariable ctx w)
    else match parseFloat w with
         | JNaN => negb (ExpressionEvaluator.jstr_eqb (to_lower w) (js "false"))
         | n => ExpressionEvaluator.isTruthy (VNum n)
         end.
Proof.
  intros Hne Hw.
  assert (Hws : forall c, ScriptContext.is_word c = true -> is_ws c = false).
  { intros c Hc. unfold ScriptContext.is_word, is_ws in *. apply not_true_is_false. intros Hs.
    rewrite ?orb_true_iff, ?andb_true_iff, ?N.leb_le, ?N.eqb_eq in *. lia. }
  assert (Ht : trim w = w).
  { destruct w as [|a t]; [congruence|]. destruct (last (a :: t)) as [z|] eqn:Hz.
    - rewrite List.Forall_forall in Hw. apply (trim_id _ a z); [reflexivity| |exact Hz|].
      + apply Hws, Hw. left; reflexivity.
      + apply Hws, Hw. apply last_Some in Hz as [l Hl]. rewrite Hl. apply in_or_app. right; left; reflexivity.
    - apply last_None in Hz. discriminate. }
  assert (Hlw := word_to_lower w Hw).
  assert (Hnot : forall p y, In y p -> ScriptContext.is_word y = false -> starts_with w p = false).
  { intros p y Hy Hy'. apply not_true_is_false. intros H. exact (word_not_in w y Hw Hy' (starts_with_in p w y H Hy)). }
  assert (Hnotl : forall p y, In y p -> ScriptContext.is_word y = false -> starts_with (to_lower w) p = false).
  { intros p y Hy Hy'. apply not_true_is_false. intros H.
    exact (word_not_in _ y Hlw Hy' (starts_with_in p _ y H Hy)). }
  assert (Hend : forall p y, In y p -> ScriptContext.is_word y = false -> ends_with (to_lower w) p = false).
  { intros p y Hy Hy'. apply not_true_is_false. intros H. exact (word_not_in _ y Hlw Hy' (ends_with_in _ p y H Hy)). }
  assert (Hinc : includes w (js "${") = false).
  { apply not_true_is_false. intros H. apply (word_not_in w 36 Hw); [reflexivity|].
    apply (includes_in (js "${") w 36 H). left; reflexivity. }
  assert (Hop : forall op, head op = Some 32 -> ExpressionEvaluator.findLogicalOperator w op = None)
    by (intros op; apply findLogicalOperator_word, Hw).
  change (ExpressionEvaluator.evaluate regexTestI ctx w)
    with (ExpressionEvaluator.eval_step regexTestI ctx (ExpressionEvaluator.eval_fuel regexTestI ctx (length w)) w).
  unfold ExpressionEvaluator.eval_step. cbv zeta. rewrite Ht.
  rewrite (Hop (js " and ")), (Hop (js " or ")) by reflexivity.
  rewrite (Hnotl (js "not ") 32), (Hnot (js "(") 40) by (simpl; tauto || reflexivity).
  unfold ExpressionEvaluator.evaluateComparison, ExpressionEvaluator.findOperator. cbv zeta.
  rewrite (Hend (js " is empty") 32), (Hend (js " is not empty") 32), (Hend (js " is defined") 32),
    (Hend (js " is not defined") 32) by (simpl; tauto || reflexivity).
  rewrite !Hop by reflexivity. cbn [ExpressionEvaluator.found].
  unfold ExpressionEvaluator.resolveValue. cbv zeta. rewrite Ht.
  unfold ExpressionEvaluator.quoted. rewrite (Hnot [34] 34), (Hnot [39] 39) by (simpl; tauto || reflexivity).
  rewrite Hinc. cbn [andb orb].
  destruct w as [|a t]; [congruence|].
  destruct (ScriptContext.hasVariable ctx (a :: t)); [reflexivity|].
  destruct (parseFloat (a :: t)); reflexivity.
Qed.

(** Extra X15: running the concatenation of two step lists runs the first and continues with the second only when the first ended with a successful normal result. *)
Theorem executeSteps_concat (commands : ScriptExecutor.Commands) (l1 l2 : list Script.ScriptStep)
    (st : ScriptExecutor.ExecState) :
  ScriptExecutor.executeSteps commands (l1 ++ l2) st
  = match ScriptExecutor.executeSteps commands l1 st with
    | None => None
    | Some (r, st') =>
        if Script.success r && Script.cf_eqb (Script.controlFlow r) Script.CFNormal
        then ScriptExecutor.executeSteps commands l2 st'
        else Some (r, st')
    end.
Proof.
  revert st. induction l1 as [|step l1 IH]; intros st; [reflexivity|].
  simpl. destruct (ScriptExecutor.cancelled st); [reflexivity|].
  destruct (ScriptExecutor.executeStep commands step st) as [[r st']|]; [|reflexivity].
  simpl. destruct (Script.cf_eqb (Script.controlFlow r) Script.CFNormal) eqn:E1, (Script.success r) eqn:E2;
    simpl; rewrite ?E1, ?E2; simpl; first [exact (IH st') | reflexivity].
Qed.

Section ExtractFacts.
Import ScriptContext Script ExtractCommand.

Lemma setVariable_lookup (c : ScriptContext) (n : jstr) (v : value) (key : jstr) :
  variables (setVariable c n v) !! key = if bool_decide (to_lower n = key) then Some v else variables c !! key.
Proof.
  unfold setVariable, with_variables. simpl.
  destruct (bool_decide_reflect (to_lower n = key)) as [<-|Hne];
    [apply lookup_insert_eq|apply lookup_insert_ne; exact Hne].
Qed.

(** [frame key c c']: [c'] extends the output of [c] (by nothing when
    debug mode is off) and agrees with [c] on the last command output, the
    debug mode and the variable [key]. *)
Local Abbreviation frame := (fun (key : jstr) (c c' : ScriptContext) =>
  (exists t, output c' = output c ++ t) /\ (debugMode c = false -> output c' = output c)
  /\ lastCommandOutput c' = lastCommandOutput c /\ debugMode c' = debugMode c
  /\ variables c' !! key = variables c !! key).

Lemma frame_refl (key : jstr) (c : ScriptContext) : frame key c c.
Proof. split; [exists []; rewrite app_nil_r; reflexivity|]. repeat split. Qed.

Lemma frame_trans (key : jstr) (c1 c2 c3 : ScriptContext) : frame key c1 c2 -> frame key c2 c3 -> frame key c1 c3.
Proof.
  intros ([t1 T1] & D1 & L1 & M1 & V1) ([t2 T2] & D2 & L2 & M2 & V2).
  split; [exists (t1 ++ t2); rewrite T2, T1, app_assoc; reflexivity|].
  split; [intros Hd; rewrite D2 by congruence; exact (D1 Hd)|].
  repeat split; congruence.
Qed.

Lemma frame_debug (key : jstr) (c c1 : ScriptContext) (m : jstr) : frame key c c1 -> frame key c (debug c1 m).
Proof.
  intros H. apply (frame_trans key c c1); [exact H|].
  unfold debug, emitOutput. destruct (debugMode c1) eqn:Hd.
  - split; [exists [m]; reflexivity|]. split; [congruence|]. repeat split.
  - split; [exists []; rewrite app_nil_r; reflexivity|]. repeat split; auto.
Qed.

Lemma frame_setVariable (key : jstr) (c c1 : ScriptContext) (n : jstr) (v : value) :
  to_lower n <> key -> frame key c c1 -> frame key c (setVariable c1 n v).
Proof.
  intros Hn H. apply (frame_trans key c c1); [exact H|].
  split; [exists []; rewrite app_nil_r; reflexivity|]. repeat split.
  rewrite setVariable_lookup. destruct (bool_decide_reflect (to_lower n = key)); [congruence|reflexivity].
Qed.

Lemma frame_fold {A : Type} (key : jstr) (g : ScriptContext -> A -> ScriptContext) (l : list A) :
  (forall c1 c2 a, In a l -> frame key c1 c2 -> frame key c1 (g c2 a)) ->
  forall c c1, frame key c c1 -> frame key c (fold_left g l c1).
Proof.
  induction l as [|a l IH]; intros Hg c c1 H; [exact H|].
  simpl. apply IH; [intros c2 c3 b Hb; apply Hg; right; exact Hb|]. apply Hg; [left; reflexivity|exact H].
Qed.

Lemma in_zip_r {A B : Type} (l1 : list A) : forall (l2 : list B) a b, In (a, b) (zip l1 l2) -> In b l2.
Proof.
  induction l1 as [|x l1 IH]; intros [|y l2] a b H; simpl in H; try contradiction.
  destruct H as [H|H]; [injection H as -> ->; left; reflexivity|right; exact (IH l2 a b H)].
Qed.

Lemma frame_setEmptyResults (key : jstr) (into : Into) (c c1 : ScriptContext) :
  (forall v, In v (intoList into) -> to_lower v <> key) -> frame key c c1 -> frame key c (setEmptyResults into c1).
Proof.
  intros Hk. apply frame_fold. intros c2 c3 v Hv H. apply frame_setVariable; [exact (Hk v Hv)|exact H].
Qed.

Lemma frame_preview_matches (key : jstr) (ms : list (list (option jstr))) (c c1 : ScriptContext) :
  frame key c c1 -> frame key c (preview_matches c1 ms).
Proof.
  intros H. unfold preview_matches.
  assert (Hf := frame_fold key (fun c '(i, m) => debug c (js "  Match[" ++ num_str i ++ js "]: " ++ groups_text m))
                  (zip (seq 0 (Nat.min (length ms) 3)) ms)
                  ltac:(intros c2 c3 [i m] _ H2; apply frame_debug; exact H2) c c1 H).
  destruct (Nat.ltb 3 (length ms)); [apply frame_debug|]; exact Hf.
Qed.

Lemma frame_set_all (key : jstr) (vars : list jstr) (sel : list (list (option jstr))) (c c1 : ScriptContext) :
  (forall v, In v vars -> to_lower v <> key) -> frame key c c1 -> frame key c (set_all c1 vars sel).
Proof.
  intros Hk. apply frame_fold. intros c2 c3 [i v] Hv H.
  apply frame_debug, frame_setVariable; [exact (Hk v (in_zip_r _ _ _ _ Hv))|exact H].
Qed.

Lemma frame_set_single (key : jstr) (vars : list jstr) (g : list (option jstr)) (c c1 : ScriptContext) :
  (forall v, In v vars -> to_lower v <> key) -> frame key c c1 -> frame key c (set_single c1 vars g).
Proof.
  intros Hk. apply frame_fold. intros c2 c3 [i v] Hv H.
  apply frame_debug, frame_setVariable; [exact (Hk v (in_zip_r _ _ _ _ Hv))|exact H].
Qed.

Lemma execute_frame (fuel : nat) (compile : Compiler) (step : ScriptStep) (c : ScriptContext)
    (r : CommandResult) (c' : ScriptContext) (key : jstr) :
  execute fuel compile step c = Some (r, c') ->
  (forall ex v, step_extract step = Some ex -> In v (intoList (ex_into ex)) -> to_lower v <> key) ->
  frame key c c'.
Proof.
  unfold execute. destruct (step_extract step) as [ex|]; [|intros H _; injection H as _ <-; apply frame_refl].
  intros H Hk0.
  assert (Hk : forall v, In v (intoList (ex_into ex)) -> to_lower v <> key) by (intros v; exact (Hk0 ex v eq_refl)).
  clear Hk0. repeat case_match; simplify_eq;
    repeat first [ apply frame_refl | apply frame_debug | apply frame_preview_matches
                 | apply frame_setEmptyResults; [exact Hk|]
                 | apply frame_set_all; [exact Hk|] | apply frame_set_single; [exact Hk|]
                 | apply frame_setVariable; [apply Hk; simpl; auto|] ].
Qed.

End ExtractFacts.

(** Extra X16: an extract step only appends to the recorded output, and appends nothing when debug mode is off; it changes neither the last command output, the debug mode nor any variable other than its destination variables. *)
Theorem extract_frame (fuel : nat) (compile : ExtractCommand.Compiler) (step : Script.ScriptStep)
    (c : ScriptContext.ScriptContext) (r : Script.CommandResult) (c' : ScriptContext.ScriptContext) (key : jstr) :
  ExtractCommand.execute fuel compile step c = Some (r, c') ->
  (forall ex v, Script.step_extract step = Some ex -> In v (ExtractCommand.intoList (Script.ex_into ex)) ->
     to_lower v <> key) ->
  (exists t, ScriptContext.output c' = ScriptContext.output c ++ t)
  /\ (ScriptContext.debugMode c = false -> ScriptContext.output c' = ScriptContext.output c)
  /\ ScriptContext.lastCommandOutput c' = ScriptContext.lastCommandOutput c
  /\ ScriptContext.debugMode c' = ScriptContext.debugMode c
  /\ ScriptContext.variables c' !! key = ScriptContext.variables c !! key.
Proof. exact (execute_frame fuel compile step c r c' key). Qed.

Lemma setEmpty_get (l : list jstr) :
  forall c v, ScriptContext.getVariable c v = VStr [] \/ In v l ->
  ScriptContext.getVariable (fold_left (fun c n => ScriptContext.setVariable c n (VStr [])) l c) v = VStr [].
Proof.
  induction l as [|n l IH]; intros c v H; simpl.
  - destruct H as [H|[]]. exact H.
  - apply IH. unfold ScriptContext.getVariable at 1. rewrite setVariable_lookup.
    destruct (bool_decide_reflect (to_lower n = to_lower v)) as [E|E]; [left; reflexivity|].
    destruct H as [H|[->|H]]; [left; exact H|congruence|right; exact H].
Qed.

(** Extra X17: when the source is empty or the pattern has no match, extract succeeds and sets every destination variable to the empty string. *)
Theorem extract_nothing_found_clears (fuel : nat) (compile : ExtractCommand.Compiler) (step : Script.ScriptStep)
    (c : ScriptContext.ScriptContext) (ex : Script.ExtractOptions) :
  Script.step_extract step = Some ex ->
  Script.ex_from ex <> [] -> Script.ex_pattern ex <> [] -> Script.ex_into ex <> Script.IntoOne [] ->
  (ScriptContext.getVariableString c (Script.ex_from ex) = []
   \/ exists exec, compile (Script.ex_pattern ex) = inr exec
        /\ ExtractCommand.collect_matches fuel exec (ScriptContext.getVariableString c (Script.ex_from ex)) 0 = Some []) ->
  exists c', ExtractCommand.execute fuel compile step c = Some (Script.successResult, c')
    /\ forall v, In v (ExtractCommand.intoList (Script.ex_into ex)) -> ScriptContext.getVariable c' v = VStr [].
Proof.
  intros Hs Hf Hp Hi Hnone.
  unfold ExtractCommand.execute. rewrite Hs.
  destruct (Script.ex_from ex) as [|f0 fr]; [congruence|]. destruct (Script.ex_pattern ex) as [|p0 pr]; [congruence|].
  cbn [length Nat.eqb].
  replace (match Script.ex_into ex with Script.IntoOne [] => true | _ => false end) with false
    by (destruct (Script.ex_into ex) as [[|? ?]|]; congruence).
  cbv zeta. rewrite !getVariableString_debug.
  destruct Hnone as [Hz|(exec & Hc & Hm)].
  - rewrite Hz. cbn [length Nat.eqb].
    eexists; split; [reflexivity|]. intros v Hv. apply setEmpty_get. right. exact Hv.
  - destruct (ScriptContext.getVariableString c (f0 :: fr)) as [|s0 sr].
    + cbn [length Nat.eqb]. eexists; split; [reflexivity|]. intros v Hv. apply setEmpty_get. right. exact Hv.
    + cbn [length Nat.eqb]. rewrite Hc, Hm.
      eexists; split; [reflexivity|]. intros v Hv. apply setEmpty_get. right. exact Hv.
Qed.

Lemma collect_matches_S (f : nat) (exec : ExtractCommand.Matcher) (source : jstr) (li : nat) :
  ExtractCommand.collect_matches (S f) exec source li =
  if Nat.ltb (length source) li then Some [] else
  match exec source li with
  | None => Some []
  | Some m =>
      match ExtractCommand.collect_matches f exec source (ExtractCommand.ex_index m + length (ExtractCommand.ex_match0 m)) with
      | None => None
      | Some rest => Some (match ExtractCommand.ex_groups m with [] => [Some (ExtractCommand.ex_match0 m)] | gs => gs end :: rest)
      end
  end.
Proof. reflexivity. Qed.

Lemma collect_matches_progress (exec : ExtractCommand.Matcher) (source : jstr) :
  (forall li m, exec source li = Some m -> (li <= ExtractCommand.ex_index m)%nat /\ ExtractCommand.ex_match0 m <> []) ->
  forall f li, (length source + 1 <= f + li)%nat -> ExtractCommand.collect_matches (S f) exec source li <> None.
Proof.
  intros Hprog f. induction f as [|f IH]; intros li Hle; rewrite collect_matches_S.
  - destruct (Nat.ltb_spec (length source) li); [discriminate|lia].
  - destruct (Nat.ltb (length source) li); [discriminate|].
    destruct (exec source li) as [m|] eqn:Hm; [|discriminate].
    destruct (Hprog li m Hm) as [Hi Hne].
    assert (Hlen : (1 <= length (ExtractCommand.ex_match0 m))%nat)
      by (destruct (ExtractCommand.ex_match0 m); [congruence|simpl; lia]).
    specialize (IH (ExtractCommand.ex_index m + length (ExtractCommand.ex_match0 m))%nat ltac:(lia)).
    destruct (ExtractCommand.collect_matches (S f) exec source _) eqn:E; [discriminate|exact IH].
Qed.

(** Extra X18: extract returns a result when every match its pattern finds in the source, from any search index, is non-empty and starts at or after that index, and the fuel exceeds the source's length by two. *)
Theorem extract_terminates_on_progressing_matches (fuel : nat) (compile : ExtractCommand.Compiler)
    (step : Script.ScriptStep) (c : ScriptContext.ScriptContext) :
  (forall ex exec li m, Script.step_extract step = Some ex -> compile (Script.ex_pattern ex) = inr exec ->
     exec (ScriptContext.getVariableString c (Script.ex_from ex)) li = Some m ->
     (li <= ExtractCommand.ex_index m)%nat /\ ExtractCommand.ex_match0 m <> []) ->
  (forall ex, Script.step_extract step = Some ex ->
     (length (ScriptContext.getVariableString c (Script.ex_from ex)) + 2 <= fuel)%nat) ->
  ExtractCommand.execute fuel compile step c <> None.
Proof.
  intros Hprog Hfuel. unfold ExtractCommand.execute.
  destruct (Script.step_extract step) as [ex|] eqn:Hs; [|discriminate].
  specialize (Hfuel ex eq_refl). specialize (Hprog ex).
  cbv zeta. rewrite !getVariableString_debug.
  repeat (case_match; try discriminate).
  all: destruct fuel as [|f]; [lia|].
  all: match goal with Hm : ExtractCommand.collect_matches _ ?e _ _ = None |- _ =>
    exfalso; exact (collect_matches_progress e (ScriptContext.getVariableString c (Script.ex_from ex))
                      (fun li m0 H => Hprog e li m0 eq_refl eq_refl H) f 0 ltac:(lia) Hm) end.
Qed.

Lemma split_lines_go_nolf (l : jstr) : ~ In LF l -> forall s cur,
  ScriptParser.split_lines_go (l ++ s) cur = ScriptParser.split_lines_go s (rev l ++ cur).
Proof.
  induction l as [|x l IH]; intros Hl s cur; [reflexivity|].
  assert (Hx : x <> LF) by (intros ->; apply Hl; left; reflexivity).
  cbn [app ScriptParser.split_lines_go]. destruct (N.eqb_spec x LF); [congruence|].
  rewrite IH by (intros H; apply Hl; right; exact H). simpl. rewrite <- app_assoc. reflexivity.
Qed.

Lemma trim_start_ws_cons (c : N) (s : jstr) : is_ws c = true -> trim_start (c :: s) = trim_start s.
Proof. intros H. simpl. rewrite H. reflexivity. Qed.

Lemma trim_last_not_ws (l : jstr) (c : N) : trim l = l -> last l = Some c -> is_ws c = false.
Proof.
  intros Ht Hc. apply not_true_is_false. intros Hw.
  apply last_Some in Hc as [u Hu].
  destruct (trim_start_prefix l) as [a Ha].
  destruct (trim_start l) as [|y v] eqn:Hs using rev_ind.
  - unfold trim in Ht. rewrite Hs in Ht. rewrite Hu in Ht. destruct u; discriminate.
  - clear IHv. assert (Hy : y = c).
    { rewrite Hu, app_assoc in Ha. apply app_inj_tail in Ha as [_ ->]. reflexivity. }
    subst y. unfold trim in Ht. rewrite Hs in Ht. unfold trim_end in Ht.
    rewrite rev_app_distr in Ht. cbn [rev app] in Ht. rewrite trim_start_ws_cons in Ht by exact Hw.
    assert (Hlen := f_equal (@length N) Ht).
    rewrite length_rev, Ha, !length_app in Hlen. cbn [length] in Hlen.
    pose proof (trim_start_length (rev v)) as Hle. rewrite length_rev in Hle. lia.
Qed.

Lemma split_lines_join (sep : jstr) (ls : list jstr) :
  sep = [LF] \/ sep = [CR; LF] -> ls <> [] ->
  Forall (fun l => ~ In LF l /\ forall c, last l = Some c -> c <> CR) ls ->
  ScriptParser.split_lines (join sep ls) = ls.
Proof.
  intros Hsep Hne Hls. unfold ScriptParser.split_lines.
  revert Hne. induction Hls as [|x ls [Hx Hxc] Hls IH]; intros Hne; [exfalso; apply Hne; reflexivity|].
  assert (Hstep : forall rest, ScriptParser.split_lines_go (x ++ sep ++ rest) [] = x :: ScriptParser.split_lines_go rest []).
  { intros rest. rewrite (split_lines_go_nolf x Hx). rewrite app_nil_r.
    assert (Hrev : match rev x with 13 :: r => r | _ => rev x end = rev x).
    { destruct (rev x) as [|y r] eqn:Hr; [reflexivity|].
      destruct (N.eqb_spec y 13) as [->|Hy]; [|destruct y as [|p]; [reflexivity|]; repeat (destruct p as [p|p|]; try reflexivity); congruence].
      exfalso. apply (Hxc 13); [|reflexivity]. rewrite <- (rev_involutive x), Hr. simpl. apply last_snoc. }
    destruct Hsep as [->| ->]; cbn [app ScriptParser.split_lines_go N.eqb]; simpl;
      rewrite ?Hrev, rev_involutive; reflexivity. }
  destruct ls as [|y ls].
  - simpl. rewrite <- (app_nil_r x) at 1. rewrite (split_lines_go_nolf x Hx). simpl. rewrite !app_nil_r, rev_involutive. reflexivity.
  - change (join sep (x :: y :: ls)) with (x ++ sep ++ join sep (y :: ls)).
    rewrite Hstep, IH by discriminate. reflexivity.
Qed.

Lemma simple_lines_kept (ls : list jstr) :
  Forall (fun l => l <> [] /\ ~ In LF l /\ trim l = l /\ head l <> Some 35) ls ->
  List.filter (fun l => negb (Nat.eqb (length l) 0) && negb (starts_with l [35])) (map trim ls) = ls.
Proof.
  induction 1 as [|l ls (Hne & _ & Ht & Hh) Hls IH]; [reflexivity|].
  cbn [map]. rewrite Ht. destruct l as [|a l]; [congruence|]. simpl in Hh.
  assert (Ha : (35 =? a) = false) by (apply N.eqb_neq; congruence).
  cbn [List.filter length Nat.eqb starts_with]. rewrite Ha. cbn. f_equal. exact IH.
Qed.

Lemma parse_join_lines (sep : jstr) (ls : list jstr) :
  sep = [LF] \/ sep = [CR; LF] ->
  Forall (fun l => l <> [] /\ ~ In LF l /\ trim l = l /\ head l <> Some 35) ls ->
  ScriptParser.parseSimpleCommands (join sep ls) = map (fun l => (js "send", l)) ls.
Proof.
  intros Hsep Hls. unfold ScriptParser.parseSimpleCommands.
  destruct ls as [|x ls]; [destruct Hsep as [-> | ->]; reflexivity|].
  rewrite split_lines_join; [| exact Hsep | discriminate |].
  - rewrite simple_lines_kept by exact Hls. reflexivity.
  - eapply Forall_impl; [exact Hls|]. intros l (_ & Hl & Ht & _). split; [exact Hl|].
    intros c Hc ->. pose proof (trim_last_not_ws l CR Ht Hc). discriminate.
Qed.

(** Extra X19: joining non-empty, trimmed, non-comment lines with LF or CRLF and parsing them gives one send step per line, in order. *)
Theorem parseSimpleCommands_join (sep : jstr) (ls : list jstr) :
  sep = [LF] \/ sep = [CR; LF] ->
  Forall (fun l => l <> [] /\ ~ In LF l /\ trim l = l /\ head l <> Some 35) ls ->
  ScriptParser.parseSimpleCommands (join sep ls) = map (fun l => (js "send", l)) ls.
Proof. apply parse_join_lines. Qed.

Lemma trim_start_shape (s : jstr) : trim_start s = [] \/ exists a r, trim_start s = a :: r /\ is_ws a = false.
Proof.
  induction s as [|c s IH]; [left; reflexivity|]. simpl.
  destruct (is_ws c) eqn:Hc; [exact IH|right; exists c, s; split; [reflexivity|exact Hc]].
Qed.

Lemma trim_idem (s : jstr) : trim (trim s) = trim s.
Proof.
  destruct (trim_start_shape s) as [Hs|(a & r & Hs & Ha)].
  - unfold trim at 2 3. rewrite Hs. reflexivity.
  - assert (Hte : trim s = a :: rev (trim_start (rev r))).
    { unfold trim, trim_end. rewrite Hs. cbn [rev]. rewrite trim_start_snoc by exact Ha.
      rewrite rev_app_distr. reflexivity. }
    rewrite Hte. destruct (trim_start_shape (rev r)) as [Hr|(b & r' & Hr & Hb)].
    + rewrite Hr. unfold trim, trim_end. simpl. rewrite Ha. simpl. rewrite Ha. reflexivity.
    + rewrite Hr. apply (trim_id _ a b); [reflexivity|exact Ha| |exact Hb].
      cbn [rev]. rewrite app_comm_cons. apply last_snoc.
Qed.

Lemma in_trim (s : jstr) (y : N) : In y (trim s) -> In y s.
Proof.
  intros H. unfold trim, trim_end in H. apply in_rev in H.
  destruct (trim_start_prefix (rev (trim_start s))) as [a Ha].
  assert (H1 : In y (rev (trim_start s))) by (rewrite Ha; apply in_or_app; right; exact H).
  apply in_rev in H1. destruct (trim_start_prefix s) as [b Hb]. rewrite Hb. apply in_or_app. right. exact H1.
Qed.

Lemma split_lines_go_no_lf (s : jstr) : forall cur, ~ In LF cur ->
  Forall (fun l => ~ In LF l) (ScriptParser.split_lines_go s cur).
Proof.
  induction s as [|c s IH]; intros cur Hcur; simpl.
  - constructor; [|constructor]. intros H. apply Hcur. apply in_rev. exact H.
  - destruct (N.eqb_spec c LF) as [->|Hc].
    + constructor; [|apply IH; intros []]. intros H. apply Hcur. apply in_rev in H.
      destruct cur as [|x r]; [exact H|].
      destruct x as [|p]; [exact H|]. repeat (destruct p as [p|p|]; try exact H). right. exact H.
    + apply IH. intros [H|H]; [congruence|exact (Hcur H)].
Qed.

(** Extra X20: every step parseSimpleCommands produces is a send of a non-empty trimmed line that is no comment, and parsing the joined commands again gives the same steps. *)
Theorem parseSimpleCommands_reparse (text : jstr) :
  Forall (fun '(ty, v) => ty = js "send" /\ v <> [] /\ ~ In LF v /\ trim v = v /\ head v <> Some 35)
    (ScriptParser.parseSimpleCommands text)
  /\ ScriptParser.parseSimpleCommands (join [LF] (map snd (ScriptParser.parseSimpleCommands text)))
     = ScriptParser.parseSimpleCommands text.
Proof.
  assert (Hl : Forall (fun l => l <> [] /\ ~ In LF l /\ trim l = l /\ head l <> Some 35)
     (List.filter (fun l => negb (Nat.eqb (length l) 0) && negb (starts_with l [35]))
        (map trim (ScriptParser.split_lines text)))).
  { apply List.Forall_forall. intros l Hin. apply filter_In in Hin as [Hin Hf].
    apply in_map_iff in Hin as [l0 [<- Hin0]].
    assert (Hno := split_lines_go_no_lf text [] (fun H => H)).
    rewrite List.Forall_forall in Hno. specialize (Hno l0 Hin0).
    apply andb_prop in Hf as [H1 H2].
    destruct (trim l0) as [|a r] eqn:Ht; [discriminate|].
    split; [discriminate|]. split; [intros H; apply Hno; apply in_trim; rewrite Ht; exact H|].
    split; [rewrite <- Ht; apply trim_idem|].
    simpl. intros Ha. injection Ha as ->. destruct r; simpl in H2; discriminate. }
  unfold ScriptParser.parseSimpleCommands at 1 3. split.
  - apply Forall_map. eapply Forall_impl; [exact Hl|]. intros l Hl'. split; [reflexivity|exact Hl'].
  - rewrite map_map. simpl. rewrite map_id. apply parse_join_lines; [left; reflexivity|exact Hl].
Qed.

Lemma split_lines_go_line (x s : jstr) :
  ~ In LF x -> (forall c, last x = Some c -> c <> CR) ->
  ScriptParser.split_lines_go (x ++ [LF] ++ s) [] = x :: ScriptParser.split_lines_go s [].
Proof.
  intros Hx Hxc. rewrite (split_lines_go_nolf x Hx). rewrite app_nil_r.
  assert (Hrev : match rev x with 13 :: r => r | _ => rev x end = rev x).
  { destruct (rev x) as [|y r] eqn:Hr; [reflexivity|].
    destruct (N.eqb_spec y 13) as [->|Hy]; [|destruct y as [|p]; [reflexivity|]; repeat (destruct p as [p|p|]; try reflexivity); congruence].
    exfalso. apply (Hxc 13); [|reflexivity]. rewrite <- (rev_involutive x), Hr. simpl. apply last_snoc. }
  cbn [app ScriptParser.split_lines_go N.eqb]. simpl. rewrite Hrev, rev_involutive. reflexivity.
Qed.

Lemma no_cr_last (x : jstr) : ~ In CR x -> forall c, last x = Some c -> c <> CR.
Proof.
  intros H c Hc ->. apply H. apply last_Some in Hc as [u ->]. apply in_or_app. right. left. reflexivity.
Qed.

Lemma split_lines_join_prefix (cs rest : list jstr) :
  Forall (fun c => ~ In LF c /\ ~ In CR c) cs -> rest <> [] ->
  ScriptParser.split_lines (join [LF] (cs ++ rest)) = cs ++ ScriptParser.split_lines (join [LF] rest).
Proof.
  intros Hcs Hr. unfold ScriptParser.split_lines. induction Hcs as [|x cs [Hx Hcr] Hcs IH]; [reflexivity|].
  assert (Hj : join [LF] ((x :: cs) ++ rest) = x ++ [LF] ++ join [LF] (cs ++ rest))
    by (destruct cs as [|c1 cs']; [destruct rest as [|r0 rest']; [congruence|reflexivity]|reflexivity]).
  transitivity (ScriptParser.split_lines_go (x ++ [LF] ++ join [LF] (cs ++ rest)) []);
    [apply (f_equal (fun s => ScriptParser.split_lines_go s [])); exact Hj|].
  rewrite split_lines_go_line by (exact Hx || exact (no_cr_last x Hcr)). simpl. f_equal. exact IH.
Qed.

Lemma trim_start_app_nonempty (a b : jstr) : trim_start a <> [] -> trim_start (a ++ b) = trim_start a ++ b.
Proof.
  induction a as [|x a IH]; intros H; [exfalso; apply H; reflexivity|]. simpl in *.
  destruct (is_ws x); [exact (IH H)|reflexivity].
Qed.

Lemma comment_trim_start (c : jstr) : starts_with (trim_start c) [35] = true -> exists r, trim_start c = 35 :: r.
Proof.
  destruct (trim_start c) as [|y r]; [discriminate|]. cbn [starts_with]. intros H.
  apply andb_prop in H as [H _]. apply N.eqb_eq in H. subst y. exists r. reflexivity.
Qed.

Lemma comment_kept (c : jstr) : starts_with (trim_start c) [35] = true -> negb (Nat.eqb (length (trim c)) 0) = true.
Proof.
  intros H. apply comment_trim_start in H as [r Hr]. unfold trim, trim_end. rewrite Hr. cbn [rev].
  rewrite trim_start_snoc by reflexivity. rewrite rev_app_distr. reflexivity.
Qed.

Lemma filter_app_kept (f : jstr -> bool) (cs tl : list jstr) :
  Forall (fun c => f c = true) cs -> List.filter f (cs ++ tl) = cs ++ List.filter f tl.
Proof. induction 1 as [|c cs Hc _ IH]; [reflexivity|]. simpl. rewrite Hc, IH. reflexivity. Qed.

Lemma yaml_scan_comments (cs : list jstr) :
  Forall (fun c => starts_with (trim_start c) [35] = true) cs -> ScriptParser.yaml_scan cs = false.
Proof. induction 1 as [|c cs Hc _ IH]; [reflexivity|]. simpl. rewrite Hc. exact IH. Qed.

(** Extra X21: a text whose first ten lines are comments is not recognised as YAML, whatever follows them. *)
Theorem isYamlScript_comment_window (cs rest : list jstr) :
  length cs = 10%nat ->
  Forall (fun c => ~ In LF c /\ ~ In CR c /\ starts_with (trim_start c) [35] = true) cs ->
  ScriptParser.isYamlScript (join [LF] (cs ++ rest)) = false.
Proof.
  intros Hlen Hcs.
  assert (Hsplit : exists tl, ScriptParser.split_lines (join [LF] (cs ++ rest)) = cs ++ tl).
  { destruct rest as [|r0 rest].
    - exists []. rewrite !app_nil_r. apply split_lines_join; [left; reflexivity|destruct cs; [discriminate|congruence]|].
      eapply Forall_impl; [exact Hcs|]. intros c (H1 & H2 & _). split; [exact H1|exact (no_cr_last c H2)].
    - eexists. apply split_lines_join_prefix; [|discriminate].
      eapply Forall_impl; [exact Hcs|]. intros c (H1 & H2 & _). split; assumption. }
  destruct Hsplit as [tl Htl].
  assert (Hts : exists u, trim_start (join [LF] (cs ++ rest)) = 35 :: u).
  { destruct cs as [|c0 cs']; [discriminate|].
    inversion Hcs as [|? ? (_ & _ & H0c) _]; subst.
    destruct (comment_trim_start c0 H0c) as [r0 Hr0]. cbn [app].
    destruct (cs' ++ rest) as [|y t].
    - exists r0. exact Hr0.
    - change (join [LF] (c0 :: y :: t)) with (c0 ++ [LF] ++ join [LF] (y :: t)).
      rewrite trim_start_app_nonempty by (rewrite Hr0; discriminate). rewrite Hr0. eexists. reflexivity. }
  destruct Hts as [u Hu].
  unfold ScriptParser.isYamlScript.
  destruct (join [LF] (cs ++ rest)) as [|t0 tr] eqn:Et; [reflexivity|].
  destruct (trim (t0 :: tr)); [reflexivity|].
  rewrite Hu. change (js "---") with (45 :: js "--"). rewrite starts_with_head_neq by discriminate.
  rewrite Htl, filter_app_kept.
  - rewrite <- Hlen, take_app_length. apply yaml_scan_comments.
    eapply Forall_impl; [exact Hcs|]. intros c (_ & _ & H). exact H.
  - eapply Forall_impl; [exact Hcs|]. intros c (_ & _ & H). exact (comment_kept c H).
Qed.

Lemma not_in_dec (y : N) (s : jstr) : existsb (N.eqb y) s = false -> ~ In y s.
Proof.
  intros H Hin. assert (Hx : existsb (N.eqb y) s = true) by (apply existsb_exists; exists y; split; [exact Hin|apply N.eqb_refl]).
  congruence.
Qed.

Lemma no_ws_before_terminator (p : jstr) :
  match rev p with t :: c :: _ => negb (PromptDetector.is_terminator t) || negb (is_ws c) | _ => true end = true ->
  forall q c t, p = q ++ [c; t] -> PromptDetector.is_terminator t = true -> is_ws c = false.
Proof.
  intros H q c t -> Ht. rewrite rev_app_distr in H. cbn [rev app] in H. rewrite Ht in H.
  simpl in H. destruct (is_ws c); [discriminate|reflexivity].
Qed.

Lemma tryDetectPromptFromTail_agrees_witness :
  PromptDetector.tryDetectPromptFromTail (join [LF] [js "l1"; js "l2"; js "l3"; js "l4"; js "l5"; js "router# "])
  = PromptDetector.tryDetectPrompt (join [LF] [js "l1"; js "l2"; js "l3"; js "l4"; js "l5"; js "router# "]).
Proof. apply tryDetectPromptFromTail_agrees. left. vm_compute. lia. Defined.

Lemma bufferEndsWithPrompt_own_prompt_witness :
  PromptDetector.bufferEndsWithPrompt ((js "show ver" ++ [LF]) ++ js "router#" ++ js " ")
    (PromptDetector.buildPromptRegex (js "router#")) = true.
Proof.
  apply bufferEndsWithPrompt_own_prompt;
    [apply no_ws_before_terminator; reflexivity | repeat constructor | vm_compute; lia].
Defined.

Lemma tryDetectDifferentPrompt_not_current_witness :
  (forall q c t, js "router#" = q ++ [c; t] -> PromptDetector.is_terminator t = true -> is_ws c = false)
  /\ PromptDetector.tryDetectDifferentPrompt (js "x" ++ [LF] ++ js "router#") (PromptDetector.buildPromptRegex (js "router#"))
     <> Some (js "router#").
Proof.
  split; [apply no_ws_before_terminator; reflexivity|].
  apply tryDetectDifferentPrompt_not_current. apply no_ws_before_terminator. reflexivity.
Defined.

Lemma substituteVariables_no_placeholder_witness :
  ScriptContext.substituteVariables ctx_x (js "echo hi") = js "echo hi".
Proof. apply substituteVariables_no_placeholder. apply not_in_dec. reflexivity. Defined.

Lemma substituteVariables_output_verbatim_witness :
  ScriptContext.substituteVariables (ScriptContext.recordCommandOutput ctx0 (js "42") None)
    (js "echo " ++ js "${_output}" ++ js "!") = js "echo " ++ js "42" ++ js "!".
Proof. apply substituteVariables_output_verbatim; apply not_in_dec; reflexivity. Defined.

Lemma resolveVariableExpression_index_witness :
  ScriptContext.resolveVariableExpression
    (ScriptContext.setVariable ctx0 (js "arr") (VArr [VStr (js "a"); VStr (js "b")]))
    (js "arr" ++ [91] ++ js "1" ++ [93])
  = if (0 <=? 1)%Z
    then default [] (ScriptContext.getVariableList
                       (ScriptContext.setVariable ctx0 (js "arr") (VArr [VStr (js "a"); VStr (js "b")]))
                       (js "arr") !! Z.to_nat 1)
    else [].
Proof.
  apply resolveVariableExpression_index;
    [discriminate | repeat constructor | apply not_in_dec; reflexivity | reflexivity].
Defined.

Lemma getFullOutput_only_grows_witness :
  exists t, ScriptContext.getFullOutput
              (ScriptContext.apply_ops ctx0 [ScriptContext.OpEmitOutput (js "hi") ScriptContext.Info;
                                              ScriptContext.OpRecordCommandOutput (js "x") None])
            = ScriptContext.getFullOutput ctx0 ++ t.
Proof. apply getFullOutput_only_grows. repeat constructor; discriminate. Defined.

Lemma evaluate_bare_word_witness :
  ExpressionEvaluator.evaluate (fun _ _ => None) ctx_x (js "found")
  = if ScriptContext.hasVariable ctx_x (js "found")
    then ExpressionEvaluator.isTruthy (ScriptContext.getVariable ctx_x (js "found"))
    else match parseFloat (js "found") with
         | JNaN => negb (ExpressionEvaluator.jstr_eqb (to_lower (js "found")) (js "false"))
         | n => ExpressionEvaluator.isTruthy (VNum n)
         end.
Proof. apply evaluate_bare_word; [discriminate | repeat constructor]. Defined.



Lemma extract_frame_witness :
  ExtractCommand.execute 100 compile_x (extract_step None (js "src") (js "x") (js "v")) ctx_axbx
    = Some (Script.successResult, ScriptContext.setVariable ctx_axbx (js "v") (VStr (js "x")))
  /\ ScriptContext.variables (ScriptContext.setVariable ctx_axbx (js "v") (VStr (js "x"))) !! js "src"
     = ScriptContext.variables ctx_axbx !! js "src".
Proof.
  assert (He : ExtractCommand.execute 100 compile_x (extract_step None (js "src") (js "x") (js "v")) ctx_axbx
               = Some (Script.successResult, ScriptContext.setVariable ctx_axbx (js "v") (VStr (js "x"))))
    by (vm_compute; reflexivity).
  split; [exact He|].
  apply (extract_frame _ _ _ _ _ _ (js "src") He).
  intros ex v Hs Hv. injection Hs as <-. destruct Hv as [<-|[]]. intros H. vm_compute in H. discriminate.
Defined.

Lemma extract_nothing_found_clears_witness :
  exists c', ExtractCommand.execute 100 compile_x (extract_step None (js "src") (js "x") (js "v")) ctx_src
             = Some (Script.successResult, c')
    /\ forall v, In v (ExtractCommand.intoList (Script.IntoOne (js "v"))) -> ScriptContext.getVariable c' v = VStr [].
Proof.
  apply (extract_nothing_found_clears 100 compile_x (extract_step None (js "src") (js "x") (js "v")) ctx_src
           (Script.mkExtract (js "src") (js "x") (Script.IntoOne (js "v")) None));
    [reflexivity | discriminate | discriminate | discriminate |].
  right. exists (exec_of_re (c_char 120)). split; [reflexivity | vm_compute; reflexivity].
Defined.


Lemma extract_terminates_on_progressing_matches_witness :
  (forall ex exec li m, Script.step_extract (extract_step None (js "src") (js "x") (js "v")) = Some ex ->
     compile_x (Script.ex_pattern ex) = inr exec ->
     exec (ScriptContext.getVariableString ctx_axbx (Script.ex_from ex)) li = Some m ->
     (li <= ExtractCommand.ex_index m)%nat /\ ExtractCommand.ex_match0 m <> [])
  /\ ExtractCommand.execute 100 compile_x (extract_step None (js "src") (js "x") (js "v")) ctx_axbx <> None.
Proof.
  assert (Hp : forall ex exec li m, Script.step_extract (extract_step None (js "src") (js "x") (js "v")) = Some ex ->
     compile_x (Script.ex_pattern ex) = inr exec ->
     exec (ScriptContext.getVariableString ctx_axbx (Script.ex_from ex)) li = Some m ->
     (li <= ExtractCommand.ex_index m)%nat /\ ExtractCommand.ex_match0 m <> []).
  { intros ex exec li m Hs Hc He. injection Hs as <-. injection Hc as <-.
    do 5 (destruct li as [|li]; [vm_compute in He; first [discriminate He | injection He as <-; split; [cbn; lia|discriminate]]|]).
    vm_compute in He. discriminate. }
  split; [exact Hp|]. apply extract_terminates_on_progressing_matches; [exact Hp|].
  intros ex Hs. injection Hs as <-. vm_compute. lia.
Defined.

Lemma parseSimpleCommands_join_witness :
  ScriptParser.parseSimpleCommands (join [CR; LF] [js "show version"; js "exit"])
  = map (fun l => (js "send", l)) [js "show version"; js "exit"].
Proof.
  apply parseSimpleCommands_join; [right; reflexivity|].
  repeat constructor; try discriminate; apply not_in_dec; reflexivity.
Defined.

Lemma isYamlScript_comment_window_witness :
  ScriptParser.isYamlScript (join [LF] (repeat (js "# header") 10 ++ [js "steps:"; js "  - send: ls"])) = false.
Proof.
  apply isYamlScript_comment_window; [reflexivity|].
  cbn [repeat]. repeat constructor; apply not_in_dec; reflexivity.
Defined.
